(** * ch_sync: a verification model of the ClickHouse table synchroniser

    The development embeds the per-table sync engine of the repository
    (deduplicator, state manager, universal syncer) as Rocq functions and
    proves properties of them.

    Conventions of the embedding
    - [time.Time] is an instant, counted in nanoseconds from the Unix epoch
      as an unbounded [Z], together with a location.  A location is the
      list of its zone transitions, as in [time.Location]: [time.UTC] and a
      fixed zone have none, a zone with daylight-saving time has one for
      every change of its clocks.  The monotonic clock reading is outside
      the model.
    - [time.Duration] is an [int64] count of nanoseconds.
    - Go strings are byte sequences: Rocq's [string].
    - A [map[string]interface{}] record is a [gmap string Value].
    - Functions of Go's standard library that the code calls ([time.Date],
      [Time.Format], [fmt.Sprintf], [strings.Join], ...) are written out as
      executable definitions of their documented behaviour. *)

From Stdlib Require Import ZArith List String Ascii Bool Lia.
From Stdlib Require Import SpecFloat.
From stdpp Require Import base option list gmap strings sorting.

Local Open Scope string_scope.
Local Open Scope list_scope.
Local Open Scope Z_scope.

(** ** Package time *)

Module GoTime.

(** Nanoseconds in the units of [time.Duration]. *)
Definition Nanosecond : Z := 1.
Definition Microsecond : Z := 1000 * Nanosecond.
Definition Millisecond : Z := 1000 * Microsecond.
Definition Second : Z := 1000 * Millisecond.
Definition Minute : Z := 60 * Second.
Definition Hour : Z := 60 * Minute.

Definition secondsPerDay : Z := 86400.
Definition nsPerDay : Z := secondsPerDay * Second.

Definition minDuration : Z := - 2 ^ 63.
Definition maxDuration : Z := 2 ^ 63 - 1.

(** A location, as [time.Location] holds it: the offset in force before
    the first transition, in seconds east of UTC, and the transitions in
    ascending order, each with the Unix second from which its offset is in
    force.  The rule a zone file may give for the time after its last
    transition is not held: the last offset stays in force. *)
Record Loc : Type := mkLoc {
  loc_first : Z;
  loc_tx : list (Z * Z)
}.

Definition UTC : Loc := mkLoc 0 [].

(** [time.FixedZone(name, offset)]. *)
Definition FixedZone (offset : Z) : Loc := mkLoc offset [].

(** The beginning and the end of time of [lookup]. *)
Definition alpha : Z := - 2 ^ 63.
Definition omega : Z := 2 ^ 63 - 1.

(** [l.lookup(sec)]: the offset in force at the Unix second [sec], and the
    seconds from which and up to which it is in force. *)
Fixpoint lookupTx (tx : list (Z * Z)) (sec : Z) (offset start : Z) : Z * Z * Z :=
  match tx with
  | [] => (offset, start, omega)
  | (when, offset') :: tx =>
      if sec <? when then (offset, start, when)
      else lookupTx tx sec offset' when
  end.

Definition lookup (l : Loc) (sec : Z) : Z * Z * Z :=
  lookupTx (loc_tx l) sec (loc_first l) alpha.

Definition offsetAt (l : Loc) (sec : Z) : Z := fst (fst (lookup l sec)).

Record Time : Type := mkTime {
  unixNano : Z;   (* the instant *)
  loc : Loc       (* the location *)
}.

(** The Unix second of the instant, and the offset of the location at
    it. *)
Definition unixSec (t : Time) : Z := unixNano t / Second.
Definition offset (t : Time) : Z := offsetAt (loc t) (unixSec t).

(** [t.Before(u)], [t.After(u)], [t.Equal(u)] compare instants and ignore
    the locations. *)
Definition Before (t u : Time) : bool := unixNano t <? unixNano u.
Definition After (t u : Time) : bool := unixNano u <? unixNano t.
Definition Equal (t u : Time) : bool := unixNano t =? unixNano u.

(** [t.Add(d)] keeps the location. *)
Definition Add (t : Time) (d : Z) : Time :=
  mkTime (unixNano t + d) (loc t).

(** [t.Sub(u)]: the difference as a [Duration], saturating at the ends of
    [int64]. *)
Definition Sub (t u : Time) : Z :=
  let d := unixNano t - unixNano u in
  if d <? minDuration then minDuration
  else if maxDuration <? d then maxDuration
  else d.

(** *** The proleptic Gregorian calendar *)

(** Days are counted from 1970-01-01.  A 400-year era has 146097 days; the
    computation shifts the start of the year to March 1st so that the leap
    day is the last day of the shifted year. *)
Definition daysPer400Years : Z := 146097.
Definition daysToShiftedEpoch : Z := 719468.   (* 0000-03-01 to 1970-01-01 *)

(** Year of era, month and day of a day of era. *)
Definition civil_of_doe (doe : Z) : Z * Z * Z :=
  let yoe := (doe - doe / 1460 + doe / 36524 - doe / 146096) / 365 in
  let doy := doe - (365 * yoe + yoe / 4 - yoe / 100) in
  let mp := (5 * doy + 2) / 153 in
  let d := doy - (153 * mp + 2) / 5 + 1 in
  let m := if mp <? 10 then mp + 3 else mp - 9 in
  (yoe, m, d).

(** Day of era of a year of era, month and day. *)
Definition doe_of_civil (yoe m d : Z) : Z :=
  let mp := if 2 <? m then m - 3 else m + 9 in
  let doy := (153 * mp + 2) / 5 + d - 1 in
  yoe * 365 + yoe / 4 - yoe / 100 + doy.

(** The check that [civil_of_doe] and [doe_of_civil] agree on one day of
    an era, and its run over the first [n] days. *)
Definition doe_ok (doe : Z) : bool :=
  let '(yoe, m, d) := civil_of_doe doe in
  (0 <=? yoe) && (yoe <? 400) && (1 <=? m) && (m <=? 12) && (1 <=? d) && (d <=? 31)
  && (doe_of_civil yoe m d =? doe).

Definition check_step (st : Z * bool) : Z * bool :=
  (fst st + 1, snd st && doe_ok (fst st)).

Definition check_upto (n : positive) : Z * bool :=
  Pos.iter check_step (0, true) n.

(** The civil date (year, month, day) of a day number. *)
Definition civil_from_days (z : Z) : Z * Z * Z :=
  let z := z + daysToShiftedEpoch in
  let era := z / daysPer400Years in
  let doe := z mod daysPer400Years in
  let '(yoe, m, d) := civil_of_doe doe in
  (yoe + era * 400 + (if m <=? 2 then 1 else 0), m, d).

(** The day number of a civil date; linear in [d], so a day outside the
    month overflows into the next months, as [time.Date] has it. *)
Definition days_from_civil (y m d : Z) : Z :=
  let y := y - (if m <=? 2 then 1 else 0) in
  let era := y / 400 in
  let yoe := y mod 400 in
  era * daysPer400Years + doe_of_civil yoe m d - daysToShiftedEpoch.

(** Wall-clock nanoseconds of [t] in its own location, from the epoch. *)
Definition localNano (t : Time) : Z := unixNano t + offset t * Second.

Definition localDays (t : Time) : Z := localNano t / nsPerDay.
Definition nanoOfDay (t : Time) : Z := localNano t mod nsPerDay.

Definition Year (t : Time) : Z := fst (fst (civil_from_days (localDays t))).
Definition Month (t : Time) : Z := snd (fst (civil_from_days (localDays t))).
Definition Day (t : Time) : Z := snd (civil_from_days (localDays t)).
Definition HourOf (t : Time) : Z := nanoOfDay t / Hour.
Definition MinuteOf (t : Time) : Z := (nanoOfDay t mod Hour) / Minute.
Definition SecondOf (t : Time) : Z := (nanoOfDay t mod Minute) / Second.
Definition NanosecondOf (t : Time) : Z := nanoOfDay t mod Second.
Definition Location (t : Time) : Loc := loc t.

(** [norm(hi, lo, base)]: carry [lo] into [hi] so that [0 <= lo < base]. *)
Definition norm (hi lo base : Z) : Z * Z := (hi + lo / base, lo mod base).

(** The Unix second of the wall-clock second [unix] of a location, as
    [time.Date] finds it: the zone is looked up at [unix] as if that were
    a Unix second, and once more at the second found when that one is
    outside the time of the zone. *)
Definition wallToUnix (l : Loc) (unix : Z) : Z :=
  let '(offset, start, end_) := lookup l unix in
  if offset =? 0 then unix
  else
    let utc := unix - offset in
    let offset :=
      if (utc <? start) || (end_ <=? utc) then offsetAt l utc else offset in
    unix - offset.

(** [time.Date(year, month, day, hour, min, sec, nsec, loc)]. *)
Definition Date (year month day hour min sec nsec : Z) (l : Loc) : Time :=
  let '(year, m) := norm year (month - 1) 12 in
  let month := m + 1 in
  let '(sec, nsec) := norm sec nsec Second in
  let '(min, sec) := norm min sec 60 in
  let '(hour, min) := norm hour min 60 in
  let '(day, hour) := norm day hour 24 in
  let d := days_from_civil year month 1 + (day - 1) in
  let abs := d * secondsPerDay + (hour * 3600 + min * 60 + sec) in
  let unix := wallToUnix l abs in
  mkTime (unix * Second + nsec) l.

(** [t.AddDate(years, months, days)]. *)
Definition AddDate (t : Time) (years months days : Z) : Time :=
  Date (Year t + years) (Month t + months) (Day t + days)
       (HourOf t) (MinuteOf t) (SecondOf t) (NanosecondOf t) (Location t).

(** The zero [Time]: January 1, year 1, 00:00:00 UTC. *)
Definition zeroTime : Time := mkTime (-62135596800 * Second) UTC.
Definition IsZero (t : Time) : bool := unixNano t =? unixNano zeroTime.

End GoTime.

Import GoTime.

(** ** Package fmt and the formatting side of package time *)

Module GoFmt.

(** The byte of a decimal digit. *)
Definition digitChar (d : Z) : ascii := ascii_of_nat (48 + Z.to_nat d).

(** The digit loop of [fmtInteger]: the digits of [u] are written in front
    of [buf], the last one first.  [fuel] bounds the number of digits. *)
Fixpoint formatBits (fuel : nat) (u : Z) (buf : string) : string :=
  match fuel with
  | O => buf
  | S fuel =>
      if u <? 10 then String (digitChar u) buf
      else formatBits fuel (u / 10) (String (digitChar (u mod 10)) buf)
  end.

(** A number below [2 ^ n] has at most [n] decimal digits, and [u] is
    below [2 ^ (log2 u + 1)]. *)
Definition formatUint (u : Z) : string :=
  formatBits (Z.to_nat (Z.log2 u) + 2) u "".

(** [fmt.Sprintf("%d", v)] for a signed or unsigned integer: the decimal
    digits, with a minus sign for a negative number. *)
Definition Sprintf_d (z : Z) : string :=
  if z <? 0 then String "-" (formatUint (- z)) else formatUint z.

Fixpoint zeros (n : nat) : string :=
  match n with
  | O => ""
  | S k => String "0" (zeros k)
  end.

(** [appendInt(b, x, width)] of package time: [x] in decimal, with zeros
    on the left up to [width] digits. *)
Definition appendInt (x : Z) (width : nat) : string :=
  let digits := Sprintf_d (Z.abs x) in
  (if x <? 0 then "-" else "")
    +:+ zeros (width - String.length digits) +:+ digits.

(** Trailing zeros removed, as the layout element [.999999999] asks. *)
Fixpoint trimZeros (s : string) : string :=
  match s with
  | EmptyString => EmptyString
  | String c r =>
      match trimZeros r with
      | EmptyString => if Ascii.eqb c "0" then EmptyString else String c EmptyString
      | r' => String c r'
      end
  end.

(** [appendNano] for the layout element [.999999999]. *)
Definition appendNano (nanosec : Z) : string :=
  if nanosec =? 0 then "" else "." +:+ trimZeros (appendInt nanosec 9).

(** The zone in the layout element [Z07:00]. *)
Definition appendZone (off : Z) : string :=
  if off =? 0 then "Z"
  else
    let zone := Z.quot off 60 in
    (if zone <? 0 then "-" else "+")
      +:+ appendInt (Z.quot (Z.abs zone) 60) 2 +:+ ":"
      +:+ appendInt (Z.rem (Z.abs zone) 60) 2.

(** [t.Format(time.RFC3339Nano)], layout
    [2006-01-02T15:04:05.999999999Z07:00]. *)
Definition Format_RFC3339Nano (t : Time) : string :=
  appendInt (Year t) 4 +:+ "-" +:+ appendInt (Month t) 2 +:+ "-"
    +:+ appendInt (Day t) 2 +:+ "T"
    +:+ appendInt (HourOf t) 2 +:+ ":" +:+ appendInt (MinuteOf t) 2 +:+ ":"
    +:+ appendInt (SecondOf t) 2
    +:+ appendNano (NanosecondOf t)
    +:+ appendZone (offset t).

(** A finite binary float [m * 2^e], times [10^6], rounded to the nearest
    integer, ties to even. *)
Definition scaledMicro (m : positive) (e : Z) : Z :=
  let num := Z.pos m * 10 ^ 6 in
  if 0 <=? e then num * 2 ^ e
  else
    let den := 2 ^ (- e) in
    let q := num / den in
    let r := num mod den in
    if (den <? 2 * r) || ((2 * r =? den) && Z.odd q) then q + 1 else q.

(** [fmt.Sprintf("%f", v)] for a [float32] or [float64] value. *)
Definition Sprintf_f (f : spec_float) : string :=
  match f with
  | S754_nan => "NaN"
  | S754_infinity s => if s then "-Inf" else "+Inf"
  | S754_zero s => (if s then "-" else "") +:+ "0.000000"
  | S754_finite s m e =>
      let scaled := scaledMicro m e in
      (if s then "-" else "")
        +:+ Sprintf_d (scaled / 10 ^ 6) +:+ "." +:+ appendInt (scaled mod 10 ^ 6) 6
  end.

(** [fmt.Sprintf("%t", v)]. *)
Definition Sprintf_t (b : bool) : string := if b then "true" else "false".

(** [strings.Join(elems, sep)]. *)
Definition strings_Join (elems : list string) (sep : string) : string :=
  String.concat sep elems.

(** [strings.Contains(s, substr)]. *)
Fixpoint strings_Contains (s substr : string) : bool :=
  String.prefix substr s
  || match s with
     | EmptyString => false
     | String _ r => strings_Contains r substr
     end.

End GoFmt.

Import GoFmt.

(** ** Dynamic values *)

(** [decimal.Decimal] of shopspring/decimal: [value * 10 ^ exp]. *)
Record Decimal : Type := mkDecimal {
  dec_value : Z;
  dec_exp : Z
}.

(** What an [interface{}] scanned from a row can hold.  [VInt] stands for
    [int], [int8], ..., [int64]; [VUint] for [uint], ..., [uint64]; [VFloat]
    for [float32] and [float64].  A value of any other dynamic type is
    [VOther] and carries its [%v] rendering. *)
Inductive Value : Type :=
| VNil
| VTime (t : Time)
| VString (s : string)
| VBytes (b : list Byte.byte)
| VInt (z : Z)
| VUint (n : N)
| VFloat (f : spec_float)
| VBool (b : bool)
| VDecimal (d : Decimal)
| VOther (repr : string).

(** Functions of libraries outside the repository whose results the code
    only passes on. *)
Class GoLibs : Type := {
  (** [decimal.NewFromString]; [None] is a non-nil error. *)
  decimal_NewFromString : string -> option Decimal;
  (** [Decimal.String], which [%v] prints. *)
  decimal_String : Decimal -> string;
  (** [time.Parse(time.RFC3339, s)]; [None] is a non-nil error. *)
  time_Parse_RFC3339 : string -> option Time
}.

(** A record scanned from a row: [map[string]interface{}]. *)
Abbreviation Row := (gmap string Value).

(** ** Deduplicator (deduplicator.go) *)

Record Deduplicator : Type := mkDeduplicator {
  dedupeKeys : list string;
  timeField : string
}.

Definition NewDeduplicator (dedupeKeys : list string) (timeField : string)
  : Deduplicator :=
  mkDeduplicator dedupeKeys timeField.

Section Dedup.
Context {L : GoLibs}.

(** [formatValue]; the receiver is not used. *)
Definition formatValue (val : Value) : string :=
  match val with
  | VNil => "<NULL>"
  | VTime v => Format_RFC3339Nano v
  | VString v => v
  | VBytes v => string_of_list_byte v
  | VInt v => Sprintf_d v
  | VUint v => Sprintf_d (Z.of_N v)
  | VFloat v => Sprintf_f v
  | VBool v => Sprintf_t v
  | VDecimal v => decimal_String v
  | VOther repr => repr
  end.

(** [buildKeyFromValues]: [parts[i] = formatValue(values[i])], joined. *)
Definition buildKeyFromValues (values : list Value) : string :=
  let parts := map formatValue values in
  strings_Join parts "|".

(** Indexing a Go map at a key it does not hold gives the zero value of
    the element type, the nil interface. *)
Definition recordGet (record : Row) (key : string) : Value :=
  default VNil (record !! key).

(** [BuildKey]: [values[i] = record[key]] for the dedup keys in order. *)
Definition BuildKey (d : Deduplicator) (record : Row) : string :=
  let values := map (fun key => recordGet record key) (dedupeKeys d) in
  buildKeyFromValues values.

End Dedup.

(** ** Errors *)

(** Go [error] values: the sentinel [ErrSourceTableEmpty], an error made by
    a driver or by [fmt.Errorf] without [%w], and an error that wraps
    another one with [fmt.Errorf("...: %w", err)]. *)
Inductive error : Type :=
| ErrSourceTableEmpty
| ErrMsg (msg : string)
| ErrWrap (msg : string) (inner : error).

(** [errors.Is(err, ErrSourceTableEmpty)]. *)
Fixpoint errors_Is_SourceTableEmpty (err : error) : bool :=
  match err with
  | ErrSourceTableEmpty => true
  | ErrMsg _ => false
  | ErrWrap _ inner => errors_Is_SourceTableEmpty inner
  end.

(** ** Integers *)

(** Go's [int] on a 64-bit target: addition wraps around. *)
Definition wrap_int (z : Z) : Z := (z + 2 ^ 63) mod 2 ^ 64 - 2 ^ 63.
Definition int_add (a b : Z) : Z := wrap_int (a + b).

(** ** Table schema (schema.go) *)

Record ColumnInfo : Type := mkColumnInfo {
  col_Name : string;
  col_Type : string;
  col_DefaultValue : string;
  col_IsNullable : bool
}.

Record TableSchema : Type := mkTableSchema {
  ts_TableName : string;
  ts_Columns : list ColumnInfo
}.

Definition GetColumnNames (ts : TableSchema) : list string :=
  map col_Name (ts_Columns ts).

Definition HasColumn (ts : TableSchema) (columnName : string) : bool :=
  existsb (fun col => String.eqb (col_Name col) columnName) (ts_Columns ts).

(** ** Configuration (config.go) *)

Record SyncConfig : Type := mkSyncConfig {
  sc_Mode : string;
  sc_BatchSize : Z;
  sc_DailySegmentation : bool
}.

Record TableConfig : Type := mkTableConfig {
  tc_Name : string;
  tc_Mode : string;
  tc_TimeField : string;
  tc_DedupeKeys : list string;
  tc_BatchSize : Z;
  tc_Enabled : bool
}.

Record TimeRangeConfig : Type := mkTimeRangeConfig {
  trc_Start : string;
  trc_End : string;
  trc_AutoDetect : bool;
  trc_FallbackDays : Z
}.

Record Config : Type := mkConfig {
  cfg_Sync : SyncConfig;
  cfg_TimeRange : TimeRangeConfig
}.

Definition GetEffectiveMode (tc : TableConfig) (globalMode : string) : string :=
  if negb (String.eqb (tc_Mode tc) "") then tc_Mode tc else globalMode.

Definition GetEffectiveBatchSize (tc : TableConfig) (globalBatchSize : Z) : Z :=
  if 0 <? tc_BatchSize tc then tc_BatchSize tc else globalBatchSize.

(** ** Sync state (state.go) *)

Record TimeSegment : Type := mkSegment {
  seg_Start : Time;
  seg_End : Time
}.

Record TimeRange : Type := mkRange {
  tr_Start : Time;
  tr_End : Time
}.

Record TableState : Type := mkTableState {
  Status : string;
  LastSyncedTime : Time;
  RecordsSynced : Z;
  CompletedSegments : list TimeSegment
}.

Record SyncState : Type := mkSyncState {
  RunID : string;
  StartTime : Time;
  LastUpdated : Time;
  Tables : gmap string TableState
}.

Record StateManager : Type := mkStateManager {
  stateFile : string;
  state : SyncState
}.

(** *** The file system under the state file *)

(** The bytes of a state file are identified with the JSON document they
    encode, and the document with the [SyncState] it was marshalled from.
    [fs_writable] and [fs_renamable] say which calls of [os.WriteFile] and
    [os.Rename] succeed. *)
Record FileSystem : Type := mkFS {
  fs_files : gmap string SyncState;
  fs_writable : string -> bool;
  fs_renamable : string -> string -> bool
}.

(** [Time.MarshalJSON] refuses a year outside [0, 9999]. *)
Definition timeMarshals (t : Time) : bool := (0 <=? Year t) && (Year t <? 10000).

Definition segmentMarshals (sg : TimeSegment) : bool :=
  timeMarshals (seg_Start sg) && timeMarshals (seg_End sg).

Definition tableStateMarshals (ts : TableState) : bool :=
  timeMarshals (LastSyncedTime ts) && forallb segmentMarshals (CompletedSegments ts).

(** [json.MarshalIndent(sm.state, "", "  ")]: the document, or an error.
    The document is held as the state it was written from; what a reader
    makes of its text is not modelled. *)
Definition json_MarshalIndent (st : SyncState) : SyncState + error :=
  if timeMarshals (StartTime st) && timeMarshals (LastUpdated st)
     && forallb (fun kv => tableStateMarshals (snd kv)) (map_to_list (Tables st))
  then inl st
  else inr (ErrMsg "json: error calling MarshalJSON for type time.Time").

(** [os.WriteFile(name, data, 0644)]; a failed write leaves the files as
    they were. *)
Definition os_WriteFile (fs : FileSystem) (name : string) (data : SyncState)
  : option error * FileSystem :=
  if fs_writable fs name
  then (None, mkFS (<[name := data]> (fs_files fs)) (fs_writable fs) (fs_renamable fs))
  else (Some (ErrMsg "open: permission denied"), fs).

(** [os.Rename(oldpath, newpath)]: [newpath] is replaced in one step. *)
Definition os_Rename (fs : FileSystem) (oldpath newpath : string)
  : option error * FileSystem :=
  match fs_files fs !! oldpath with
  | None => (Some (ErrMsg "rename: no such file or directory"), fs)
  | Some data =>
      if fs_renamable fs oldpath newpath
      then (None, mkFS (<[newpath := data]> (delete oldpath (fs_files fs)))
                       (fs_writable fs) (fs_renamable fs))
      else (Some (ErrMsg "rename: permission denied"), fs)
  end.

(** ** Databases *)

(** A table holds its column list and its rows; a database holds tables by
    name.  [db_up] says whether the server answers (a query on a server
    that does not answer, or on a table that does not exist, is an error);
    [db_accepts] is the driver's check of one row of values at insert. *)
Record Table : Type := mkTable {
  tbl_columns : list ColumnInfo;
  tbl_rows : list Row
}.

Record DB : Type := mkDB {
  db_up : bool;
  db_tables : gmap string Table;
  db_accepts : list Value -> bool
}.

(** [sql.NullTime]. *)
Record NullTime : Type := mkNullTime {
  nt_Time : Time;
  nt_Valid : bool
}.

Definition nullTime : NullTime := mkNullTime zeroTime false.

Definition dbTable (db : DB) (name : string) : Table + error :=
  if db_up db then
    match db_tables db !! name with
    | Some t => inl t
    | None => inr (ErrMsg "table does not exist")
    end
  else inr (ErrMsg "connection refused").

(** The value of a time column in a row; [None] for SQL NULL (and for a
    value that is not a timestamp). *)
Definition timeOf (row : Row) (col : string) : option Time :=
  match recordGet row col with
  | VTime t => Some t
  | _ => None
  end.

Definition columnTimes (rows : list Row) (col : string) : list Time :=
  omap (fun row => timeOf row col) rows.

Definition maxStep (acc : NullTime) (t : Time) : NullTime :=
  if nt_Valid acc && negb (Before (nt_Time acc) t) then acc else mkNullTime t true.

Definition minStep (acc : NullTime) (t : Time) : NullTime :=
  if nt_Valid acc && negb (After (nt_Time acc) t) then acc else mkNullTime t true.

(** [SELECT MAX(col) FROM table], scanned into a [sql.NullTime]: NULL when
    no row has a value. *)
Definition queryMax (db : DB) (table col : string) : NullTime + error :=
  match dbTable db table with
  | inl t => inl (fold_left maxStep (columnTimes (tbl_rows t) col) nullTime)
  | inr e => inr e
  end.

(** [SELECT MIN(col), MAX(col) FROM table]. *)
Definition queryMinMax (db : DB) (table col : string)
  : (NullTime * NullTime) + error :=
  match dbTable db table with
  | inl t =>
      let ts := columnTimes (tbl_rows t) col in
      inl (fold_left minStep ts nullTime, fold_left maxStep ts nullTime)
  | inr e => inr e
  end.

(** The comparison operators of the WHERE clauses. *)
Inductive CmpOp : Type := OpGe | OpLt | OpLe.

Definition cmpTime (op : CmpOp) (t bound : Time) : bool :=
  match op with
  | OpGe => negb (Before t bound)
  | OpLt => Before t bound
  | OpLe => negb (After t bound)
  end.

(** [WHERE col >= ? AND col <upperOp> ?] on one row, with the two
    arguments [lo] and [hi]. *)
Definition whereRange (col : string) (upperOp : CmpOp) (lo hi : Time) (row : Row)
  : bool :=
  match timeOf row col with
  | Some t => cmpTime OpGe t lo && cmpTime upperOp t hi
  | None => false
  end.

(** [SELECT cols FROM table WHERE col >= ? AND col <upperOp> ?]: the
    values of [cols] of the selected rows, in table order. *)
Definition querySelectRange (db : DB) (table : string) (cols : list string)
    (col : string) (upperOp : CmpOp) (lo hi : Time) : list (list Value) + error :=
  match dbTable db table with
  | inl t =>
      inl (map (fun row => map (recordGet row) cols)
               (filter (fun row => whereRange col upperOp lo hi row) (tbl_rows t)))
  | inr e => inr e
  end.

(** [SELECT COUNT( * ) FROM table WHERE col >= ? AND col <upperOp> ?]. *)
Definition queryCountRange (db : DB) (table : string)
    (col : string) (upperOp : CmpOp) (lo hi : Time) : Z + error :=
  match dbTable db table with
  | inl t =>
      inl (Z.of_nat (length (filter (fun row => whereRange col upperOp lo hi row)
                                    (tbl_rows t))))
  | inr e => inr e
  end.

(** The order of [ORDER BY col]: rows by the instant of their time. *)
Definition timeLe (col : string) (r1 r2 : Row) : Prop :=
  match timeOf r1 col, timeOf r2 col with
  | Some t1, Some t2 => unixNano t1 <= unixNano t2
  | None, _ => True
  | Some _, None => False
  end.

#[global] Instance timeLe_dec col r1 r2 : Decision (timeLe col r1 r2).
Proof.
  unfold timeLe. destruct (timeOf r1 col), (timeOf r2 col); apply _.
Defined.

(** [SELECT cols FROM table WHERE col >= ? AND col <upperOp> ? ORDER BY col]. *)
Definition querySelectRangeOrdered (db : DB) (table : string) (cols : list string)
    (col : string) (upperOp : CmpOp) (lo hi : Time) : list (list Value) + error :=
  match dbTable db table with
  | inl t =>
      inl (map (fun row => map (recordGet row) cols)
               (merge_sort (timeLe col)
                  (filter (fun row => whereRange col upperOp lo hi row) (tbl_rows t))))
  | inr e => inr e
  end.

(** The rows of a table; none when the table does not exist. *)
Definition tableRows (db : DB) (table : string) : list Row :=
  match db_tables db !! table with
  | Some t => tbl_rows t
  | None => []
  end.

(** One row per executed insert, appended to the table on commit. *)
Definition dbAppendRows (db : DB) (table : string) (rows : list Row) : DB :=
  mkDB (db_up db)
       (alter (fun t => mkTable (tbl_columns t) (tbl_rows t ++ rows)) table (db_tables db))
       (db_accepts db).

(** ** Log lines *)

(** One constructor per [log.Printf] of the modelled functions, with the
    arguments of the call that are not the table name. *)
Inductive LogEvent : Type :=
(* SyncWithRealtimeMode *)
| LogSkipNoSourceData
| LogInitialSync
| LogLagCatchup (lag : Z) (sourceMax targetMax : Time)
| LogCaughtUp
| LogEnterRealtime
(* realtimeIncrementalSync *)
| LogFailoverDetected (sourceMax targetMax : Time)
| LogBacktrack (window : Z)
| LogNewRecords (n : Z) (startTime endTime : Time)
| LogRealtimeDone (n : Z)
(* incrementalSync *)
| LogUpToDate
| LogSyncRange (startTime endTime : Time)
| LogSegmentCount (n : nat)
| LogSegmentSkipped (i n : nat)
| LogSegmentDone (i n : nat) (recordCount : Z)
| LogIncrementalDone (totalRecords : Z)
(* determineTimeRange *)
| LogRangeBegin
| LogConfiguredEnd (endTime : Time)
| LogSourceMaxEnd (sourceMax : Time)
| LogNoValidSource
| LogQueryTargetMax (timeField : string)
| LogQueryMaxFailed (err : error)
| LogTargetMax (targetMax : Time)
| LogTargetEmpty
| LogQuerySourceRangeFailed (err : error)
| LogSourceNoData
| LogSourceMinStart (sourceMin : Time)
| LogFallbackStart (days : Z) (startTime : Time)
| LogConfiguredStart (startTime : Time)
| LogDefaultStart (startTime : Time)
| LogRangeDone
(* syncSegment *)
| LogSegmentBegin (segment : TimeSegment)
| LogExistingKeys (n : nat)
| LogQuerySource
| LogBatch (batchCount inserted totalScanned totalInserted totalSkipped : Z)
| LogSegmentSummary (totalScanned totalInserted totalSkipped : Z).

(** ** The world of one syncer *)

(** What a syncer reads and changes: the two databases, the wall clock
    ([clock k] is what the [k]-th call of [time.Now] returns), the file
    system, the shared state manager, the syncer's own mutable field
    [skipCheckpoint], and the log.  Contexts, timeouts and the mutex of the
    state manager are not modelled: one syncer runs alone. *)
Record World : Type := mkWorld {
  sourceDB : DB;
  targetDB : DB;
  clock : nat -> Time;
  ticks : nat;
  fs : FileSystem;
  stateMgr : StateManager;
  skipCheckpoint : bool;
  logs : list (string * LogEvent)
}.

Definition set_targetDB (w : World) (db : DB) : World :=
  mkWorld (sourceDB w) db (clock w) (ticks w) (fs w) (stateMgr w) (skipCheckpoint w) (logs w).
Definition set_ticks (w : World) (n : nat) : World :=
  mkWorld (sourceDB w) (targetDB w) (clock w) n (fs w) (stateMgr w) (skipCheckpoint w) (logs w).
Definition set_fs (w : World) (f : FileSystem) : World :=
  mkWorld (sourceDB w) (targetDB w) (clock w) (ticks w) f (stateMgr w) (skipCheckpoint w) (logs w).
Definition set_state (w : World) (st : SyncState) : World :=
  mkWorld (sourceDB w) (targetDB w) (clock w) (ticks w) (fs w)
          (mkStateManager (stateFile (stateMgr w)) st) (skipCheckpoint w) (logs w).
Definition set_skipCheckpoint (w : World) (b : bool) : World :=
  mkWorld (sourceDB w) (targetDB w) (clock w) (ticks w) (fs w) (stateMgr w) b (logs w).
Definition set_logs (w : World) (l : list (string * LogEvent)) : World :=
  mkWorld (sourceDB w) (targetDB w) (clock w) (ticks w) (fs w) (stateMgr w) (skipCheckpoint w) l.

(** A computation that reads and changes the world. *)
Definition M (A : Type) : Type := World -> A * World.

Definition ret {A : Type} (a : A) : M A := fun w => (a, w).

Definition bind {A B : Type} (m : M A) (k : A -> M B) : M B :=
  fun w => let (a, w') := m w in k a w'.

Notation "x <- m ;; k" := (bind m (fun x => k))
  (at level 63, m at next level, right associativity).
Notation "m ;;; k" := (bind m (fun _ => k))
  (at level 63, right associativity).

Definition gets {A : Type} (f : World -> A) : M A := fun w => (f w, w).
Definition modify (f : World -> World) : M unit := fun w => (tt, f w).

(** [time.Now()]. *)
Definition time_Now : M Time :=
  fun w => (clock w (ticks w), set_ticks w (S (ticks w))).

(** [log.Printf] of a line about [table]. *)
Definition log_Printf (table : string) (ev : LogEvent) : M unit :=
  modify (fun w => set_logs w (logs w ++ [(table, ev)])).

(** ** State manager (state.go) *)

(** [saveStateUnlocked]. *)
Definition saveStateUnlocked : M (option error) :=
  now <- time_Now ;;
  st <- gets (fun w => state (stateMgr w)) ;;
  let st := mkSyncState (RunID st) (StartTime st) now (Tables st) in
  modify (fun w => set_state w st) ;;;
  match json_MarshalIndent st with
  | inr err => ret (Some err)
  | inl data =>
      (* atomic write *)
      tmpFile <- gets (fun w => stateFile (stateMgr w) +:+ ".tmp") ;;
      err <- (fun w => let (err, f) := os_WriteFile (fs w) tmpFile data in
                       (err, set_fs w f)) ;;
      match err with
      | Some err => ret (Some err)
      | None =>
          fun w => let (err, f) := os_Rename (fs w) tmpFile (stateFile (stateMgr w)) in
                   (err, set_fs w f)
      end
  end.

(** [SaveState]. *)
Definition SaveState : M (option error) := saveStateUnlocked.

Definition segmentEqual (completed segment : TimeSegment) : bool :=
  Equal (seg_Start completed) (seg_Start segment)
  && Equal (seg_End completed) (seg_End segment).

(** [IsSegmentCompleted]. *)
Definition IsSegmentCompleted (tableName : string) (segment : TimeSegment) : M bool :=
  st <- gets (fun w => state (stateMgr w)) ;;
  match Tables st !! tableName with
  | None => ret false
  | Some tableState =>
      ret (existsb (fun completed => segmentEqual completed segment)
                   (CompletedSegments tableState))
  end.

(** [MarkSegmentCompleted]: the function has no result, and the result of
    [saveStateUnlocked] is dropped. *)
Definition MarkSegmentCompleted (tableName : string) (segment : TimeSegment)
    (recordCount : Z) : M unit :=
  st <- gets (fun w => state (stateMgr w)) ;;
  let tables :=
    match Tables st !! tableName with
    | Some _ => Tables st
    | None => <[tableName := mkTableState "in_progress" zeroTime 0 []]> (Tables st)
    end in
  now <- time_Now ;;
  let tables :=
    alter (fun tableState =>
             mkTableState (Status tableState) now
                          (int_add (RecordsSynced tableState) recordCount)
                          (CompletedSegments tableState ++ [segment]))
          tableName tables in
  modify (fun w => set_state w (mkSyncState (RunID st) (StartTime st) (LastUpdated st) tables)) ;;;
  (* auto save *)
  _ <- saveStateUnlocked ;;
  ret tt.

(** ** Universal syncer (syncer.go) *)

Record UniversalSyncer : Type := mkSyncer {
  tableName : string;
  tableConfig : TableConfig;
  tableSchema : TableSchema;
  config : Config;
  deduplicator : Deduplicator;
  colTypeMap : gmap string string   (* column name to type *)
}.

(** [DetectTableSchema] (schema.go): the columns of the table as the
    database lists them; the table's engine and keys are left out. *)
Definition DetectTableSchema (db : DB) (tableName : string) : TableSchema + error :=
  match dbTable db tableName with
  | inr e => inr (ErrWrap "failed to query columns" e)
  | inl t =>
      if (length (tbl_columns t) =? 0)%nat
      then inr (ErrMsg "table not found or has no columns")
      else inl (mkTableSchema tableName (tbl_columns t))
  end.

Definition missingKeys (schema : TableSchema) (keys : list string) : list string :=
  List.filter (fun key => negb (HasColumn schema key)) keys.

(** [NewUniversalSyncer]: the schema is detected on the source database. *)
Definition NewUniversalSyncer (tableConfig : TableConfig) (config : Config)
  : M (UniversalSyncer + error) :=
  r <- gets (fun w => DetectTableSchema (sourceDB w) (tc_Name tableConfig)) ;;
  match r with
  | inr err => ret (inr (ErrWrap "failed to detect schema" err))
  | inl schema =>
      if negb (HasColumn schema (tc_TimeField tableConfig))
      then ret (inr (ErrMsg "time field not found in table"))
      else if (0 <? length (missingKeys schema (tc_DedupeKeys tableConfig)))%nat
      then ret (inr (ErrMsg "deduplication keys not found in table"))
      else
        let deduplicator :=
          NewDeduplicator (tc_DedupeKeys tableConfig) (tc_TimeField tableConfig) in
        let colTypeMap :=
          fold_left (fun m col => <[col_Name col := col_Type col]> m)
                    (ts_Columns schema) (∅ : gmap string string) in
        modify (fun w => set_skipCheckpoint w false) ;;;
        ret (inl (mkSyncer (tc_Name tableConfig) tableConfig schema config
                           deduplicator colTypeMap))
  end.

Section Syncer.
Context {L : GoLibs}.

(** *** FetchExistingKeys (deduplicator.go) *)

Definition FetchExistingKeys (d : Deduplicator) (db : DB) (tableName : string)
    (segment : TimeSegment) (schema : TableSchema) : gmap string bool + error :=
  if (0 <? length (missingKeys schema (dedupeKeys d)))%nat
  then inr (ErrMsg "deduplication keys not found in table")
  else
    match querySelectRange db tableName (dedupeKeys d) (timeField d) OpLt
                           (seg_Start segment) (seg_End segment) with
    | inr err => inr err
    | inl rows =>
        inl (fold_left (fun existingKeys values =>
                          <[buildKeyFromValues values := true]> existingKeys)
                       rows (∅ : gmap string bool))
    end.

(** [existingKeys[key]]: [false] for a key the map does not hold. *)
Definition keyExists (existingKeys : gmap string bool) (key : string) : bool :=
  default false (existingKeys !! key).

(** *** insertBatch *)

Definition minTime : Time := Date 1900 1 1 0 0 0 0 UTC.
Definition maxTime : Time := Date 2262 4 11 23 47 16 0 UTC.
Definition defaultTime : Time := Date 1970 1 1 0 0 0 0 UTC.

Definition typeContains (colTypeMap : gmap string string) (col tag : string) : bool :=
  match colTypeMap !! col with
  | Some typeStr => strings_Contains typeStr tag
  | None => false
  end.

(** The value handed to the driver for column [col]: the body of the inner
    loop of [insertBatch]. *)
Definition coerceValue (colTypeMap : gmap string string) (col : string) (val : Value)
  : Value :=
  let viaDateTime :=
    if typeContains colTypeMap col "DateTime" then
      match val with
      | VTime t =>
          if Before t minTime || After t maxTime || IsZero t
          then VTime defaultTime
          else val
      | _ => val
      end
    else val in
  if typeContains colTypeMap col "Decimal" then
    match val with
    | VString valStr =>
        match decimal_NewFromString valStr with
        | Some d => VDecimal d
        | None => viaDateTime
        end
    | VBytes valBytes =>
        match decimal_NewFromString (string_of_list_byte valBytes) with
        | Some d => VDecimal d
        | None => viaDateTime
        end
    | _ => viaDateTime
    end
  else viaDateTime.

Definition rowValues (s : UniversalSyncer) (columns : list string) (record : Row)
  : list Value :=
  map (fun col => coerceValue (colTypeMap s) col (recordGet record col)) columns.

(** The row a list of values makes in a table with these columns. *)
Definition rowOfValues (columns : list string) (values : list Value) : Row :=
  fold_left (fun record cv => <[fst cv := snd cv]> record)
            (combine columns values) (∅ : Row).

(** [insertBatch]: one transaction; the rows reach the table on commit,
    and an error before it rolls everything back. *)
Definition insertBatch (s : UniversalSyncer) (batch : list Row) (columns : list string)
  : M (Z * option error) :=
  if (length batch =? 0)%nat then ret (0, None)
  else
    db <- gets targetDB ;;
    match dbTable db (tableName s) with
    | inr err => ret (0, Some (ErrWrap "failed to begin transaction" err))
    | inl _ =>
        let rows := map (rowValues s columns) batch in
        if forallb (db_accepts db) rows
        then
          modify (fun w => set_targetDB w
                    (dbAppendRows db (tableName s) (map (rowOfValues columns) rows))) ;;;
          ret (Z.of_nat (length batch), None)
        else ret (0, Some (ErrWrap "failed to insert row" (ErrMsg "rejected by the driver")))
    end.

(** *** syncSegment *)

(** [scanRow]: [record[col] = values[i]]. *)
Definition scanRow (values : list Value) (columns : list string) : Row :=
  rowOfValues columns values.

Record SegmentLoop : Type := mkLoop {
  totalInserted : Z;
  totalScanned : Z;
  totalSkipped : Z;
  batch : list Row;
  batchCount : Z
}.

(** The [for rows.Next()] loop of [syncSegment]. *)
Fixpoint syncRows (s : UniversalSyncer) (existingKeys : gmap string bool)
    (batchSize : Z) (columns : list string)
    (rows : list (list Value)) (st : SegmentLoop) {struct rows}
  : M (SegmentLoop * option error) :=
  match rows with
  | [] => ret (st, None)
  | values :: rows =>
      let totalScanned := int_add (totalScanned st) 1 in
      let record := scanRow values columns in
      (* dedup *)
      let key := BuildKey (deduplicator s) record in
      if keyExists existingKeys key then
        syncRows s existingKeys batchSize columns rows
                 (mkLoop (totalInserted st) totalScanned (int_add (totalSkipped st) 1)
                         (batch st) (batchCount st))
      else
        let batch := batch st ++ [record] in
        if batchSize <=? Z.of_nat (length batch) then
          let batchCount := int_add (batchCount st) 1 in
          r <- insertBatch s batch columns ;;
          match snd r with
          | Some err =>
              ret (mkLoop (totalInserted st) totalScanned (totalSkipped st) batch batchCount,
                   Some (ErrWrap "failed to insert batch" err))
          | None =>
              let totalInserted := int_add (totalInserted st) (fst r) in
              log_Printf (tableName s)
                (LogBatch batchCount (fst r) totalScanned totalInserted (totalSkipped st)) ;;;
              syncRows s existingKeys batchSize columns rows
                       (mkLoop totalInserted totalScanned (totalSkipped st) [] batchCount)
          end
        else
          syncRows s existingKeys batchSize columns rows
                   (mkLoop (totalInserted st) totalScanned (totalSkipped st)
                           batch (batchCount st))
  end.

(** [syncSegment]. *)
Definition syncSegment (s : UniversalSyncer) (segment : TimeSegment)
  : M (Z * option error) :=
  let timeField := tc_TimeField (tableConfig s) in
  let batchSize := GetEffectiveBatchSize (tableConfig s) (sc_BatchSize (cfg_Sync (config s))) in
  log_Printf (tableName s) (LogSegmentBegin segment) ;;;
  (* 1. the dedup keys the target already has *)
  r <- gets (fun w => FetchExistingKeys (deduplicator s) (targetDB w) (tableName s)
                                        segment (tableSchema s)) ;;
  match r with
  | inr err => ret (0, Some (ErrWrap "failed to fetch existing keys" err))
  | inl existingKeys =>
      log_Printf (tableName s) (LogExistingKeys (size existingKeys)) ;;;
      (* 2. the query, over all columns *)
      let columns := GetColumnNames (tableSchema s) in
      (* 3. the source rows *)
      log_Printf (tableName s) LogQuerySource ;;;
      q <- gets (fun w => querySelectRangeOrdered (sourceDB w) (tableName s) columns
                            timeField OpLt (seg_Start segment) (seg_End segment)) ;;
      match q with
      | inr err => ret (0, Some (ErrWrap "failed to query source" err))
      | inl rows =>
          (* 4. read, dedup, insert *)
          if batchSize <? 0
          (* [make] panics on a negative capacity: the program returns
             nothing, and this value marks the case *)
          then ret (0, Some (ErrMsg "panic: makeslice: cap out of range"))
          else
            r <- syncRows s existingKeys batchSize columns rows (mkLoop 0 0 0 [] 0) ;;
            let st := fst r in
            match snd r with
            | Some err => ret (totalInserted st, Some err)
            | None =>
                (* 5. the rest *)
                if (0 <? length (batch st))%nat then
                  let batchCount := int_add (batchCount st) 1 in
                  i <- insertBatch s (batch st) columns ;;
                  match snd i with
                  | Some err =>
                      ret (totalInserted st, Some (ErrWrap "failed to insert final batch" err))
                  | None =>
                      let totalInserted := int_add (totalInserted st) (fst i) in
                      log_Printf (tableName s)
                        (LogBatch batchCount (fst i) (totalScanned st) totalInserted
                                  (totalSkipped st)) ;;;
                      log_Printf (tableName s)
                        (LogSegmentSummary (totalScanned st) totalInserted (totalSkipped st)) ;;;
                      ret (totalInserted, None)
                  end
                else
                  log_Printf (tableName s)
                    (LogSegmentSummary (totalScanned st) (totalInserted st) (totalSkipped st)) ;;;
                  ret (totalInserted st, None)
            end
      end
  end.

(** *** segmentTimeRange *)

(** The midnight that ends the local day of [current]: the last
    nanosecond of the day, plus one. *)
Definition nextDayStart (current : Time) : Time :=
  let dayEnd := Date (Year current) (Month current) (Day current)
                     23 59 59 999999999 (Location current) in
  Add dayEnd (1 * Nanosecond).

(** The [for current.Before(timeRange.End)] loop; [fuel] bounds the number
    of iterations. *)
Fixpoint segmentLoop (fuel : nat) (current endTime : Time) (segments : list TimeSegment)
  : list TimeSegment :=
  match fuel with
  | O => segments
  | S fuel =>
      if Before current endTime then
        let dayEnd := nextDayStart current in
        let dayEnd := if After dayEnd endTime then endTime else dayEnd in
        segmentLoop fuel dayEnd endTime (segments ++ [mkSegment current dayEnd])
      else segments
  end.

(** The least and the greatest offset of a location. *)
Definition minOffset (l : Loc) : Z := fold_left Z.min (map snd (loc_tx l)) (loc_first l).
Definition maxOffset (l : Loc) : Z := fold_left Z.max (map snd (loc_tx l)) (loc_first l).

(** An iteration that advances ends in a local day in which no earlier
    one has ended, so a loop whose iterations all advance runs at most
    once per local day of the range, and twice more.  An iteration that
    does not advance starts the next one where it started itself: the
    loop of the program then never ends, and the one here stops when the
    fuel is used up. *)
Definition segmentFuel (timeRange : TimeRange) : nat :=
  let l := Location (tr_Start timeRange) in
  Z.to_nat ((unixNano (tr_End timeRange) - unixNano (tr_Start timeRange)
             + (maxOffset l - minOffset l) * Second) / nsPerDay) + 2.

(** [segmentTimeRange]. *)
Definition segmentTimeRange (s : UniversalSyncer) (timeRange : TimeRange)
  : list TimeSegment :=
  if negb (sc_DailySegmentation (cfg_Sync (config s)))
  then [mkSegment (tr_Start timeRange) (tr_End timeRange)]
  else segmentLoop (segmentFuel timeRange) (tr_Start timeRange) (tr_End timeRange) [].

(** *** determineTimeRange *)

Definition minValidTime : Time := Date 1900 1 1 0 0 0 0 UTC.

(** [nt.Valid && nt.Time.After(minValidTime) && nt.Time.Before(upper)]. *)
Definition timeValid (nt : NullTime) (upper : Time) : bool :=
  nt_Valid nt && After (nt_Time nt) minValidTime && Before (nt_Time nt) upper.

(** The end of the range. *)
Definition determineEndTime (s : UniversalSyncer) : M (Time + error) :=
  let timeField := tc_TimeField (tableConfig s) in
  if negb (String.eqb (trc_End (cfg_TimeRange (config s))) "") then
    match time_Parse_RFC3339 (trc_End (cfg_TimeRange (config s))) with
    | None => ret (inr (ErrWrap "invalid end time" (ErrMsg "parsing time")))
    | Some endTime =>
        log_Printf (tableName s) (LogConfiguredEnd endTime) ;;;
        ret (inl endTime)
    end
  else
    (* the newest time of the source is the end *)
    r <- gets (fun w => queryMax (sourceDB w) (tableName s) timeField) ;;
    match r with
    | inr err => ret (inr (ErrWrap "failed to query source max time" err))
    | inl maxTimeSource =>
        now <- time_Now ;;
        let maxFutureTime := Add now (24 * Hour) in
        if timeValid maxTimeSource maxFutureTime then
          let endTime := Add (nt_Time maxTimeSource) (1 * Second) in
          log_Printf (tableName s) (LogSourceMaxEnd (nt_Time maxTimeSource)) ;;;
          ret (inl endTime)
        else
          log_Printf (tableName s) LogNoValidSource ;;;
          ret (inr ErrSourceTableEmpty)
    end.

(** The start of the range, once the end is known. *)
Definition determineStartTime (s : UniversalSyncer) (endTime : Time) : M (Time + error) :=
  let timeField := tc_TimeField (tableConfig s) in
  if trc_AutoDetect (cfg_TimeRange (config s)) then
    log_Printf (tableName s) (LogQueryTargetMax timeField) ;;;
    r <- gets (fun w => queryMax (targetDB w) (tableName s) timeField) ;;
    match r with
    | inr err =>
        log_Printf (tableName s) (LogQueryMaxFailed err) ;;;
        ret (inr (ErrWrap "failed to query max time" err))
    | inl maxTime =>
        let isValidTime := timeValid maxTime (Add endTime (24 * Hour)) in
        if isValidTime then
          let startTime := Add (nt_Time maxTime) (1 * Millisecond) in
          log_Printf (tableName s) (LogTargetMax (nt_Time maxTime)) ;;;
          ret (inl startTime)
        else
          (* the target is empty: does the source have data? *)
          log_Printf (tableName s) LogTargetEmpty ;;;
          q <- gets (fun w => queryMinMax (sourceDB w) (tableName s) timeField) ;;
          match q with
          | inr err =>
              log_Printf (tableName s) (LogQuerySourceRangeFailed err) ;;;
              ret (inr (ErrWrap "failed to query source time range" err))
          | inl (minTimeSource, maxTimeSource) =>
              if negb (nt_Valid minTimeSource) || negb (nt_Valid maxTimeSource) then
                log_Printf (tableName s) LogSourceNoData ;;;
                ret (inr ErrSourceTableEmpty)
              else
                now <- time_Now ;;
                let fallbackTime :=
                  AddDate now 0 0 (- trc_FallbackDays (cfg_TimeRange (config s))) in
                if After (nt_Time minTimeSource) fallbackTime then
                  let startTime := nt_Time minTimeSource in
                  log_Printf (tableName s) (LogSourceMinStart (nt_Time minTimeSource)) ;;;
                  ret (inl startTime)
                else
                  let startTime := fallbackTime in
                  log_Printf (tableName s)
                    (LogFallbackStart (trc_FallbackDays (cfg_TimeRange (config s))) startTime) ;;;
                  ret (inl startTime)
          end
    end
  else if negb (String.eqb (trc_Start (cfg_TimeRange (config s))) "") then
    match time_Parse_RFC3339 (trc_Start (cfg_TimeRange (config s))) with
    | None => ret (inr (ErrWrap "invalid start time" (ErrMsg "parsing time")))
    | Some startTime =>
        log_Printf (tableName s) (LogConfiguredStart startTime) ;;;
        ret (inl startTime)
    end
  else
    now <- time_Now ;;
    let startTime := AddDate now 0 0 (-30) in
    log_Printf (tableName s) (LogDefaultStart startTime) ;;;
    ret (inl startTime).

(** [determineTimeRange]: the end first, then the start. *)
Definition determineTimeRange (s : UniversalSyncer) : M (TimeRange + error) :=
  log_Printf (tableName s) LogRangeBegin ;;;
  e <- determineEndTime s ;;
  match e with
  | inr err => ret (inr err)
  | inl endTime =>
      b <- determineStartTime s endTime ;;
      match b with
      | inr err => ret (inr err)
      | inl startTime =>
          log_Printf (tableName s) LogRangeDone ;;;
          ret (inl (mkRange startTime endTime))
      end
  end.

(** *** incrementalSync *)

(** The loop over the segments; [i] counts from 0 and [n] is their number. *)
Fixpoint syncSegments (s : UniversalSyncer) (segments : list TimeSegment)
    (i n : nat) (totalRecords : Z) {struct segments} : M (option error) :=
  match segments with
  | [] =>
      log_Printf (tableName s) (LogIncrementalDone totalRecords) ;;;
      ret None
  | segment :: segments =>
      skip <- gets skipCheckpoint ;;
      completed <- (if negb skip then IsSegmentCompleted (tableName s) segment
                    else ret false) ;;
      if negb skip && completed then
        log_Printf (tableName s) (LogSegmentSkipped (i + 1) n) ;;;
        syncSegments s segments (i + 1) n totalRecords
      else
        r <- syncSegment s segment ;;
        match snd r with
        | Some err => ret (Some (ErrWrap "failed to sync segment" err))
        | None =>
            let recordCount := fst r in
            let totalRecords := int_add totalRecords recordCount in
            skip <- gets skipCheckpoint ;;
            (if negb skip
             then MarkSegmentCompleted (tableName s) segment recordCount
             else ret tt) ;;;
            log_Printf (tableName s) (LogSegmentDone (i + 1) n recordCount) ;;;
            syncSegments s segments (i + 1) n totalRecords
        end
  end.

(** [incrementalSync]. *)
Definition incrementalSync (s : UniversalSyncer) : M (option error) :=
  (* 1. the range *)
  r <- determineTimeRange s ;;
  match r with
  | inr err => ret (Some err)
  | inl timeRange =>
      if negb (Before (tr_Start timeRange) (tr_End timeRange)) then
        log_Printf (tableName s) LogUpToDate ;;;
        ret None
      else
        log_Printf (tableName s) (LogSyncRange (tr_Start timeRange) (tr_End timeRange)) ;;;
        (* 2. by day *)
        let segments := segmentTimeRange s timeRange in
        log_Printf (tableName s) (LogSegmentCount (length segments)) ;;;
        (* 3. segment by segment *)
        syncSegments s segments 0 (length segments) 0
  end.

(** *** realtimeIncrementalSync *)

Definition backwardWindow : Z := 5 * Minute.

(** The window of the realtime sync, from the two probes and [now];
    [None] where the function returns before it has one.  The second
    component says whether the switch of databases is logged. *)
Definition realtimeWindow (maxTimeTarget maxTimeSource : NullTime) (now : Time)
  : option (Time * Time * bool) :=
  let maxFutureTime := Add now (24 * Hour) in
  let targetTimeValid := timeValid maxTimeTarget maxFutureTime in
  let sourceTimeValid := timeValid maxTimeSource maxFutureTime in
  if negb targetTimeValid then
    if negb sourceTimeValid then None
    else Some (Add now (- backwardWindow), nt_Time maxTimeSource, false)
  else if negb sourceTimeValid then None
  else
    let startTime := Add (nt_Time maxTimeTarget) (- backwardWindow) in
    let endTime := Add (nt_Time maxTimeSource) (1 * Second) in
    if Before (nt_Time maxTimeSource) (nt_Time maxTimeTarget)
    then Some (startTime, endTime, true)
    else Some (Add (nt_Time maxTimeTarget) (-5 * Second), endTime, false).

(** The end of [realtimeIncrementalSync]: the sync of the window as one
    segment. *)
Definition realtimeSyncRecords (s : UniversalSyncer) (startTime endTime : Time)
  : M (option error) :=
  let segment := mkSegment startTime endTime in
  r <- syncSegment s segment ;;
  match snd r with
  | Some err => ret (Some (ErrWrap "failed to sync new records" err))
  | None =>
      (if 0 <? fst r
       then log_Printf (tableName s) (LogRealtimeDone (fst r))
       else ret tt) ;;;
      ret None
  end.

(** The second half of [realtimeIncrementalSync], from the count of the
    new rows on: what it does once it has the window. *)
Definition realtimeSyncWindow (s : UniversalSyncer) (startTime endTime : Time)
  : M (option error) :=
  let timeField := tc_TimeField (tableConfig s) in
  (* does the source have new rows? *)
  c <- gets (fun w => queryCountRange (sourceDB w) (tableName s) timeField
                        OpLe startTime endTime) ;;
  match c with
  | inr err => ret (Some (ErrWrap "failed to count new records" err))
  | inl newRecordCount =>
      if newRecordCount =? 0 then ret None
      else
        log_Printf (tableName s) (LogNewRecords newRecordCount startTime endTime) ;;;
        realtimeSyncRecords s startTime endTime
  end.

(** [realtimeIncrementalSync]. *)
Definition realtimeIncrementalSync (s : UniversalSyncer) : M (option error) :=
  let timeField := tc_TimeField (tableConfig s) in
  (* 1. the newest time of the target *)
  rt <- gets (fun w => queryMax (targetDB w) (tableName s) timeField) ;;
  match rt with
  | inr err => ret (Some (ErrWrap "failed to query target max time" err))
  | inl maxTimeTarget =>
      (* 2. the newest time of the source *)
      rs <- gets (fun w => queryMax (sourceDB w) (tableName s) timeField) ;;
      match rs with
      | inr err => ret (Some (ErrWrap "failed to query source max time" err))
      | inl maxTimeSource =>
          now <- time_Now ;;
          (* 3. the window *)
          match realtimeWindow maxTimeTarget maxTimeSource now with
          | None => ret None
          | Some (startTime, endTime, switched) =>
              (if switched then
                 log_Printf (tableName s)
                   (LogFailoverDetected (nt_Time maxTimeSource) (nt_Time maxTimeTarget)) ;;;
                 log_Printf (tableName s) (LogBacktrack backwardWindow)
               else ret tt) ;;;
              realtimeSyncWindow s startTime endTime
          end
      end
  end.

(** *** SyncWithRealtimeMode *)

(** What the probes decide. *)
Inductive Strategy : Type :=
| SkipSourceEmpty          (* return ErrSourceTableEmpty *)
| CatchupThenRealtime      (* needCatchup = true *)
| RealtimeOnly.            (* needCatchup = false *)

Definition chooseStrategy (maxTimeTarget maxTimeSource : NullTime) (now : Time)
    (realtimeThreshold : Z) : Strategy :=
  let maxFutureTime := Add now (24 * Hour) in
  let targetTimeValid := timeValid maxTimeTarget maxFutureTime in
  let sourceTimeValid := timeValid maxTimeSource maxFutureTime in
  if negb targetTimeValid then
    if negb sourceTimeValid then SkipSourceEmpty else CatchupThenRealtime
  else if sourceTimeValid then
    let lag := Sub (nt_Time maxTimeSource) (nt_Time maxTimeTarget) in
    if realtimeThreshold <? lag then CatchupThenRealtime else RealtimeOnly
  else RealtimeOnly.

(** The realtime mode of [SyncWithRealtimeMode]: no checkpoints. *)
Definition runRealtime (s : UniversalSyncer) : M (option error) :=
  log_Printf (tableName s) LogEnterRealtime ;;;
  modify (fun w => set_skipCheckpoint w true) ;;;
  realtimeIncrementalSync s.

(** The catch-up of [SyncWithRealtimeMode], with checkpoints, and the
    realtime mode after it. *)
Definition runCatchupThenRealtime (s : UniversalSyncer) : M (option error) :=
  modify (fun w => set_skipCheckpoint w false) ;;;
  err <- incrementalSync s ;;
  match err with
  | Some err =>
      if errors_Is_SourceTableEmpty err then ret (Some err)
      else ret (Some (ErrWrap "failed to catch up historical data" err))
  | None =>
      log_Printf (tableName s) LogCaughtUp ;;;
      runRealtime s
  end.

(** [SyncWithRealtimeMode]. *)
Definition SyncWithRealtimeMode (s : UniversalSyncer) (realtimeThreshold : Z)
  : M (option error) :=
  (* 1. the newest times of the target and of the source *)
  let timeField := tc_TimeField (tableConfig s) in
  rt <- gets (fun w => queryMax (targetDB w) (tableName s) timeField) ;;
  match rt with
  | inr err => ret (Some (ErrWrap "failed to query target max time" err))
  | inl maxTimeTarget =>
      rs <- gets (fun w => queryMax (sourceDB w) (tableName s) timeField) ;;
      match rs with
      | inr err => ret (Some (ErrWrap "failed to query source max time" err))
      | inl maxTimeSource =>
          now <- time_Now ;;
          (* 2. is a catch-up needed? *)
          match chooseStrategy maxTimeTarget maxTimeSource now realtimeThreshold with
          | SkipSourceEmpty =>
              log_Printf (tableName s) LogSkipNoSourceData ;;;
              ret (Some ErrSourceTableEmpty)
          | CatchupThenRealtime =>
              (if negb (timeValid maxTimeTarget (Add now (24 * Hour)))
               then log_Printf (tableName s) LogInitialSync
               else log_Printf (tableName s)
                      (LogLagCatchup (Sub (nt_Time maxTimeSource) (nt_Time maxTimeTarget))
                                     (nt_Time maxTimeSource) (nt_Time maxTimeTarget))) ;;;
              runCatchupThenRealtime s
          | RealtimeOnly =>
              (* 3. the realtime mode *)
              runRealtime s
          end
      end
  end.

End Syncer.

(** ** A small installation, for the examples *)

Module Demo.

(** Decimal strings of digits only, and the two time strings of the
    examples: enough of the two libraries for the inputs used below. *)
Definition allDigits (s : string) : bool :=
  forallb (fun c => (48 <=? nat_of_ascii c)%nat && (nat_of_ascii c <=? 57)%nat)
          (list_ascii_of_string s).

Definition digitsValue (s : string) : Z :=
  fold_left (fun acc c => acc * 10 + (Z.of_nat (nat_of_ascii c) - 48))
            (list_ascii_of_string s) 0.

Definition libs : GoLibs := {|
  decimal_NewFromString s :=
    if allDigits s && negb (String.eqb s "") then Some (mkDecimal (digitsValue s) 0)
    else None;
  decimal_String d := Sprintf_d (dec_value d);
  time_Parse_RFC3339 s :=
    if String.eqb s "2024-01-01T00:00:00Z" then Some (Date 2024 1 1 0 0 0 0 UTC)
    else if String.eqb s "2024-01-03T00:00:00Z" then Some (Date 2024 1 3 0 0 0 0 UTC)
    else None
|}.

Definition columns : list ColumnInfo :=
  [mkColumnInfo "id" "UInt64" "" false;
   mkColumnInfo "ts" "DateTime64(3)" "" false;
   mkColumnInfo "amount" "Decimal(18, 2)" "" false].

Definition row (id : N) (ts : Time) (amount : string) : Row :=
  <["id" := VUint id]> (<["ts" := VTime ts]> (<["amount" := VString amount]> ∅)).

Definition db (rows : list Row) : DB :=
  mkDB true (<["events" := mkTable columns rows]> ∅) (fun _ => true).

Definition tableCfg : TableConfig :=
  mkTableConfig "events" "" "ts" ["id"] 0 true.

Definition cfg (daily autoDetect : bool) : Config :=
  mkConfig (mkSyncConfig "incremental" 2 daily) (mkTimeRangeConfig "" "" autoDetect 30).

Definition syncer (daily : bool) : UniversalSyncer :=
  mkSyncer "events" tableCfg (mkTableSchema "events" columns) (cfg daily true)
           (NewDeduplicator ["id"] "ts")
           (<["amount" := "Decimal(18, 2)"]>
              (<["ts" := "DateTime64(3)"]> (<["id" := "UInt64"]> ∅))).

Definition emptyState : SyncState :=
  mkSyncState "sync_20240102_120000" (Date 2024 1 2 12 0 0 0 UTC) (Date 2024 1 2 12 0 0 0 UTC) ∅.

Definition disk (ok : bool) : FileSystem := mkFS ∅ (fun _ => ok) (fun _ _ => ok).

(** The clock starts at [now] and advances by a millisecond per reading. *)
Definition world (source target : list Row) (now : Time) (diskOk : bool) : World :=
  mkWorld (db source) (db target)
          (fun k => Add now (Z.of_nat k * Millisecond)) 0
          (disk diskOk) (mkStateManager "/tmp/clickhouse_sync_state.json" emptyState)
          false [].

(** Ten rows, every four hours from 2024-01-01 00:00 on. *)
Definition tenRows : list Row :=
  map (fun k => row (N.of_nat k) (Date 2024 1 1 (4 * Z.of_nat k) 0 0 0 UTC) "12")
      (seq 0 10).

End Demo.

(** A table whose column [d] is a [Date32] in the source and a
    [DateTime64(3)] in the target. *)
Module DemoTypes.

Definition sourceColumns : list ColumnInfo :=
  [mkColumnInfo "id" "UInt64" "" false; mkColumnInfo "d" "Date32" "" false].

Definition targetColumns : list ColumnInfo :=
  [mkColumnInfo "id" "UInt64" "" false; mkColumnInfo "d" "DateTime64(3)" "" false].

Definition day2270 : Time := Date 2270 1 1 0 0 0 0 UTC.

Definition record : Row := <["id" := VUint 1]> (<["d" := VTime day2270]> ∅).

Definition tableCfg : TableConfig := mkTableConfig "events" "" "d" ["id"] 0 true.

Definition world : World :=
  mkWorld (mkDB true (<["events" := mkTable sourceColumns [record]]> ∅) (fun _ => true))
          (mkDB true (<["events" := mkTable targetColumns []]> ∅) (fun _ => true))
          (fun k => Add (Date 2024 1 2 13 0 0 0 UTC) (Z.of_nat k * Millisecond)) 0
          (Demo.disk true)
          (mkStateManager "/tmp/clickhouse_sync_state.json" Demo.emptyState)
          false [].

End DemoTypes.

(** The zones of America/Santiago from September 2022 to September 2023:
    summer time from 2022-09-11, and on 2023-04-02 at 00:00 the clocks go
    back to 23:00 of April 1. *)
Module DemoZone.

Definition santiago : Loc :=
  mkLoc (-14400) [(1662868800, -10800); (1680404400, -14400); (1693713600, -10800)].


End DemoZone.

(** ** Predicates of the statements *)

(** Reading a string of decimal digits back: the number it denotes, or
    [None] when a byte is not a digit. *)
Definition digitOf (c : ascii) : option Z :=
  let n := nat_of_ascii c in
  if (48 <=? n)%nat && (n <=? 57)%nat then Some (Z.of_nat n - 48) else None.

Fixpoint decimalValue (acc : Z) (s : string) : option Z :=
  match s with
  | EmptyString => Some acc
  | String c r =>
      match digitOf c with
      | Some d => decimalValue (acc * 10 + d) r
      | None => None
      end
  end.

(** A signed decimal: an optional minus sign, then digits. *)
Definition signedValue (s : string) : option Z :=
  match s with
  | EmptyString => None
  | String c r =>
      if Ascii.eqb c "-" then
        match r with
        | EmptyString => None
        | _ => option_map Z.opp (decimalValue 0 r)
        end
      else decimalValue 0 s
  end.

(** Padding: a zero in front of further digits. *)
Definition zeroPadded (digits : string) : bool :=
  match digits with
  | String c (String _ _) => Ascii.eqb c "0"
  | _ => false
  end.

(** Unpadded signed decimal: no zero in front, also after the sign. *)
Definition unpadded (s : string) : bool :=
  match s with
  | String c r => if Ascii.eqb c "-" then negb (zeroPadded r) else negb (zeroPadded s)
  | EmptyString => false
  end.

(** The location keeps the offset [o] over the Unix seconds from [lo] to
    [hi]. *)
Definition keepsOffset (l : Loc) (o lo hi : Z) : Prop :=
  forall sec, lo <= sec <= hi -> offsetAt l sec = o.

(** No change of clocks near the range from [a] to [b]: the location of
    [a] keeps the offset it has at [a] from the second of [a] to one day
    after the second of [b], and also over the length of the offset before
    the former when the offset is negative, and after the latter when it
    is positive. *)
Definition steadyOver (a b : Time) : Prop :=
  keepsOffset (Location a) (offset a)
              (unixSec a + Z.min 0 (offset a))
              (unixSec b + secondsPerDay + Z.max 0 (offset a)).


(** The two ranges of the WHERE clauses, on the instants. *)
Definition inHalfOpen (col : string) (lo hi : Time) (row : Row) : Prop :=
  exists tm, timeOf row col = Some tm /\ unixNano lo <= unixNano tm < unixNano hi.

Definition inClosed (col : string) (lo hi : Time) (row : Row) : Prop :=
  exists tm, timeOf row col = Some tm /\ unixNano lo <= unixNano tm <= unixNano hi.

Section SyncPredicates.
Context {L : GoLibs}.

(** The scanned source records that [syncSegment] does not skip: those
    whose dedup key is not among the existing keys. *)
Definition newRecords (s : UniversalSyncer) (existingKeys : gmap string bool)
    (columns : list string) (rows : list (list Value)) : list Row :=
  List.filter (fun record => negb (keyExists existingKeys (BuildKey (deduplicator s) record)))
              (map (fun values => scanRow values columns) rows).

(** The rows that records make in the target once inserted. *)
Definition insertedRows (s : UniversalSyncer) (columns : list string)
    (records : list Row) : list Row :=
  map (fun record => rowOfValues columns (rowValues s columns record)) records.

End SyncPredicates.

(** The range of Go's [int]. *)
Definition in_int (z : Z) : Prop := - 2 ^ 63 <= z < 2 ^ 63.


(** A defined probe, as the code has it: not null, after 1900-01-01 and
    before [now] plus 24 hours, both ends excluded. *)
Definition definedAt (now : Time) (nt : NullTime) : Prop :=
  nt_Valid nt = true
  /\ unixNano minValidTime < unixNano (nt_Time nt) < unixNano now + 24 * Hour.

(** A defined probe in the words of the specification: not null, and from
    1900-01-01 to [now] plus 24 hours, both ends included. *)
Definition specDefined (now : Time) (nt : NullTime) : bool :=
  nt_Valid nt
  && (unixNano minValidTime <=? unixNano (nt_Time nt))
  && (unixNano (nt_Time nt) <=? unixNano now + 24 * Hour).

(** The decision table of the specification. *)
Definition specStrategy (maxTimeTarget maxTimeSource : NullTime) (now : Time)
    (realtimeThreshold : Z) : Strategy :=
  match specDefined now maxTimeTarget, specDefined now maxTimeSource with
  | false, false => SkipSourceEmpty
  | false, true => CatchupThenRealtime
  | true, false => RealtimeOnly
  | true, true =>
      if realtimeThreshold
         <? unixNano (nt_Time maxTimeSource) - unixNano (nt_Time maxTimeTarget)
      then CatchupThenRealtime else RealtimeOnly
  end.

(** A valid newest time of the target, as [determineTimeRange] has it:
    not null, after 1900-01-01 and before [upper], both ends excluded.
    There [upper] is the end of the range plus 24 hours. *)
Definition validBefore (upper : Time) (nt : NullTime) : Prop :=
  nt_Valid nt = true
  /\ unixNano minValidTime < unixNano (nt_Time nt) < unixNano upper.

(** ** The rest of the state manager (state.go) *)

(** [t.Format("20060102_150405")]. *)
Definition Format_20060102_150405 (t : Time) : string :=
  appendInt (Year t) 4 +:+ appendInt (Month t) 2 +:+ appendInt (Day t) 2 +:+ "_"
    +:+ appendInt (HourOf t) 2 +:+ appendInt (MinuteOf t) 2 +:+ appendInt (SecondOf t) 2.

(** The state of a new run: the clock is read for the name of the run,
    and again for its start. *)
Definition newSyncState : M SyncState :=
  now <- time_Now ;;
  start <- time_Now ;;
  ret (mkSyncState ("sync_" +:+ Format_20060102_150405 now) start zeroTime ∅).

(** [MarkTableCompleted]. *)
Definition MarkTableCompleted (tableName : string) : M unit :=
  st <- gets (fun w => state (stateMgr w)) ;;
  let tables :=
    match Tables st !! tableName with
    | Some _ => Tables st
    | None => <[tableName := mkTableState "" zeroTime 0 []]> (Tables st)
    end in
  let tables :=
    alter (fun tableState =>
             mkTableState "completed" (LastSyncedTime tableState)
                          (RecordsSynced tableState) (CompletedSegments tableState))
          tableName tables in
  modify (fun w => set_state w (mkSyncState (RunID st) (StartTime st) (LastUpdated st) tables)) ;;;
  _ <- saveStateUnlocked ;;
  ret tt.

(** [MarkTableInProgress]. *)
Definition MarkTableInProgress (tableName : string) : M unit :=
  st <- gets (fun w => state (stateMgr w)) ;;
  let tables :=
    match Tables st !! tableName with
    | Some _ => Tables st
    | None => <[tableName := mkTableState "" zeroTime 0 []]> (Tables st)
    end in
  let tables :=
    alter (fun tableState =>
             mkTableState "in_progress" (LastSyncedTime tableState)
                          (RecordsSynced tableState) (CompletedSegments tableState))
          tableName tables in
  modify (fun w => set_state w (mkSyncState (RunID st) (StartTime st) (LastUpdated st) tables)) ;;;
  _ <- saveStateUnlocked ;;
  ret tt.

(** [GetTableState]: [None] is the nil pointer of a table the map does
    not hold. *)
Definition GetTableState (tableName : string) : M (option TableState) :=
  gets (fun w => Tables (state (stateMgr w)) !! tableName).

(** [GetTotalRecordsSynced]: the sum over the map, in [int] arithmetic.
    Go ranges over a map in no fixed order; the fold takes the order of
    the keys. *)
Definition GetTotalRecordsSynced : M Z :=
  gets (fun w => map_fold (fun _ tableState total => int_add total (RecordsSynced tableState))
                          0 (Tables (state (stateMgr w)))).

(** *** The mutex of the state manager *)

(** [sync.Mutex] is not reentrant.  [Locking] follows [SaveState] and
    [ClearState] with the mutex [sm.mu] in the state: [mu] tells whether
    it is held.  One goroutine uses the state manager, so a [Lock] of a
    held mutex waits for ever. *)
Module Locking.

Inductive Outcome (A : Type) : Type :=
| Returns (a : A) (mu : bool) (w : World)
| Blocked (w : World)                       (* waiting in [Lock] *)
| Fatal (msg : string).                     (* a fatal error of the runtime *)
Arguments Returns {A} a mu w.
Arguments Blocked {A} w.
Arguments Fatal {A} msg.

Definition LM (A : Type) : Type := bool -> World -> Outcome A.

Definition lret {A : Type} (a : A) : LM A := fun mu w => Returns a mu w.

Definition lbind {A B : Type} (m : LM A) (k : A -> LM B) : LM B :=
  fun mu w =>
    match m mu w with
    | Returns a mu' w' => k a mu' w'
    | Blocked w' => Blocked w'
    | Fatal msg => Fatal msg
    end.

Definition lift {A : Type} (m : M A) : LM A :=
  fun mu w => let (a, w') := m w in Returns a mu w'.

(** [sm.mu.Lock()] and [sm.mu.Unlock()]. *)
Definition Lock : LM unit :=
  fun mu w => if mu then Blocked w else Returns tt true w.

Definition Unlock : LM unit :=
  fun mu w => if mu then Returns tt false w
              else Fatal "sync: unlock of unlocked mutex".

(** [SaveState]: the deferred [Unlock] runs when the function returns. *)
Definition SaveState : LM (option error) :=
  lbind Lock (fun _ =>
  lbind (lift saveStateUnlocked) (fun err =>
  lbind Unlock (fun _ =>
  lret err))).

(** [ClearState]: it calls [SaveState], not [saveStateUnlocked]. *)
Definition ClearState : LM (option error) :=
  lbind Lock (fun _ =>
  lbind (lift newSyncState) (fun st =>
  lbind (lift (modify (fun w => set_state w st))) (fun _ =>
  lbind SaveState (fun err =>
  lbind Unlock (fun _ =>
  lret err))))).

End Locking.

(** ** The whole configuration (config.go) *)

Record DatabaseConfig : Type := mkDatabaseConfig {
  dbc_Addr : list string;
  dbc_Database : string;
  dbc_Username : string;
  dbc_Password : string
}.

(** [Config] with the fields that no syncer reads: the two databases and
    the tables, beside the part of it that [UniversalSyncer] holds. *)
Record ConfigFile : Type := mkConfigFile {
  cfg_Source : DatabaseConfig;
  cfg_Target : DatabaseConfig;
  cfg_Tables : list TableConfig;
  cfg_Rest : Config
}.

(** The loop of [Validate] over the tables, from index [i] on.  The index
    of a slice stays an [int]; the count is incremented in [int]
    arithmetic. *)
Fixpoint validateTables (globalMode : string) (i : Z) (tables : list TableConfig)
    (enabledCount : Z) {struct tables} : Z + error :=
  match tables with
  | [] => inl enabledCount
  | table :: tables =>
      if negb (tc_Enabled table) then validateTables globalMode (i + 1) tables enabledCount
      else
        let enabledCount := int_add enabledCount 1 in
        if String.eqb (tc_Name table) "" then
          inr (ErrMsg ("table[" +:+ Sprintf_d i +:+ "]: name is required"))
        else if String.eqb (tc_TimeField table) "" then
          inr (ErrMsg ("table[" +:+ Sprintf_d i +:+ "] (" +:+ tc_Name table
                         +:+ "): time_field is required"))
        else if (length (tc_DedupeKeys table) =? 0)%nat then
          inr (ErrMsg ("table[" +:+ Sprintf_d i +:+ "] (" +:+ tc_Name table
                         +:+ "): dedupe_keys is required"))
        else
          (* the mode of the table *)
          let mode := GetEffectiveMode table globalMode in
          if negb (String.eqb mode "full") && negb (String.eqb mode "incremental") then
            inr (ErrMsg ("table[" +:+ Sprintf_d i +:+ "] (" +:+ tc_Name table
                           +:+ "): invalid mode: " +:+ mode))
          else validateTables globalMode (i + 1) tables enabledCount
  end.

(** [Validate]. *)
Definition Validate (c : ConfigFile) : option error :=
  let mode := sc_Mode (cfg_Sync (cfg_Rest c)) in
  (* the databases *)
  if (length (dbc_Addr (cfg_Source c)) =? 0)%nat then
    Some (ErrMsg "source database address is required")
  else if String.eqb (dbc_Database (cfg_Source c)) "" then
    Some (ErrMsg "source database name is required")
  else if (length (dbc_Addr (cfg_Target c)) =? 0)%nat then
    Some (ErrMsg "target database address is required")
  else if String.eqb (dbc_Database (cfg_Target c)) "" then
    Some (ErrMsg "target database name is required")
  (* the mode *)
  else if negb (String.eqb mode "full") && negb (String.eqb mode "incremental") then
    Some (ErrMsg ("sync mode must be 'full' or 'incremental', got: " +:+ mode))
  (* the tables *)
  else if (length (cfg_Tables c) =? 0)%nat then
    Some (ErrMsg "no tables configured for sync")
  else
    match validateTables mode 0 (cfg_Tables c) 0 with
    | inr err => Some err
    | inl enabledCount =>
        if enabledCount =? 0 then Some (ErrMsg "no enabled tables found")
        else None
    end.

(** ** Helpers (utils.go) *)

(** [CountEnabledTables]. *)
Definition CountEnabledTables (tables : list TableConfig) : Z :=
  fold_left (fun count table => if tc_Enabled table then int_add count 1 else count)
            tables 0.

(** [strings.TrimSpace] is the library's. *)
Class GoStrings : Type := {
  strings_TrimSpace : string -> string
}.

(** [FilterTables]: the names asked for are trimmed, those of the tables
    are taken as they are. *)
Definition FilterTables `{GoStrings} (tables : list TableConfig)
    (selectedNames : list string) : list TableConfig :=
  if (length selectedNames =? 0)%nat then tables
  else
    (* the set of the names *)
    let nameSet :=
      fold_left (fun nameSet name => <[strings_TrimSpace name := true]> nameSet)
                selectedNames (∅ : gmap string bool) in
    (* the tables in it *)
    fold_left (fun filtered table =>
                 if default false (nameSet !! tc_Name table)
                 then filtered ++ [table] else filtered)
              tables [].

(** Whether [time.Parse(time.RFC3339, s)] returns an error. *)
Definition parseFails `{GoLibs} (s : string) : bool :=
  match time_Parse_RFC3339 s with
  | Some _ => false
  | None => true
  end.

(** [ValidateTimeRange]: the two times are parsed again for the
    comparison, and the errors of that second parse are dropped. *)
Definition ValidateTimeRange `{GoLibs} (config : TimeRangeConfig) : option error :=
  if negb (String.eqb (trc_Start config) "")
     && parseFails (trc_Start config)
  then Some (ErrWrap "invalid start time format (expected RFC3339)" (ErrMsg "parsing time"))
  else if negb (String.eqb (trc_End config) "")
          && parseFails (trc_End config)
  then Some (ErrWrap "invalid end time format (expected RFC3339)" (ErrMsg "parsing time"))
  else if negb (String.eqb (trc_Start config) "") && negb (String.eqb (trc_End config) "")
  then
    let start := default zeroTime (time_Parse_RFC3339 (trc_Start config)) in
    let end_ := default zeroTime (time_Parse_RFC3339 (trc_End config)) in
    if After start end_ then Some (ErrMsg "start time must be before end time")
    else None
  else None.

(** The loop of [FormatNumber] over the bytes of [str], from index [i]
    on: a comma before every byte but the first that has a multiple of
    three bytes from it to the end. *)
Fixpoint formatNumberLoop (len i : Z) (str : string) : string :=
  match str with
  | EmptyString => EmptyString
  | String c rest =>
      (if (0 <? i) && (Z.rem (len - i) 3 =? 0) then "," else "")
        +:+ String c (formatNumberLoop len (i + 1) rest)
  end.

(** [FormatNumber]. *)
Definition FormatNumber (n : Z) : string :=
  let str := Sprintf_d n in
  if Z.of_nat (String.length str) <=? 3 then str
  else formatNumberLoop (Z.of_nat (String.length str)) 0 str.

(** A configuration file for the examples: the table of the small
    installation, and a second table that is switched off and has no
    name. *)
Module DemoConfig.

Definition file : ConfigFile :=
  mkConfigFile (mkDatabaseConfig ["10.0.0.1:9000"] "prod" "default" "")
               (mkDatabaseConfig ["10.0.0.2:9000"] "replica" "default" "")
               [Demo.tableCfg; mkTableConfig "" "" "" [] 0 false]
               (Demo.cfg true true).

(** ASCII white space at both ends removed: [strings.TrimSpace] on the
    strings without other white space. *)
Definition asciiSpace (c : ascii) : bool :=
  let n := nat_of_ascii c in
  ((9 <=? n)%nat && (n <=? 13)%nat) || (n =? 32)%nat.

Fixpoint trimLeft (s : string) : string :=
  match s with
  | String c r => if asciiSpace c then trimLeft r else s
  | EmptyString => EmptyString
  end.

Fixpoint trimRight (s : string) : string :=
  match s with
  | String c r =>
      match trimRight r with
      | EmptyString => if asciiSpace c then EmptyString else String c EmptyString
      | r' => String c r'
      end
  | EmptyString => EmptyString
  end.

Definition strings : GoStrings := {| strings_TrimSpace s := trimRight (trimLeft s) |}.

End DemoConfig.

(** ** The rest of the table schema (schema.go) *)

(** [GetColumn]: the first column of that name; [None] is the nil
    pointer. *)
Definition GetColumn (ts : TableSchema) (columnName : string) : option ColumnInfo :=
  List.find (fun col => String.eqb (col_Name col) columnName) (ts_Columns ts).

(** ** Schema sync (schema_sync.go) *)

Record SchemaSyncConfig : Type := mkSchemaSyncConfig {
  ssc_Enabled : bool;
  ssc_CreateIfNotExists : bool;
  ssc_SyncNewColumns : bool;
  ssc_SkipColumnCheck : bool
}.

(** The lines [syncColumns] logs about a table. *)
Inductive SchemaLog : Type :=
| LogSkipColumnSync
| LogSchemaSame
| LogNewColumns (n : nat) (names : list string)
| LogColumnAdded (name type : string).

(** [getColumnNames]. *)
Definition getColumnNames (columns : list ColumnInfo) : list string :=
  map col_Name columns.

(** [findNewColumns]: the columns of the source whose name the target
    does not have. *)
Definition findNewColumns (sourceSchema targetSchema : TableSchema) : list ColumnInfo :=
  let targetCols :=
    fold_left (fun targetCols col => <[col_Name col := true]> targetCols)
              (ts_Columns targetSchema) (∅ : gmap string bool) in
  fold_left (fun newColumns col =>
               if negb (default false (targetCols !! col_Name col))
               then newColumns ++ [col] else newColumns)
            (ts_Columns sourceSchema) [].

(** [ALTER TABLE t ADD COLUMN IF NOT EXISTS name type [DEFAULT expr]] on a
    database: the table gets the column at the end of its columns, unless
    it has a column of that name; its rows stay.  The column is listed
    afterwards with the type and the default of the statement. *)
Definition dbAddColumn (db : DB) (table name type defaultValue : string) : DB + error :=
  match dbTable db table with
  | inr err => inr err
  | inl t =>
      if existsb (fun col => String.eqb (col_Name col) name) (tbl_columns t)
      then inl db
      else
        let col := mkColumnInfo name type defaultValue (strings_Contains type "Nullable") in
        inl (mkDB (db_up db)
                  (<[table := mkTable (tbl_columns t ++ [col]) (tbl_rows t)]> (db_tables db))
                  (db_accepts db))
  end.

(** [addColumn]: the default is part of the statement when the column
    has one. *)
Definition addColumn (targetDB : DB) (tableName : string) (col : ColumnInfo) : DB + error :=
  dbAddColumn targetDB tableName (col_Name col) (col_Type col)
              (if negb (String.eqb (col_DefaultValue col) "") then col_DefaultValue col
               else "").

(** The loop of [syncColumns] over the new columns. *)
Fixpoint addColumns (targetDB : DB) (tableName : string) (newColumns : list ColumnInfo)
    (logs : list SchemaLog) {struct newColumns} : option error * DB * list SchemaLog :=
  match newColumns with
  | [] => (None, targetDB, logs)
  | col :: newColumns =>
      match addColumn targetDB tableName col with
      | inr err => (Some (ErrWrap ("failed to add column " +:+ col_Name col) err),
                    targetDB, logs)
      | inl targetDB =>
          addColumns targetDB tableName newColumns
                     (logs ++ [LogColumnAdded (col_Name col) (col_Type col)])
      end
  end.

(** [syncColumns]: the error, the target database and the lines logged. *)
Definition syncColumns (config : SchemaSyncConfig) (targetDB : DB) (tableName : string)
    (sourceSchema : TableSchema) : option error * DB * list SchemaLog :=
  if negb (ssc_SyncNewColumns config) then (None, targetDB, [LogSkipColumnSync])
  else
    (* 1. the schema of the target *)
    match DetectTableSchema targetDB tableName with
    | inr err => (Some (ErrWrap "failed to detect target schema" err), targetDB, [])
    | inl targetSchema =>
        (* 2. the difference *)
        let newColumns := findNewColumns sourceSchema targetSchema in
        if (length newColumns =? 0)%nat then (None, targetDB, [LogSchemaSame])
        else
          (* 3. the new columns *)
          addColumns targetDB tableName newColumns
                     [LogNewColumns (length newColumns) (getColumnNames newColumns)]
    end.

(** What a computation keeps when it changes the target database and the
    log only. *)
Definition keepsCheckpoints (w w' : World) : Prop :=
  sourceDB w' = sourceDB w /\ stateMgr w' = stateMgr w /\ fs w' = fs w
  /\ skipCheckpoint w' = skipCheckpoint w /\ ticks w' = ticks w /\ clock w' = clock w.

(** A syncer of the small installation with a range that is configured,
    from 2024-01-01 to 2024-01-03. *)
Module DemoRange.

Definition cfg : Config :=
  mkConfig (mkSyncConfig "incremental" 2 true)
           (mkTimeRangeConfig "2024-01-01T00:00:00Z" "2024-01-03T00:00:00Z" false 30).

Definition syncer : UniversalSyncer :=
  mkSyncer "events" Demo.tableCfg (mkTableSchema "events" Demo.columns) cfg
           (NewDeduplicator ["id"] "ts")
           (<["amount" := "Decimal(18, 2)"]>
              (<["ts" := "DateTime64(3)"]> (<["id" := "UInt64"]> ∅))).

(** The world after a first run, and a row of the first day that
    reaches the source after it. *)
Definition afterFirstRun : World :=
  snd (@incrementalSync Demo.libs syncer
         (Demo.world Demo.tenRows [] (Date 2024 1 3 1 0 0 0 UTC) true)).

Definition lateRow : Row := Demo.row 99 (Date 2024 1 1 5 0 0 0 UTC) "7".

Definition withLateRow : World :=
  mkWorld (Demo.db (Demo.tenRows ++ [lateRow])) (targetDB afterFirstRun)
          (clock afterFirstRun) (ticks afterFirstRun) (fs afterFirstRun)
          (stateMgr afterFirstRun) false (logs afterFirstRun).

End DemoRange.

(** A string without the separator of the dedup key. *)
Fixpoint barFree (s : string) : bool :=
  match s with
  | EmptyString => true
  | String c r => negb (Ascii.eqb c "|") && barFree r
  end.

(** ** Full sync (syncer.go) *)

(** [SELECT cols FROM table]: the values of [cols] of every row.  The
    query has no ORDER BY; the rows come in the order of the table. *)
Definition querySelectAll (db : DB) (table : string) (cols : list string)
  : list (list Value) + error :=
  match dbTable db table with
  | inl t => inl (map (fun row => map (recordGet row) cols) (tbl_rows t))
  | inr e => inr e
  end.

(** The lines [fullSync] logs. *)
Inductive FullSyncLog : Type :=
| LogFullBegin
| LogFullSynced (totalInserted : Z)
| LogFullDone (totalInserted : Z).

Record FullLoop : Type := mkFullLoop {
  full_totalInserted : Z;
  full_batch : list Row;
  full_lines : list FullSyncLog
}.

Section FullSync.
Context {L : GoLibs}.

(** The [for rows.Next()] loop of [fullSync]: no key is looked up. *)
Fixpoint fullRows (s : UniversalSyncer) (batchSize : Z) (columns : list string)
    (rows : list (list Value)) (st : FullLoop) {struct rows}
  : M (FullLoop * option error) :=
  match rows with
  | [] => ret (st, None)
  | values :: rows =>
      let record := scanRow values columns in
      let batch := full_batch st ++ [record] in
      if batchSize <=? Z.of_nat (length batch) then
        r <- insertBatch s batch columns ;;
        match snd r with
        | Some err =>
            ret (mkFullLoop (full_totalInserted st) batch (full_lines st),
                 Some (ErrWrap "failed to insert batch" err))
        | None =>
            let totalInserted := int_add (full_totalInserted st) (fst r) in
            fullRows s batchSize columns rows
                     (mkFullLoop totalInserted []
                                 (full_lines st ++ [LogFullSynced totalInserted]))
        end
      else
        fullRows s batchSize columns rows
                 (mkFullLoop (full_totalInserted st) batch (full_lines st))
  end.

(** [fullSync]: the error, and the lines logged. *)
Definition fullSync (s : UniversalSyncer) : M (option error * list FullSyncLog) :=
  let batchSize := GetEffectiveBatchSize (tableConfig s) (sc_BatchSize (cfg_Sync (config s))) in
  let columns := GetColumnNames (tableSchema s) in
  q <- gets (fun w => querySelectAll (sourceDB w) (tableName s) columns) ;;
  match q with
  | inr err => ret (Some (ErrWrap "failed to query source" err), [LogFullBegin])
  | inl rows =>
      if batchSize <? 0
      (* [make] panics on a negative capacity: the program returns
         nothing, and this value marks the case *)
      then ret (Some (ErrMsg "panic: makeslice: cap out of range"), [LogFullBegin])
      else
        r <- fullRows s batchSize columns rows (mkFullLoop 0 [] [LogFullBegin]) ;;
        let st := fst r in
        match snd r with
        | Some err => ret (Some err, full_lines st)
        | None =>
            if (0 <? length (full_batch st))%nat then
              i <- insertBatch s (full_batch st) columns ;;
              match snd i with
              | Some err =>
                  ret (Some (ErrWrap "failed to insert final batch" err), full_lines st)
              | None =>
                  let totalInserted := int_add (full_totalInserted st) (fst i) in
                  ret (None, full_lines st ++ [LogFullDone totalInserted])
              end
            else ret (None, full_lines st ++ [LogFullDone (full_totalInserted st)])
        end
  end.

(** [Sync]: the full sync for the mode [full], the incremental one for
    any other mode. *)
Definition Sync (s : UniversalSyncer) : M (option error * list FullSyncLog) :=
  let mode := GetEffectiveMode (tableConfig s) (sc_Mode (cfg_Sync (config s))) in
  if String.eqb mode "full" then fullSync s
  else
    err <- incrementalSync s ;;
    ret (err, []).

End FullSync.

(** What [Validate] asks of an enabled table, and of a configuration. *)
Definition tableValid (globalMode : string) (table : TableConfig) : Prop :=
  tc_Name table <> "" /\ tc_TimeField table <> "" /\ tc_DedupeKeys table <> []
  /\ (GetEffectiveMode table globalMode = "full"
      \/ GetEffectiveMode table globalMode = "incremental").

Definition validConfig (c : ConfigFile) : Prop :=
  let mode := sc_Mode (cfg_Sync (cfg_Rest c)) in
  dbc_Addr (cfg_Source c) <> [] /\ dbc_Database (cfg_Source c) <> ""
  /\ dbc_Addr (cfg_Target c) <> [] /\ dbc_Database (cfg_Target c) <> ""
  /\ (mode = "full" \/ mode = "incremental")
  /\ (exists table, table ∈ cfg_Tables c /\ tc_Enabled table = true)
  /\ (forall table, table ∈ cfg_Tables c -> tc_Enabled table = true -> tableValid mode table).

(** ** Theorems *)

(** Projections of a world out of the setters. *)
Ltac wsimpl :=
  cbn [fst snd sourceDB targetDB clock ticks fs stateMgr skipCheckpoint logs
       set_targetDB set_ticks set_fs set_state set_skipCheckpoint set_logs
       stateFile state fs_files fs_writable fs_renamable].

Tactic Notation "wsimpl" "in" hyp(H) :=
  cbn [fst snd sourceDB targetDB clock ticks fs stateMgr skipCheckpoint logs
       set_targetDB set_ticks set_fs set_state set_skipCheckpoint set_logs
       stateFile state fs_files fs_writable fs_renamable] in H.


Module CalendarFacts.

Lemma check_upto_spec (n : positive) :
  fst (check_upto n) = Z.pos n /\
  (snd (check_upto n) = true ->
   forall i, 0 <= i < Z.pos n -> doe_ok i = true).
Proof.
  unfold check_upto. induction n as [|n [IHf IHs]] using Pos.peano_ind.
  - split; [reflexivity|]. cbn [Pos.iter check_step fst snd].
    intros H i Hi. assert (i = 0) as -> by lia. exact H.
  - rewrite Pos.iter_succ, Pos2Z.inj_succ.
    destruct (Pos.iter check_step (0, true) n) as [c ok].
    unfold check_step. simpl fst in *. simpl snd in *. subst c. split; [lia|].
    intros H i Hi.
    apply andb_prop in H as [H1 H2].
    destruct (Z.eq_dec i (Z.pos n)) as [->|Hne]; [exact H2|].
    apply IHs; [exact H1 | lia].
Qed.

Lemma doe_ok_all (doe : Z) : 0 <= doe < 146097 -> doe_ok doe = true.
Proof.
  intros Hd.
  assert (Hc : snd (check_upto 146097) = true) by (vm_compute; reflexivity).
  exact (proj2 (check_upto_spec 146097) Hc doe Hd).
Qed.


Lemma civil_of_doe_inv (doe yoe m d : Z) :
  0 <= doe < 146097 -> civil_of_doe doe = (yoe, m, d) ->
  0 <= yoe < 400 /\ 1 <= m <= 12 /\ 1 <= d <= 31 /\ doe_of_civil yoe m d = doe.
Proof.
  intros Hd Hc. pose proof (doe_ok_all doe Hd) as Hok.
  unfold doe_ok in Hok. rewrite Hc in Hok.
  repeat (apply andb_prop in Hok as [Hok ?]).
  repeat split; lia.
Qed.

(** A day number is the day number of its civil date. *)
Lemma days_from_civil_from_days (z y m d : Z) :
  civil_from_days z = (y, m, d) ->
  days_from_civil y m d = z /\ 1 <= m <= 12 /\ 1 <= d <= 31.
Proof.
  unfold civil_from_days, days_from_civil, daysPer400Years, daysToShiftedEpoch.
  intros H.
  assert (Hr : 0 <= (z + 719468) mod 146097 < 146097) by (apply Z.mod_pos_bound; lia).
  destruct (civil_of_doe ((z + 719468) mod 146097)) as [[yoe m'] d'] eqn:E.
  injection H as <- <- <-.
  destruct (civil_of_doe_inv _ _ _ _ Hr E) as (Hy & Hm & Hd & Hdoe).
  replace (yoe + (z + 719468) / 146097 * 400 + (if m' <=? 2 then 1 else 0)
           - (if m' <=? 2 then 1 else 0))
    with (yoe + (z + 719468) / 146097 * 400) by lia.
  rewrite Z.div_add by lia. rewrite Z.mod_add by lia.
  rewrite (Z.div_small yoe 400) by lia. rewrite (Z.mod_small yoe 400) by lia.
  rewrite Hdoe. split; [|split; assumption].
  pose proof (Z.div_mod (z + 719468) 146097 ltac:(lia)). lia.
Qed.

Lemma days_from_civil_day (y m d k : Z) :
  days_from_civil y m (d + k) = days_from_civil y m d + k.
Proof. unfold days_from_civil, doe_of_civil. lia. Qed.

Lemma nsPerDay_pos : 0 < nsPerDay.
Proof. reflexivity. Qed.

(** A location without transitions has one offset. *)
Lemma offsetAt_fixed (l : Loc) (sec : Z) : loc_tx l = [] -> offsetAt l sec = loc_first l.
Proof. unfold offsetAt, lookup. intros ->. reflexivity. Qed.

Lemma keepsOffset_fixed (l : Loc) (lo hi : Z) :
  loc_tx l = [] -> keepsOffset l (loc_first l) lo hi.
Proof. intros H sec _. now apply offsetAt_fixed. Qed.

Lemma keepsOffset_within (l : Loc) (o lo hi lo' hi' : Z) :
  keepsOffset l o lo hi -> lo <= lo' -> hi' <= hi -> keepsOffset l o lo' hi'.
Proof. intros H Hlo Hhi sec Hs. apply H. lia. Qed.

(** Where the location keeps one offset, the wall clock is that offset
    ahead. *)
Lemma wallToUnix_steady (l : Loc) (unix o : Z) :
  offsetAt l unix = o -> offsetAt l (unix - o) = o -> wallToUnix l unix = unix - o.
Proof.
  unfold wallToUnix, offsetAt. destruct (lookup l unix) as [[o1 s1] e1]. cbn [fst].
  intros -> H2. destruct (o =? 0) eqn:E; [lia|]. cbn zeta.
  destruct ((unix - o <? s1) || (e1 <=? unix - o)); [rewrite H2|]; reflexivity.
Qed.

(** The local day of an instant, in seconds. *)
Lemma localDays_unixSec (t : Time) :
  localDays t * secondsPerDay <= unixSec t + offset t < (localDays t + 1) * secondsPerDay.
Proof.
  unfold localDays, localNano, unixSec, nsPerDay, secondsPerDay.
  change Second with 1000000000. generalize (unixNano t) (offset t). intros u o.
  change (86400 * 1000000000) with 86400000000000.
  Z.div_mod_to_equations. lia.
Qed.

Lemma unixSec_le (t u : Time) : unixNano t <= unixNano u -> unixSec t <= unixSec u.
Proof. intros H. unfold unixSec. apply Z.div_le_mono; [reflexivity | exact H]. Qed.

Lemma nextDayStart_loc (t : Time) : loc (nextDayStart t) = loc t.
Proof. reflexivity. Qed.

(** [nextDayStart] is the first instant of the next local day, where the
    location keeps its offset around the instant. *)
Lemma nextDayStart_eq (t : Time) (lo hi : Z) :
  keepsOffset (loc t) (offset t) lo hi ->
  lo <= unixSec t + Z.min 0 (offset t) ->
  unixSec t + secondsPerDay + Z.max 0 (offset t) <= hi ->
  nextDayStart t = mkTime ((localDays t + 1) * nsPerDay - offset t * Second) (loc t).
Proof.
  intros Hk Hlo Hhi. pose proof (localDays_unixSec t) as Hd.
  unfold nextDayStart, Date, Year, Month, Day, Location, Add, norm.
  destruct (civil_from_days (localDays t)) as [[y m] d] eqn:E.
  destruct (days_from_civil_from_days _ _ _ _ E) as (Hz & Hm & _).
  cbn [fst snd unixNano loc].
  replace ((m - 1) / 12) with 0 by (symmetry; apply Z.div_small; lia).
  rewrite (Z.mod_small (m - 1) 12) by lia.
  change (999999999 / Second) with 0. change (999999999 mod Second) with 999999999.
  change ((59 + 0) / 60) with 0. change ((59 + 0) mod 60) with 59.
  change ((59 + 0) / 60) with 0. change ((59 + 0) mod 60) with 59.
  change ((23 + 0) / 24) with 0. change ((23 + 0) mod 24) with 23.
  replace (y + 0) with y by lia. replace (m - 1 + 1) with m by lia.
  replace (days_from_civil y m 1 + (d + 0 - 1)) with (days_from_civil y m (1 + (d - 1)))
    by (rewrite days_from_civil_day; lia).
  replace (1 + (d - 1)) with d by lia. rewrite Hz.
  change (23 * 3600 + 59 * 60 + 59) with 86399.
  unfold secondsPerDay in *.
  rewrite (wallToUnix_steady (loc t) _ (offset t)) by (apply Hk; lia).
  f_equal. unfold nsPerDay, secondsPerDay, Nanosecond, Second, Millisecond, Microsecond, Nanosecond.
  lia.
Qed.

Section Steady.
Variables (t : Time) (lo hi : Z).
Hypothesis Hk : keepsOffset (loc t) (offset t) lo hi.
Hypothesis Hlo : lo <= unixSec t + Z.min 0 (offset t).
Hypothesis Hhi : unixSec t + secondsPerDay + Z.max 0 (offset t) <= hi.

Lemma nextDayStart_after :
  unixNano t < unixNano (nextDayStart t) <= unixNano t + nsPerDay.
Proof.
  rewrite (nextDayStart_eq t lo hi Hk Hlo Hhi). cbn [unixNano]. unfold localDays, localNano.
  pose proof (Z.div_mod (unixNano t + offset t * Second) nsPerDay ltac:(discriminate)).
  pose proof (Z.mod_pos_bound (unixNano t + offset t * Second) nsPerDay nsPerDay_pos).
  lia.
Qed.

Lemma nextDayStart_unixSec :
  unixSec (nextDayStart t) = (localDays t + 1) * secondsPerDay - offset t.
Proof.
  rewrite (nextDayStart_eq t lo hi Hk Hlo Hhi). unfold unixSec. cbn [unixNano].
  unfold nsPerDay.
  replace ((localDays t + 1) * (secondsPerDay * Second) - offset t * Second)
    with (((localDays t + 1) * secondsPerDay - offset t) * Second) by lia.
  apply Z.div_mul. discriminate.
Qed.




End Steady.

End CalendarFacts.

Module ZoneFacts.
Import CalendarFacts.

(** Santiago keeps its winter offset around the first days of June
    2023. *)
Lemma steady_in_june :
  steadyOver (Date 2023 6 1 15 30 0 0 DemoZone.santiago)
             (Date 2023 6 3 9 0 0 0 DemoZone.santiago).
Proof.
  unfold steadyOver, keepsOffset.
  assert (Ho : offset (Date 2023 6 1 15 30 0 0 DemoZone.santiago) = -14400)
    by (vm_compute; reflexivity).
  assert (Ha : unixSec (Date 2023 6 1 15 30 0 0 DemoZone.santiago) = 1685647800)
    by (vm_compute; reflexivity).
  assert (Hb : unixSec (Date 2023 6 3 9 0 0 0 DemoZone.santiago) = 1685797200)
    by (vm_compute; reflexivity).
  rewrite Ho, Ha, Hb.
  change (Location (Date 2023 6 1 15 30 0 0 DemoZone.santiago)) with DemoZone.santiago.
  intros sec Hsec. unfold secondsPerDay in Hsec.
  unfold offsetAt, lookup, DemoZone.santiago. cbn [loc_tx loc_first lookupTx].
  repeat (match goal with |- context [?x <? ?y] => destruct (Z.ltb_spec x y); try lia end).
  reflexivity.
Qed.

(** Across the night in which the clocks of Santiago go back, a calendar
    day is 25 hours long: [AddDate] keeps the time of day. *)
Example AddDate_clocksBack :
  let t := Date 2023 4 2 12 0 0 0 DemoZone.santiago in
  AddDate t 0 0 (-1) = Date 2023 4 1 12 0 0 0 DemoZone.santiago
  /\ Sub t (AddDate t 0 0 (-1)) = 25 * Hour
  /\ Format_RFC3339Nano t = "2023-04-02T12:00:00-04:00"
  /\ Format_RFC3339Nano (AddDate t 0 0 (-1)) = "2023-04-01T12:00:00-03:00".
Proof. vm_compute. repeat split; reflexivity. Qed.

End ZoneFacts.

Module SegmentFacts.
Import CalendarFacts.


Lemma segmentLoop_done (fuel : nat) (cur e : Time) (acc : list TimeSegment) :
  Before cur e = false -> segmentLoop fuel cur e acc = acc.
Proof. intros H. destruct fuel; cbn [segmentLoop]; [|rewrite H]; reflexivity. Qed.


(** A time of the loop, in a location that keeps its offset over the
    range: the offset is kept around the time as well. *)
Lemma steady_step (l : Loc) (o lo hi : Z) (e cur : Time) :
  keepsOffset l o lo hi -> unixSec e + secondsPerDay + Z.max 0 o <= hi ->
  loc cur = l -> lo <= unixSec cur + Z.min 0 o -> Before cur e = true ->
  keepsOffset (loc cur) (offset cur) lo hi
  /\ lo <= unixSec cur + Z.min 0 (offset cur)
  /\ unixSec cur + secondsPerDay + Z.max 0 (offset cur) <= hi
  /\ offset cur = o.
Proof.
  intros Hk Hhi Hl Hlo Hb. unfold Before in Hb. unfold secondsPerDay in *.
  pose proof (unixSec_le cur e ltac:(lia)) as Hs.
  assert (Ho : offset cur = o) by (unfold offset; rewrite Hl; apply Hk; lia).
  rewrite Ho, Hl. repeat split; try assumption. lia.
Qed.















(** The plans of two ranges in Santiago: three days of June, and the day
    in September on which the clocks go forward at midnight, of which 23
    hours are left: the segment before it ends at 01:00 of that day. *)
Example segments_in_santiago :
  let plan a b :=
    map (fun sg => (Format_RFC3339Nano (seg_Start sg), Format_RFC3339Nano (seg_End sg)))
        (segmentTimeRange (Demo.syncer true) (mkRange a b)) in
  plan (Date 2023 6 1 15 30 0 0 DemoZone.santiago) (Date 2023 6 3 9 0 0 0 DemoZone.santiago)
  = [("2023-06-01T15:30:00-04:00", "2023-06-02T00:00:00-04:00");
     ("2023-06-02T00:00:00-04:00", "2023-06-03T00:00:00-04:00");
     ("2023-06-03T00:00:00-04:00", "2023-06-03T09:00:00-04:00")]
  /\ plan (Date 2023 9 2 0 0 0 0 DemoZone.santiago) (Date 2023 9 4 0 0 0 0 DemoZone.santiago)
     = [("2023-09-02T00:00:00-04:00", "2023-09-03T01:00:00-03:00");
        ("2023-09-03T01:00:00-03:00", "2023-09-04T00:00:00-03:00")].
Proof. vm_compute. split; reflexivity. Qed.

End SegmentFacts.

Module FmtFacts.

Lemma append_cons (c : ascii) (s1 s2 : string) :
  String c s1 +:+ s2 = String c (s1 +:+ s2).
Proof. reflexivity. Qed.

Lemma append_nil_l (s : string) : "" +:+ s = s.
Proof. reflexivity. Qed.

Lemma append_assoc (s1 s2 s3 : string) : (s1 +:+ s2) +:+ s3 = s1 +:+ (s2 +:+ s3).
Proof.
  induction s1 as [|c s1 IH]; [reflexivity|].
  rewrite !append_cons. now f_equal.
Qed.

Lemma append_nil_r (s : string) : s +:+ "" = s.
Proof.
  induction s as [|c s IH]; [reflexivity|].
  rewrite append_cons. now f_equal.
Qed.

Lemma length_append (s1 s2 : string) :
  String.length (s1 +:+ s2) = (String.length s1 + String.length s2)%nat.
Proof.
  induction s1 as [|c s1 IH]; [reflexivity|].
  rewrite append_cons. cbn [String.length]. now rewrite IH.
Qed.

Ltac digit_cases d :=
  let Hc := fresh "Hc" in
  assert (Hc : d = 0 \/ d = 1 \/ d = 2 \/ d = 3 \/ d = 4 \/ d = 5 \/ d = 6
               \/ d = 7 \/ d = 8 \/ d = 9) by lia;
  repeat (destruct Hc as [->|Hc]; [reflexivity|]); subst d; reflexivity.

Lemma digitOf_digitChar (d : Z) : 0 <= d < 10 -> digitOf (digitChar d) = Some d.
Proof. intros H. digit_cases d. Qed.

Lemma digitChar_zero (d : Z) : 0 <= d < 10 -> Ascii.eqb (digitChar d) "0" = (d =? 0).
Proof. intros H. digit_cases d. Qed.

Lemma digitChar_not_minus (d : Z) : 0 <= d < 10 -> Ascii.eqb (digitChar d) "-" = false.
Proof. intros H. digit_cases d. Qed.

Lemma formatBits_acc (fuel : nat) (u : Z) (buf : string) :
  formatBits fuel u buf = formatBits fuel u "" +:+ buf.
Proof.
  revert u buf. induction fuel as [|fuel IH]; intros u buf; cbn [formatBits].
  - reflexivity.
  - destruct (u <? 10); [reflexivity|].
    rewrite (IH _ (String _ buf)), (IH _ (String _ "")), append_assoc.
    reflexivity.
Qed.

(** One round of the digit loop. *)
Lemma formatBits_S (fuel : nat) (u : Z) :
  formatBits (S fuel) u ""
  = if u <? 10 then String (digitChar u) ""
    else formatBits fuel (u / 10) "" +:+ String (digitChar (u mod 10)) "".
Proof. cbn [formatBits]. destruct (u <? 10); [reflexivity | apply formatBits_acc]. Qed.

Lemma decimalValue_app (acc : Z) (s1 s2 : string) :
  decimalValue acc (s1 +:+ s2)
  = match decimalValue acc s1 with
    | Some v => decimalValue v s2
    | None => None
    end.
Proof.
  revert acc. induction s1 as [|c s1 IH]; intros acc.
  - reflexivity.
  - rewrite append_cons. cbn [decimalValue].
    destruct (digitOf c); [apply IH | reflexivity].
Qed.

(** With enough fuel, the digits read back as the number. *)
Lemma formatBits_value (fuel : nat) (u : Z) :
  0 <= u < 2 ^ Z.of_nat fuel ->
  decimalValue 0 (formatBits (S fuel) u "") = Some u.
Proof.
  revert u. induction fuel as [|fuel IH]; intros u Hu; rewrite formatBits_S.
  - assert (u = 0) as -> by (change (2 ^ Z.of_nat 0) with 1 in Hu; lia). reflexivity.
  - destruct (u <? 10) eqn:E.
    + cbn [decimalValue]. rewrite digitOf_digitChar by lia. f_equal; lia.
    + rewrite decimalValue_app, IH.
      * cbn [decimalValue].
        rewrite digitOf_digitChar by (apply Z.mod_pos_bound; lia).
        f_equal; pose proof (Z.div_mod u 10 ltac:(lia)); lia.
      * rewrite Nat2Z.inj_succ, Z.pow_succ_r in Hu by lia.
        split; [apply Z.div_pos; lia|].
        apply Z.div_lt_upper_bound; lia.
Qed.

(** The first digit is not a zero, unless it is the only one. *)
Lemma formatBits_head (fuel : nat) (u : Z) :
  0 <= u < 2 ^ Z.of_nat fuel ->
  exists c r, formatBits (S fuel) u "" = String c r
    /\ Ascii.eqb c "-" = false
    /\ (Ascii.eqb c "0" = true -> r = "" /\ u = 0).
Proof.
  revert u. induction fuel as [|fuel IH]; intros u Hu; rewrite formatBits_S.
  - assert (u = 0) as -> by (change (2 ^ Z.of_nat 0) with 1 in Hu; lia).
    exists "0"%char, "". repeat split; reflexivity.
  - destruct (u <? 10) eqn:E.
    + exists (digitChar u), "". split; [reflexivity|]. split.
      * apply digitChar_not_minus. lia.
      * rewrite digitChar_zero by lia. intros H. split; [reflexivity | lia].
    + assert (Hq : 0 <= u / 10 < 2 ^ Z.of_nat fuel).
      { rewrite Nat2Z.inj_succ, Z.pow_succ_r in Hu by lia.
        split; [apply Z.div_pos; lia|]. apply Z.div_lt_upper_bound; lia. }
      destruct (IH _ Hq) as (c & r & Heq & Hm & Hz). rewrite Heq.
      exists c, (r +:+ String (digitChar (u mod 10)) ""). split; [reflexivity|].
      split; [exact Hm|]. intros H0. destruct (Hz H0) as [_ Hu0].
      assert (10 <= u) by lia.
      pose proof (Z.div_mod u 10 ltac:(lia)).
      pose proof (Z.mod_pos_bound u 10 ltac:(lia)). lia.
Qed.

(** A number below [10 ^ k] has at most [k] digits. *)
Lemma formatBits_length (fuel : nat) (u : Z) (k : nat) :
  0 <= u < 10 ^ Z.of_nat (S k) ->
  (String.length (formatBits fuel u "") <= S k)%nat.
Proof.
  revert u k. induction fuel as [|fuel IH]; intros u k Hu.
  - cbn. lia.
  - rewrite formatBits_S. destruct (u <? 10) eqn:E; [cbn; lia|].
    rewrite length_append. cbn [String.length].
    destruct k as [|k].
    + change (10 ^ Z.of_nat 1) with 10 in Hu. lia.
    + assert (Hq : 0 <= u / 10 < 10 ^ Z.of_nat (S k)).
      { rewrite (Nat2Z.inj_succ (S k)), Z.pow_succ_r in Hu by lia.
        split; [apply Z.div_pos; lia|]. apply Z.div_lt_upper_bound; lia. }
      specialize (IH _ _ Hq). lia.
Qed.

Lemma log2_fuel (u : Z) : 0 <= u -> 0 <= u < 2 ^ Z.of_nat (Z.to_nat (Z.log2 u) + 1).
Proof.
  intros Hu. split; [exact Hu|].
  rewrite Nat2Z.inj_add, Z2Nat.id by apply Z.log2_nonneg.
  destruct (Z.eq_dec u 0) as [->|Hne]; [reflexivity|].
  change (Z.of_nat 1) with 1. rewrite Z.add_1_r.
  apply Z.log2_spec. lia.
Qed.

Lemma formatUint_eq (u : Z) :
  formatUint u = formatBits (S (Z.to_nat (Z.log2 u) + 1)) u "".
Proof. unfold formatUint. f_equal; lia. Qed.

Lemma formatUint_value (u : Z) : 0 <= u -> decimalValue 0 (formatUint u) = Some u.
Proof. intros Hu. rewrite formatUint_eq. apply formatBits_value, log2_fuel, Hu. Qed.

Lemma formatUint_head (u : Z) :
  0 <= u ->
  exists c r, formatUint u = String c r
    /\ Ascii.eqb c "-" = false
    /\ (Ascii.eqb c "0" = true -> r = "" /\ u = 0).
Proof. intros Hu. rewrite formatUint_eq. apply formatBits_head, log2_fuel, Hu. Qed.

Lemma formatUint_unpadded (u : Z) : 0 <= u -> zeroPadded (formatUint u) = false.
Proof.
  intros Hu. destruct (formatUint_head u Hu) as (c & r & -> & _ & Hz).
  unfold zeroPadded. destruct r as [|c' r]; [reflexivity|].
  destruct (Ascii.eqb c "0") eqn:E; [|reflexivity].
  destruct (Hz eq_refl) as [? _]. discriminate.
Qed.

(** [%d] prints the number: the digits read back as [z], and nothing pads
    them. *)
Lemma Sprintf_d_signedValue (z : Z) : signedValue (Sprintf_d z) = Some z.
Proof.
  unfold Sprintf_d. destruct (z <? 0) eqn:E.
  - cbn [signedValue]. change (Ascii.eqb "-" "-") with true. cbn match.
    destruct (formatUint_head (- z) ltac:(lia)) as (c & r & Heq & _ & _).
    rewrite Heq, <- Heq. rewrite formatUint_value by lia. cbn. f_equal; lia.
  - destruct (formatUint_head z ltac:(lia)) as (c & r & Heq & Hm & _).
    unfold signedValue. rewrite Heq, Hm, <- Heq. apply formatUint_value. lia.
Qed.

Lemma Sprintf_d_unpadded (z : Z) : unpadded (Sprintf_d z) = true.
Proof.
  unfold Sprintf_d. destruct (z <? 0) eqn:E.
  - cbn [unpadded]. change (Ascii.eqb "-" "-") with true. cbn match.
    now rewrite formatUint_unpadded by lia.
  - pose proof (formatUint_unpadded z ltac:(lia)) as Hp.
    destruct (formatUint_head z ltac:(lia)) as (c & r & Heq & Hm & _).
    unfold unpadded. rewrite Heq, Hm, <- Heq. now rewrite Hp.
Qed.

Lemma length_zeros (n : nat) : String.length (zeros n) = n.
Proof. induction n as [|n IH]; cbn; [reflexivity | now rewrite IH]. Qed.

Lemma decimalValue_zeros (n : nat) (s : string) :
  decimalValue 0 (zeros n +:+ s) = decimalValue 0 s.
Proof.
  induction n as [|n IH]; [reflexivity|].
  cbn [zeros]. rewrite append_cons. cbn [decimalValue]. exact IH.
Qed.

(** A field of [k] digits holds a number below [10 ^ k] in exactly [k]
    digits. *)
Lemma appendInt_field (x : Z) (k : nat) :
  0 <= x < 10 ^ Z.of_nat (S k) ->
  String.length (appendInt x (S k)) = S k
  /\ decimalValue 0 (appendInt x (S k)) = Some x.
Proof.
  intros Hx. unfold appendInt, Sprintf_d.
  assert (E : (x <? 0) = false) by lia. rewrite E.
  rewrite Z.abs_eq by lia. rewrite E. rewrite append_nil_l.
  pose proof (formatBits_length (Z.to_nat (Z.log2 x) + 2) x k Hx) as Hl.
  fold (formatUint x) in Hl. split.
  - rewrite length_append, length_zeros. lia.
  - rewrite decimalValue_zeros. apply formatUint_value. lia.
Qed.

Lemma trimZeros_pad (s : string) :
  trimZeros s +:+ zeros (String.length s - String.length (trimZeros s)) = s
  /\ (String.length (trimZeros s) <= String.length s)%nat.
Proof.
  induction s as [|c r [IH Hl]]; [split; reflexivity|].
  cbn [trimZeros]. destruct (trimZeros r) as [|c' r'] eqn:E.
  - rewrite append_nil_l in IH. cbn [String.length] in IH. rewrite Nat.sub_0_r in IH.
    destruct (Ascii.eqb c "0") eqn:Ec.
    + apply Ascii.eqb_eq in Ec. subst c. split; [|cbn; lia].
      rewrite append_nil_l. cbn [String.length]. rewrite Nat.sub_0_r.
      cbn [zeros]. now rewrite IH.
    + split; [|cbn; lia]. rewrite append_cons, append_nil_l. cbn [String.length].
      replace (S (String.length r) - 1)%nat with (String.length r) by lia.
      now rewrite IH.
  - split; [|cbn [String.length] in *; lia].
    rewrite append_cons. cbn [String.length] in *.
    replace (S (String.length r) - S (S (String.length r')))%nat
      with (String.length r - S (String.length r'))%nat by lia.
    now rewrite IH.
Qed.

(** The fraction of a second is printed to the nanosecond: filled up with
    zeros to nine digits, it reads as the nanoseconds. *)
Lemma appendNano_value (ns : Z) :
  0 <= ns < 10 ^ 9 ->
  (ns = 0 /\ appendNano ns = "")
  \/ (exists frac, appendNano ns = "." +:+ frac
        /\ decimalValue 0 (frac +:+ zeros (9 - String.length frac)) = Some ns).
Proof.
  intros Hns. unfold appendNano. destruct (ns =? 0) eqn:E.
  - left. split; [lia | reflexivity].
  - right. exists (trimZeros (appendInt ns 9)). split; [reflexivity|].
    destruct (appendInt_field ns 8 Hns) as [Hl Hv].
    destruct (trimZeros_pad (appendInt ns 9)) as [Hp _].
    rewrite Hl in Hp. rewrite Hp. exact Hv.
Qed.

Lemma NanosecondOf_range (t : Time) : 0 <= NanosecondOf t < 10 ^ 9.
Proof. unfold NanosecondOf. apply Z.mod_pos_bound. reflexivity. Qed.

(** [scaledMicro m e] is an integer nearest to [m * 2 ^ e * 10 ^ 6]. *)
Lemma scaledMicro_nearest (m : positive) (e : Z) :
  0 <= scaledMicro m e
  /\ (0 <= e -> scaledMicro m e = Z.pos m * 10 ^ 6 * 2 ^ e)
  /\ (e < 0 ->
      2 * Z.abs (scaledMicro m e * 2 ^ (- e) - Z.pos m * 10 ^ 6) <= 2 ^ (- e)).
Proof.
  unfold scaledMicro.
  assert (Hnum : 0 < Z.pos m * 10 ^ 6) by lia.
  destruct (0 <=? e) eqn:E.
  - assert (0 < 2 ^ e) by (apply Z.pow_pos_nonneg; lia).
    split; [nia|]. split; [reflexivity | lia].
  - assert (Hden : 0 < 2 ^ (- e)) by (apply Z.pow_pos_nonneg; lia).
    revert Hnum Hden. generalize (Z.pos m * 10 ^ 6) (2 ^ (- e)). intros num den Hnum Hden.
    pose proof (Z.div_mod num den ltac:(lia)) as Hdm.
    pose proof (Z.mod_pos_bound num den Hden) as Hmb.
    assert (Hq : 0 <= num / den) by (apply Z.div_pos; lia).
    revert Hdm Hmb Hq. generalize (num / den) (num mod den). intros q r Hdm Hmb Hq.
    destruct ((den <? 2 * r) || ((2 * r =? den) && Z.odd q)) eqn:Eup.
    + split; [lia|]. split; [lia|]. intros _.
      apply orb_prop in Eup as [Eup|Eup].
      * apply Z.ltb_lt in Eup. nia.
      * apply andb_prop in Eup as [Eup _]. apply Z.eqb_eq in Eup. nia.
    + split; [lia|]. split; [lia|]. intros _.
      apply orb_false_elim in Eup as [Eup _]. apply Z.ltb_ge in Eup. nia.
Qed.

(** A finite float prints with exactly six digits after the point. *)
Lemma Sprintf_f_finite (s : bool) (m : positive) (e : Z) :
  exists ip fp,
    Sprintf_f (S754_finite s m e) = (if s then "-" else "") +:+ ip +:+ "." +:+ fp
    /\ String.length fp = 6%nat
    /\ decimalValue 0 ip = Some (scaledMicro m e / 10 ^ 6)
    /\ decimalValue 0 fp = Some (scaledMicro m e mod 10 ^ 6).
Proof.
  destruct (scaledMicro_nearest m e) as [H0 _].
  exists (Sprintf_d (scaledMicro m e / 10 ^ 6)), (appendInt (scaledMicro m e mod 10 ^ 6) 6).
  assert (Hm : 0 <= scaledMicro m e mod 10 ^ 6 < 10 ^ Z.of_nat 6)
    by (apply Z.mod_pos_bound; reflexivity).
  destruct (appendInt_field _ 5 Hm) as [Hl Hv].
  split; [reflexivity|]. split; [exact Hl|]. split; [|exact Hv].
  assert (Hq : 0 <= scaledMicro m e / 10 ^ 6) by (apply Z.div_pos; lia).
  unfold Sprintf_d. replace (scaledMicro m e / 10 ^ 6 <? 0) with false by lia.
  apply formatUint_value. exact Hq.
Qed.

End FmtFacts.

Module DedupFacts.
Import FmtFacts.

Section WithLibs.
Context {L : GoLibs}.



(** C4 (the dedup key).  The key of a tuple of values is the renderings
    of the values, in order, joined by the one byte [|].  The rendering is
    [<NULL>] for nil; for a timestamp the RFC 3339 layout with the fraction
    of the second kept to the nanosecond; the bytes themselves for a string
    and for a byte string; for a signed or unsigned integer the decimal
    digits that read back as the number, with nothing padding them; [%f]
    for a float, which for a finite one ends in a point and exactly six
    digits; [true] or [false] for a boolean; and the string rendering of
    the value for a decimal and for any other type. *)
Theorem buildKeyFromValues_rendering (values : list Value) :
  buildKeyFromValues values = String.concat "|" (map formatValue values)
  /\ String.length "|" = 1%nat
  /\ formatValue VNil = "<NULL>"
  /\ (forall t,
        formatValue (VTime t) = Format_RFC3339Nano t
        /\ ((NanosecondOf t = 0 /\ appendNano (NanosecondOf t) = "")
            \/ exists frac,
                 appendNano (NanosecondOf t) = "." +:+ frac
                 /\ decimalValue 0 (frac +:+ zeros (9 - String.length frac))
                    = Some (NanosecondOf t)))
  /\ (forall s, formatValue (VString s) = s)
  /\ (forall b,
        formatValue (VBytes b) = string_of_list_byte b
        /\ list_byte_of_string (formatValue (VBytes b)) = b)
  /\ (forall z,
        signedValue (formatValue (VInt z)) = Some z
        /\ unpadded (formatValue (VInt z)) = true)
  /\ (forall n,
        signedValue (formatValue (VUint n)) = Some (Z.of_N n)
        /\ unpadded (formatValue (VUint n)) = true)
  /\ (forall f,
        formatValue (VFloat f) = Sprintf_f f
        /\ forall s m e, f = S754_finite s m e ->
             exists ip fp,
               formatValue (VFloat f) = (if s then "-" else "") +:+ ip +:+ "." +:+ fp
               /\ String.length fp = 6%nat
               /\ decimalValue 0 ip = Some (scaledMicro m e / 10 ^ 6)
               /\ decimalValue 0 fp = Some (scaledMicro m e mod 10 ^ 6))
  /\ (forall b, formatValue (VBool b) = if b then "true" else "false")
  /\ (forall d, formatValue (VDecimal d) = decimal_String d)
  /\ (forall repr, formatValue (VOther repr) = repr).
Proof.
  split; [reflexivity|]. split; [reflexivity|]. split; [reflexivity|].
  split. { intros t. split; [reflexivity|]. apply appendNano_value, NanosecondOf_range. }
  split; [reflexivity|].
  split. { intros b. split; [reflexivity|]. apply list_byte_of_string_of_list_byte. }
  split. { intros z. split; [apply Sprintf_d_signedValue | apply Sprintf_d_unpadded]. }
  split. { intros n. split; [apply Sprintf_d_signedValue | apply Sprintf_d_unpadded]. }
  split. { intros f. split; [reflexivity|]. intros s m e ->. apply Sprintf_f_finite. }
  split. { intros []; reflexivity. }
  split; reflexivity.
Qed.

End WithLibs.
End DedupFacts.

Module QueryFacts.

Lemma whereRange_OpLt (col : string) (lo hi : Time) (row : Row) :
  whereRange col OpLt lo hi row = true <-> inHalfOpen col lo hi row.
Proof.
  unfold whereRange, inHalfOpen, cmpTime, Before.
  destruct (timeOf row col) as [tm|].
  - split.
    + intros H. exists tm. split; [reflexivity|]. lia.
    + intros (tm' & [= <-] & H). lia.
  - split; [discriminate | intros (tm' & H & _); discriminate].
Qed.

Lemma whereRange_OpLe (col : string) (lo hi : Time) (row : Row) :
  whereRange col OpLe lo hi row = true <-> inClosed col lo hi row.
Proof.
  unfold whereRange, inClosed, cmpTime, Before, After.
  destruct (timeOf row col) as [tm|].
  - split.
    + intros H. exists tm. split; [reflexivity|]. lia.
    + intros (tm' & [= <-] & H). lia.
  - split; [discriminate | intros (tm' & H & _); discriminate].
Qed.

Lemma elem_of_filter_bool {A : Type} (f : A -> bool) (l : list A) (x : A) :
  x ∈ filter (fun a => f a) l <-> f x = true /\ x ∈ l.
Proof. rewrite list_elem_of_filter. now rewrite Is_true_true. Qed.

Lemma filter_bool_nil {A : Type} (f : A -> bool) (l : list A) :
  filter (fun a => f a) l = [] <-> forall x, x ∈ l -> f x = false.
Proof.
  split.
  - intros H x Hx. destruct (f x) eqn:E; [|reflexivity].
    assert (Hin : x ∈ filter (fun a => f a) l) by (apply elem_of_filter_bool; auto).
    rewrite H in Hin. apply not_elem_of_nil in Hin. contradiction.
  - intros H. destruct (filter (fun a => f a) l) as [|y r] eqn:E; [reflexivity|].
    assert (Hin : y ∈ filter (fun a => f a) l) by (rewrite E; left).
    apply elem_of_filter_bool in Hin as [Hy Hin]. rewrite (H y Hin) in Hy. discriminate.
Qed.

Lemma dbTable_inl (db : DB) (name : string) (t : Table) :
  dbTable db name = inl t <-> db_up db = true /\ db_tables db !! name = Some t.
Proof.
  unfold dbTable. destruct (db_up db); [|split; [discriminate | intros [? _]; discriminate]].
  destruct (db_tables db !! name) as [t'|].
  - split; [intros [= <-]; auto | intros [_ [= <-]]; reflexivity].
  - split; [discriminate | intros [_ ?]; discriminate].
Qed.

Section WithLibs.
Context {L : GoLibs}.

(** The keys the fold of [FetchExistingKeys] collects. *)
Lemma existingKeys_fold (rows : list (list Value)) (acc : gmap string bool) (k : string) :
  keyExists (fold_left (fun existingKeys values =>
                          <[buildKeyFromValues values := true]> existingKeys) rows acc) k
  = true
  <-> keyExists acc k = true \/ exists values, values ∈ rows /\ buildKeyFromValues values = k.
Proof.
  revert acc. induction rows as [|v rows IH]; intros acc; cbn [fold_left].
  - split; [auto | intros [H|(v & Hin & _)]; [exact H | apply not_elem_of_nil in Hin; contradiction]].
  - rewrite IH. unfold keyExists at 1.
    destruct (decide (buildKeyFromValues v = k)) as [Heq|Hne].
    + rewrite Heq, lookup_insert_eq. cbn. split.
      * intros _. right. exists v. split; [left | exact Heq].
      * auto.
    + rewrite lookup_insert_ne by exact Hne. fold (keyExists acc k). split.
      * intros [H|(v' & Hin & Hk)]; [auto|]. right. exists v'. split; [now right | exact Hk].
      * intros [H|(v' & Hin & Hk)]; [auto|].
        apply elem_of_cons in Hin as [->|Hin]; [contradiction|].
        right. exists v'. auto.
Qed.

(** [FetchExistingKeys] returns the keys of the target rows whose time is
    in the half-open range of the segment. *)
Lemma FetchExistingKeys_spec (d : Deduplicator) (db : DB) (tableName : string)
    (segment : TimeSegment) (schema : TableSchema) (keys : gmap string bool) :
  FetchExistingKeys d db tableName segment schema = inl keys ->
  exists t,
    dbTable db tableName = inl t
    /\ forall k,
         keyExists keys k = true
         <-> exists row, row ∈ tbl_rows t
               /\ inHalfOpen (timeField d) (seg_Start segment) (seg_End segment) row
               /\ buildKeyFromValues (map (recordGet row) (dedupeKeys d)) = k.
Proof.
  unfold FetchExistingKeys, querySelectRange.
  destruct (0 <? length (missingKeys schema (dedupeKeys d)))%nat; [discriminate|].
  destruct (dbTable db tableName) as [t|e] eqn:Et; [|discriminate].
  intros [= <-]. exists t. split; [reflexivity|]. intros k.
  rewrite existingKeys_fold. unfold keyExists at 1. rewrite lookup_empty. cbn. split.
  - intros [H|(values & Hin & Hk)]; [discriminate|].
    apply list_elem_of_fmap in Hin as (row & -> & Hin).
    apply elem_of_filter_bool in Hin as [Hw Hin].
    exists row. split; [exact Hin|]. split; [now apply whereRange_OpLt | exact Hk].
  - intros (row & Hin & Hr & Hk). right.
    exists (map (recordGet row) (dedupeKeys d)). split; [|exact Hk].
    apply list_elem_of_fmap. exists row. split; [reflexivity|].
    apply elem_of_filter_bool. split; [now apply whereRange_OpLt | exact Hin].
Qed.

End WithLibs.
End QueryFacts.

Module ProbeFacts.
Import QueryFacts.

Section WithLibs.
Context {L : GoLibs}.

Lemma count_zero (t : Table) (col : string) (lo hi : Time) :
  Z.of_nat (length (filter (fun row => whereRange col OpLe lo hi row) (tbl_rows t))) = 0
  <-> forall row, row ∈ tbl_rows t -> ~ inClosed col lo hi row.
Proof.
  rewrite <- Nat2Z.inj_0, Nat2Z.inj_iff, length_zero_iff_nil, filter_bool_nil.
  split; intros H row Hin.
  - rewrite <- whereRange_OpLe. rewrite (H row Hin). discriminate.
  - specialize (H row Hin). rewrite <- whereRange_OpLe in H.
    now destruct (whereRange col OpLe lo hi row).
Qed.

(** C7 (the bounds of the two probes).  The keys [FetchExistingKeys]
    returns are those of the target rows at or after the start of the
    segment and before its end.  The count of [realtimeIncrementalSync] is
    over the source rows at or after the start of the window and at or
    before its end: the function returns at once when there is no such
    row, and goes on with their number when there is one.  So a row at the
    very end of the range counts for the second probe and not for the
    first. *)
Theorem probe_bounds :
  (forall (d : Deduplicator) (db : DB) (table : string) (segment : TimeSegment)
          (schema : TableSchema) (keys : gmap string bool),
      FetchExistingKeys d db table segment schema = inl keys ->
      exists t,
        dbTable db table = inl t
        /\ forall k,
             keyExists keys k = true
             <-> exists row, row ∈ tbl_rows t
                   /\ inHalfOpen (timeField d) (seg_Start segment) (seg_End segment) row
                   /\ buildKeyFromValues (map (recordGet row) (dedupeKeys d)) = k)
  /\ (forall (s : UniversalSyncer) (startTime endTime : Time) (w : World) (t : Table),
        dbTable (sourceDB w) (tableName s) = inl t ->
        let timeField := tc_TimeField (tableConfig s) in
        let n := Z.of_nat (length (filter (fun row => whereRange timeField OpLe
                                                        startTime endTime row)
                                          (tbl_rows t))) in
        (n = 0 <-> forall row, row ∈ tbl_rows t -> ~ inClosed timeField startTime endTime row)
        /\ (n = 0 -> realtimeSyncWindow s startTime endTime w = (None, w))
        /\ (n <> 0 ->
            realtimeSyncWindow s startTime endTime w
            = realtimeSyncRecords s startTime endTime
                (set_logs w (logs w ++ [(tableName s, LogNewRecords n startTime endTime)]))))
  /\ (forall (col : string) (lo hi : Time) (row : Row) (tm : Time),
        timeOf row col = Some tm -> Equal tm hi = true ->
        whereRange col OpLt lo hi row = false
        /\ ~ inHalfOpen col lo hi row
        /\ (unixNano lo <= unixNano hi ->
            whereRange col OpLe lo hi row = true /\ inClosed col lo hi row)).
Proof.
  split; [|split].
  - intros d db table segment schema keys. apply FetchExistingKeys_spec.
  - intros s startTime endTime w t Ht timeField n.
    split; [apply count_zero|].
    unfold realtimeSyncWindow, bind, gets, ret, log_Printf, modify, queryCountRange.
    rewrite Ht. fold timeField. fold n. split; intros Hn.
    + rewrite Hn. reflexivity.
    + apply Z.eqb_neq in Hn. rewrite Hn. reflexivity.
  - intros col lo hi row tm Ht He. unfold Equal in He.
    assert (Hlt : whereRange col OpLt lo hi row = false).
    { unfold whereRange, cmpTime, Before. rewrite Ht. lia. }
    split; [exact Hlt|]. split.
    + rewrite <- whereRange_OpLt, Hlt. discriminate.
    + intros Hle.
      assert (Hc : whereRange col OpLe lo hi row = true).
      { unfold whereRange, cmpTime, Before, After. rewrite Ht. lia. }
      split; [exact Hc | now apply whereRange_OpLe].
Qed.

End WithLibs.
End ProbeFacts.

Module IntFacts.

Lemma wrap_int_range (z : Z) : in_int (wrap_int z).
Proof.
  unfold in_int, wrap_int.
  pose proof (Z.mod_pos_bound (z + 2 ^ 63) (2 ^ 64) ltac:(reflexivity)). lia.
Qed.

Lemma wrap_int_id (z : Z) : in_int z -> wrap_int z = z.
Proof.
  unfold in_int, wrap_int. intros H. rewrite Z.mod_small; [lia|].
  change (2 ^ 64) with (2 * 2 ^ 63). lia.
Qed.

Lemma wrap_int_add_l (a b : Z) : wrap_int (wrap_int a + b) = wrap_int (a + b).
Proof.
  unfold wrap_int.
  replace ((a + 2 ^ 63) mod 2 ^ 64 - 2 ^ 63 + b + 2 ^ 63)
    with ((a + 2 ^ 63) mod 2 ^ 64 + b) by lia.
  rewrite Zplus_mod_idemp_l. f_equal. f_equal. lia.
Qed.

Lemma int_add_range (a b : Z) : in_int (int_add a b).
Proof. apply wrap_int_range. Qed.

End IntFacts.

Module SegmentSyncFacts.
Import QueryFacts IntFacts.

Section WithLibs.
Context {L : GoLibs}.

Lemma set_targetDB_same (w : World) : set_targetDB w (targetDB w) = w.
Proof. destruct w. reflexivity. Qed.

Lemma tableRows_append (db : DB) (table : string) (t : Table) (rows : list Row) :
  db_tables db !! table = Some t ->
  tableRows (dbAppendRows db table rows) table = tableRows db table ++ rows.
Proof.
  intros Ht. unfold tableRows, dbAppendRows. cbn [db_tables].
  rewrite lookup_alter_eq, Ht. reflexivity.
Qed.

(** [insertBatch] either commits the whole batch or leaves the world as
    it was. *)
Lemma insertBatch_cases (s : UniversalSyncer) (batch : list Row) (columns : list string)
    (w : World) :
  (exists db',
      insertBatch s batch columns w = ((Z.of_nat (length batch), None), set_targetDB w db')
      /\ tableRows db' (tableName s)
         = tableRows (targetDB w) (tableName s) ++ insertedRows s columns batch)
  \/ (exists err, insertBatch s batch columns w = ((0, Some err), w)).
Proof.
  unfold insertBatch. destruct batch as [|record batch].
  - left. exists (targetDB w). cbn. unfold ret. rewrite set_targetDB_same.
    split; [reflexivity | now rewrite app_nil_r].
  - cbn [length Nat.eqb]. unfold bind, gets, ret, modify.
    destruct (dbTable (targetDB w) (tableName s)) as [t|e] eqn:Et.
    + destruct (forallb (db_accepts (targetDB w)) (map (rowValues s columns) (record :: batch))).
      * left. eexists. split; [reflexivity|].
        apply dbTable_inl in Et as [_ Et].
        rewrite (tableRows_append _ _ _ _ Et). unfold insertedRows.
        now rewrite map_map.
      * right. eexists. reflexivity.
    + right. eexists. reflexivity.
Qed.

Lemma newRecords_cons (s : UniversalSyncer) (keys : gmap string bool)
    (columns : list string) (values : list Value) (rows : list (list Value)) :
  newRecords s keys columns (values :: rows)
  = if keyExists keys (BuildKey (deduplicator s) (scanRow values columns))
    then newRecords s keys columns rows
    else scanRow values columns :: newRecords s keys columns rows.
Proof.
  unfold newRecords. cbn [map List.filter].
  now destruct (keyExists keys (BuildKey (deduplicator s) (scanRow values columns))).
Qed.

Lemma insertedRows_app (s : UniversalSyncer) (columns : list string) (r1 r2 : list Row) :
  insertedRows s columns (r1 ++ r2) = insertedRows s columns r1 ++ insertedRows s columns r2.
Proof. apply map_app. Qed.

(** The loop over the source rows: what it has inserted, [F], is a prefix
    of the records that are not skipped, in their order; without an error
    the rest of them is the batch still to insert. *)
Lemma syncRows_spec (s : UniversalSyncer) (keys : gmap string bool) (batchSize : Z)
    (columns : list string) (rows : list (list Value)) :
  forall (st : SegmentLoop) (w : World),
    in_int (totalInserted st) ->
    exists st' err w' F,
      syncRows s keys batchSize columns rows st w = ((st', err), w')
      /\ sourceDB w' = sourceDB w
      /\ tableRows (targetDB w') (tableName s)
         = tableRows (targetDB w) (tableName s) ++ insertedRows s columns F
      /\ (exists rest,
            batch st ++ newRecords s keys columns rows = F ++ rest
            /\ (err = None -> rest = batch st'))
      /\ totalInserted st' = wrap_int (totalInserted st + Z.of_nat (length F)).
Proof.
  induction rows as [|values rows IH]; intros st w Hint.
  - exists st, None, w, []. cbn [syncRows]. unfold ret.
    split; [reflexivity|]. split; [reflexivity|].
    split; [now rewrite app_nil_r|]. split.
    + exists (batch st). split; [now rewrite app_nil_r | reflexivity].
    + cbn [length]. rewrite Z.add_0_r. symmetry. now apply wrap_int_id.
  - cbn [syncRows]. rewrite newRecords_cons.
    destruct (keyExists keys (BuildKey (deduplicator s) (scanRow values columns))) eqn:Ek.
    + apply (IH (mkLoop _ _ _ _ _) w Hint).
    + destruct (batchSize <=? Z.of_nat (length (batch st ++ [scanRow values columns]))) eqn:Eb.
      * unfold bind at 1.
        destruct (insertBatch_cases s (batch st ++ [scanRow values columns]) columns w)
          as [(db' & Hins & Hrows)|(err & Hins)]; rewrite Hins; cbn [snd fst].
        -- unfold bind at 1, log_Printf at 1, modify at 1.
           match goal with
           | |- context [syncRows s keys batchSize columns rows ?st1 ?w1] =>
               destruct (IH st1 w1 (int_add_range _ _))
                 as (st' & err & w' & F & Heq & Hsrc & Htgt & (rest & Hrest & Hnone) & Hcnt)
           end.
           exists st', err, w', ((batch st ++ [scanRow values columns]) ++ F).
           split; [exact Heq|]. split; [exact Hsrc|]. split.
           { rewrite Htgt. cbn [targetDB set_logs set_targetDB]. rewrite Hrows.
             rewrite (insertedRows_app _ _ (batch st ++ _) F). now rewrite app_assoc. }
           split.
           { exists rest. split; [|exact Hnone]. cbn [batch app] in Hrest.
             rewrite <- app_assoc. cbn [app]. rewrite <- app_assoc. now rewrite <- Hrest. }
           rewrite Hcnt. cbn [totalInserted]. unfold int_add. rewrite wrap_int_add_l.
           f_equal. rewrite !length_app, !Nat2Z.inj_add. lia.
        -- unfold ret. eexists _, _, w, []. split; [reflexivity|].
           split; [reflexivity|]. split; [now rewrite app_nil_r|]. split.
           { eexists. split; [reflexivity | discriminate]. }
           cbn [totalInserted length]. rewrite Z.add_0_r. symmetry. now apply wrap_int_id.
      * destruct (IH (mkLoop (totalInserted st) (int_add (totalScanned st) 1) (totalSkipped st)
                             (batch st ++ [scanRow values columns]) (batchCount st)) w Hint)
          as (st' & err & w' & F & Heq & Hsrc & Htgt & (rest & Hrest & Hnone) & Hcnt).
        exists st', err, w', F. split; [exact Heq|]. split; [exact Hsrc|].
        split; [exact Htgt|]. split; [|exact Hcnt].
        exists rest. split; [|exact Hnone]. cbn [batch] in Hrest.
        rewrite <- Hrest. now rewrite <- app_assoc.
Qed.

(** When every key is among the existing ones the loop inserts nothing
    and leaves the world as it was. *)
Lemma syncRows_all_exist (s : UniversalSyncer) (keys : gmap string bool) (batchSize : Z)
    (columns : list string) (rows : list (list Value)) :
  Forall (fun values =>
            keyExists keys (BuildKey (deduplicator s) (scanRow values columns)) = true) rows ->
  forall (st : SegmentLoop) (w : World),
    exists scanned skipped,
      syncRows s keys batchSize columns rows st w
      = ((mkLoop (totalInserted st) scanned skipped (batch st) (batchCount st), None), w).
Proof.
  induction 1 as [|values rows Hv _ IH]; intros st w.
  - exists (totalScanned st), (totalSkipped st). destruct st. reflexivity.
  - cbn [syncRows]. rewrite Hv.
    destruct (IH (mkLoop (totalInserted st) (int_add (totalScanned st) 1)
                         (int_add (totalSkipped st) 1) (batch st) (batchCount st)) w)
      as (sc & sk & Heq).
    exists sc, sk. exact Heq.
Qed.

Lemma newRecords_not_existing (s : UniversalSyncer) (keys : gmap string bool)
    (columns : list string) (rows : list (list Value)) (F rest : list Row) :
  newRecords s keys columns rows = F ++ rest ->
  Forall (fun record => keyExists keys (BuildKey (deduplicator s) record) = false) F.
Proof.
  intros Heq. apply Forall_forall. intros record Hin.
  assert (Hn : In record (newRecords s keys columns rows)).
  { rewrite Heq. apply in_or_app. left. now apply list_elem_of_In. }
  unfold newRecords in Hn. apply filter_In in Hn as [_ Hn].
  now apply negb_true_iff in Hn.
Qed.

(** What [syncSegment] inserts, whatever happens: a prefix [F] of the
    records that are not skipped; all of them when there is no error. *)
Lemma syncSegment_spec (s : UniversalSyncer) (segment : TimeSegment) (w : World)
    (keys : gmap string bool) (rows : list (list Value)) :
  let columns := GetColumnNames (tableSchema s) in
  FetchExistingKeys (deduplicator s) (targetDB w) (tableName s) segment (tableSchema s)
  = inl keys ->
  querySelectRangeOrdered (sourceDB w) (tableName s) columns (tc_TimeField (tableConfig s))
                          OpLt (seg_Start segment) (seg_End segment) = inl rows ->
  exists n err w' F rest,
    syncSegment s segment w = ((n, err), w')
    /\ newRecords s keys columns rows = F ++ rest
    /\ tableRows (targetDB w') (tableName s)
       = tableRows (targetDB w) (tableName s) ++ insertedRows s columns F
    /\ n = wrap_int (Z.of_nat (length F))
    /\ (err = None -> rest = []).
Proof.
  intros columns Hk Hq. unfold syncSegment.
  unfold bind at 1, log_Printf at 1, modify at 1.
  unfold bind at 1, gets at 1. cbn [targetDB set_logs]. rewrite Hk.
  unfold bind at 1, log_Printf at 1, modify at 1.
  unfold bind at 1, log_Printf at 1, modify at 1.
  unfold bind at 1, gets at 1. cbn [sourceDB set_logs]. fold columns. rewrite Hq.
  destruct (GetEffectiveBatchSize (tableConfig s) (sc_BatchSize (cfg_Sync (config s))) <? 0).
  { unfold ret. eexists 0, _, _, [], _. split; [reflexivity|].
    split; [reflexivity|]. split; [now rewrite app_nil_r|]. split; [reflexivity | discriminate]. }
  unfold bind at 1.
  match goal with
  | |- context [syncRows s keys ?bs columns rows ?st0 ?w0] =>
      destruct (syncRows_spec s keys bs columns rows st0 w0)
        as (st' & err & w' & F & Heq & _ & Htgt & (rest & Hrest & Hnone) & Hcnt);
        [unfold in_int; cbn; lia|]
  end.
  rewrite Heq. cbn [fst snd targetDB set_logs batch totalInserted app] in *.
  rewrite Z.add_0_l in Hcnt.
  destruct err as [err|].
  { unfold ret. exists (totalInserted st'), (Some err), w', F, rest.
    split; [reflexivity|]. split; [exact Hrest|]. split; [exact Htgt|].
    split; [exact Hcnt | discriminate]. }
  specialize (Hnone eq_refl). subst rest.
  destruct (batch st') as [|record b] eqn:Eb.
  { cbn [length Nat.ltb Nat.leb]. unfold bind, log_Printf, modify, ret.
    exists (totalInserted st'), None, (set_logs w' (logs w' ++ [(tableName s,
              LogSegmentSummary (totalScanned st') (totalInserted st') (totalSkipped st'))])),
           F, [].
    split; [reflexivity|]. split; [exact Hrest|]. split; [exact Htgt|].
    split; [exact Hcnt | reflexivity]. }
  change (0 <? length (record :: b))%nat with true. cbn match.
  unfold bind at 1.
  destruct (insertBatch_cases s (record :: b) columns w')
    as [(db' & Hins & Hrows)|(err & Hins)]; rewrite Hins; cbn [snd fst].
  - unfold bind, log_Printf, modify, ret.
    eexists _, None, _, (F ++ record :: b), []. split; [reflexivity|].
    split; [now rewrite app_nil_r|]. split.
    { cbn [targetDB set_logs set_targetDB]. rewrite Hrows, Htgt.
      rewrite (insertedRows_app _ _ F). now rewrite app_assoc. }
    split; [|reflexivity].
    rewrite Hcnt. unfold int_add. rewrite wrap_int_add_l. f_equal.
    rewrite length_app, Nat2Z.inj_add. reflexivity.
  - unfold ret. exists (totalInserted st'), (Some (ErrWrap "failed to insert final batch" err)),
      w', F, (record :: b).
    split; [reflexivity|]. split; [exact Hrest|]. split; [exact Htgt|].
    split; [exact Hcnt | discriminate].
Qed.

(** The rows of an ordered range query are rows of the table in the
    range. *)
Lemma querySelectRangeOrdered_rows (db : DB) (table : string) (cols : list string)
    (col : string) (lo hi : Time) (rows : list (list Value)) :
  querySelectRangeOrdered db table cols col OpLt lo hi = inl rows ->
  exists t, dbTable db table = inl t
    /\ forall values, values ∈ rows ->
         exists row, row ∈ tbl_rows t /\ inHalfOpen col lo hi row
                     /\ values = map (recordGet row) cols.
Proof.
  unfold querySelectRangeOrdered. destruct (dbTable db table) as [t|e]; [|discriminate].
  intros [= <-]. exists t. split; [reflexivity|]. intros values Hin.
  apply list_elem_of_fmap in Hin as (row & -> & Hin).
  rewrite merge_sort_Permutation in Hin.
  apply elem_of_filter_bool in Hin as [Hw Hin].
  exists row. split; [exact Hin|]. split; [now apply whereRange_OpLt | reflexivity].
Qed.

(** When every source row of the segment has its key among the keys of
    the target rows of the segment, [syncSegment] changes the log only. *)
Lemma syncSegment_all_exist (s : UniversalSyncer) (segment : TimeSegment) (w : World) :
  let columns := GetColumnNames (tableSchema s) in
  let d := deduplicator s in
  let tf := tc_TimeField (tableConfig s) in
  (forall ts row,
      dbTable (sourceDB w) (tableName s) = inl ts ->
      row ∈ tbl_rows ts ->
      inHalfOpen tf (seg_Start segment) (seg_End segment) row ->
      exists tt trow,
        dbTable (targetDB w) (tableName s) = inl tt
        /\ trow ∈ tbl_rows tt
        /\ inHalfOpen (timeField d) (seg_Start segment) (seg_End segment) trow
        /\ buildKeyFromValues (map (recordGet trow) (dedupeKeys d))
           = BuildKey d (scanRow (map (recordGet row) columns) columns)) ->
  exists err l, syncSegment s segment w = ((0, err), set_logs w l).
Proof.
  intros columns d tf Hall. unfold syncSegment.
  unfold bind at 1, log_Printf at 1, modify at 1.
  unfold bind at 1, gets at 1. cbn [targetDB set_logs].
  destruct (FetchExistingKeys (deduplicator s) (targetDB w) (tableName s) segment
                              (tableSchema s)) as [keys|e] eqn:Hk.
  2:{ eexists _, _. reflexivity. }
  unfold bind at 1, log_Printf at 1, modify at 1.
  unfold bind at 1, log_Printf at 1, modify at 1.
  unfold bind at 1, gets at 1. cbn [sourceDB set_logs]. fold columns. fold tf.
  destruct (querySelectRangeOrdered (sourceDB w) (tableName s) columns tf OpLt
              (seg_Start segment) (seg_End segment)) as [rows|e] eqn:Hq.
  2:{ eexists _, _. unfold ret. cbn. reflexivity. }
  destruct (GetEffectiveBatchSize (tableConfig s) (sc_BatchSize (cfg_Sync (config s))) <? 0).
  { eexists _, _. unfold ret. cbn. reflexivity. }
  assert (Hex : Forall (fun values =>
              keyExists keys (BuildKey (deduplicator s) (scanRow values columns)) = true) rows).
  { apply Forall_forall. intros values Hin.
    destruct (querySelectRangeOrdered_rows _ _ _ _ _ _ _ Hq) as (ts & Hts & Hrows).
    destruct (Hrows values Hin) as (row & Hrow & Hr & ->).
    destruct (Hall ts row Hts Hrow Hr) as (tt & trow & Htt & Htrow & Htr & Hkey).
    destruct (FetchExistingKeys_spec _ _ _ _ _ _ Hk) as (tt' & Htt' & Hkeys).
    apply Hkeys. exists trow. rewrite Htt in Htt'. injection Htt' as <-.
    split; [exact Htrow|]. split; [exact Htr | exact Hkey]. }
  unfold bind at 1.
  match goal with
  | |- context [syncRows s keys ?bs columns rows ?st0 ?w0] =>
      destruct (syncRows_all_exist s keys bs columns rows Hex st0 w0) as (sc & sk & Heq)
  end.
  rewrite Heq. cbn [fst snd batch length Nat.ltb Nat.leb totalInserted].
  unfold bind, log_Printf, modify, ret. cbn [set_logs logs].
  eexists _, _. reflexivity.
Qed.

(** C8 (replay idempotence of [syncSegment]).  For a syncer whose
    effective batch size is not negative (with a negative one the program
    panics when it makes the batch, and returns nothing): the rows
    [syncSegment] adds to the target are made from records that are not
    skipped, and none of those has its dedup key among the keys fetched
    from the target at the start of the call; the count it returns is
    their number.  When the target holds, in the segment, the dedup key of
    every source row of the segment, the call returns the count 0 and
    leaves the target database as it was. *)
Theorem syncSegment_replay (s : UniversalSyncer) (segment : TimeSegment) (w : World) :
  let columns := GetColumnNames (tableSchema s) in
  let d := deduplicator s in
  let tf := tc_TimeField (tableConfig s) in
  0 <= GetEffectiveBatchSize (tableConfig s) (sc_BatchSize (cfg_Sync (config s))) ->
  (forall keys rows,
      FetchExistingKeys d (targetDB w) (tableName s) segment (tableSchema s) = inl keys ->
      querySelectRangeOrdered (sourceDB w) (tableName s) columns tf
                              OpLt (seg_Start segment) (seg_End segment) = inl rows ->
      exists F rest,
        newRecords s keys columns rows = F ++ rest
        /\ tableRows (targetDB (snd (syncSegment s segment w))) (tableName s)
           = tableRows (targetDB w) (tableName s) ++ insertedRows s columns F
        /\ Forall (fun record => keyExists keys (BuildKey d record) = false) F
        /\ fst (fst (syncSegment s segment w)) = wrap_int (Z.of_nat (length F))
        /\ (snd (fst (syncSegment s segment w)) = None -> rest = []))
  /\ ((forall ts row,
         dbTable (sourceDB w) (tableName s) = inl ts ->
         row ∈ tbl_rows ts ->
         inHalfOpen tf (seg_Start segment) (seg_End segment) row ->
         exists tt trow,
           dbTable (targetDB w) (tableName s) = inl tt
           /\ trow ∈ tbl_rows tt
           /\ inHalfOpen (timeField d) (seg_Start segment) (seg_End segment) trow
           /\ buildKeyFromValues (map (recordGet trow) (dedupeKeys d))
              = BuildKey d (scanRow (map (recordGet row) columns) columns)) ->
      fst (fst (syncSegment s segment w)) = 0
      /\ targetDB (snd (syncSegment s segment w)) = targetDB w).
Proof.
  intros columns d tf _. split.
  - intros keys rows Hk Hq.
    destruct (syncSegment_spec s segment w keys rows Hk Hq)
      as (n & err & w' & F & rest & Heq & Hnew & Htgt & Hn & Hnone).
    exists F, rest. rewrite Heq. cbn [fst snd].
    split; [exact Hnew|]. split; [exact Htgt|].
    split; [exact (newRecords_not_existing _ _ _ _ _ _ Hnew)|]. split; assumption.
  - intros Hall.
    destruct (syncSegment_all_exist s segment w Hall) as (err & l & Heq).
    rewrite Heq. split; reflexivity.
Qed.

End WithLibs.

(** The theorem on the small installation, whose batch size is 2, with a
    target that holds the rows of the source. *)
Lemma syncSegment_replay_witness :
  let s := Demo.syncer true in
  let segment := mkSegment (Date 2024 1 1 0 0 0 0 UTC) (Date 2024 1 2 0 0 0 0 UTC) in
  let w := Demo.world Demo.tenRows Demo.tenRows (Date 2024 1 3 1 0 0 0 UTC) true in
  let columns := GetColumnNames (tableSchema s) in
  let d := deduplicator s in
  let tf := tc_TimeField (tableConfig s) in
  0 <= GetEffectiveBatchSize (tableConfig s) (sc_BatchSize (cfg_Sync (config s)))
  /\ ((forall ts row,
         dbTable (sourceDB w) (tableName s) = inl ts ->
         row ∈ tbl_rows ts ->
         inHalfOpen tf (seg_Start segment) (seg_End segment) row ->
         exists tt trow,
           dbTable (targetDB w) (tableName s) = inl tt
           /\ trow ∈ tbl_rows tt
           /\ inHalfOpen (timeField d) (seg_Start segment) (seg_End segment) trow
           /\ @buildKeyFromValues Demo.libs (map (recordGet trow) (dedupeKeys d))
              = @BuildKey Demo.libs d (scanRow (map (recordGet row) columns) columns)) ->
      fst (fst (@syncSegment Demo.libs s segment w)) = 0
      /\ targetDB (snd (@syncSegment Demo.libs s segment w)) = targetDB w).
Proof.
  intros s segment w columns d tf. split; [vm_compute; discriminate|].
  exact (proj2 (@syncSegment_replay Demo.libs s segment w
                  ltac:(vm_compute; discriminate))).
Defined.

(** The replay on the small installation: the six rows of the first day
    are in the target, and the call copies none. *)
Example syncSegment_replay_example :
  let s := Demo.syncer true in
  let segment := mkSegment (Date 2024 1 1 0 0 0 0 UTC) (Date 2024 1 2 0 0 0 0 UTC) in
  let w := Demo.world Demo.tenRows Demo.tenRows (Date 2024 1 3 1 0 0 0 UTC) true in
  fst (@syncSegment Demo.libs s segment w) = (0, None)
  /\ targetDB (snd (@syncSegment Demo.libs s segment w)) = targetDB w.
Proof. vm_compute. split; reflexivity. Qed.

End SegmentSyncFacts.

Module CoercionFacts.
Import QueryFacts SegmentSyncFacts.


Section WithLibs.
Context {L : GoLibs}.

Lemma coerceValue_time (m : gmap string string) (col : string) (t : Time) :
  coerceValue m col (VTime t)
  = if typeContains m col "DateTime" && (Before t minTime || After t maxTime || IsZero t)
    then VTime defaultTime else VTime t.
Proof.
  unfold coerceValue.
  destruct (typeContains m col "DateTime"), (typeContains m col "Decimal"),
    (Before t minTime || After t maxTime || IsZero t); reflexivity.
Qed.





End WithLibs.



End CoercionFacts.

Module StateFacts.
Import FmtFacts.

Lemma tmp_ne (path : string) : path +:+ ".tmp" <> path.
Proof.
  intros H. apply (f_equal String.length) in H. rewrite length_append in H.
  cbn in H. lia.
Qed.

(** The table entry after [MarkSegmentCompleted], from the one before. *)
Lemma mark_tables (tables : gmap string TableState) (name : string)
    (f : TableState -> TableState) (fresh : TableState) :
  alter f name (match tables !! name with
                | Some _ => tables
                | None => <[name := fresh]> tables
                end)
  = <[name := f (default fresh (tables !! name))]> tables.
Proof.
  apply map_eq. intros k. destruct (tables !! name) as [old|] eqn:E; cbn [default].
  - destruct (decide (name = k)) as [<-|Hne].
    + now rewrite lookup_alter_eq, lookup_insert_eq, E.
    + now rewrite lookup_alter_ne, lookup_insert_ne by exact Hne.
  - destruct (decide (name = k)) as [<-|Hne].
    + now rewrite lookup_alter_eq, !lookup_insert_eq.
    + now rewrite lookup_alter_ne, !lookup_insert_ne by exact Hne.
Qed.

(** What [saveStateUnlocked] does to the world: the clock is read, the
    time of the last update is set, and the file is replaced through the
    temporary file, or it is left as it was. *)
Lemma saveStateUnlocked_spec (w : World) :
  let path := stateFile (stateMgr w) in
  let tmp := path +:+ ".tmp" in
  let st := mkSyncState (RunID (state (stateMgr w))) (StartTime (state (stateMgr w)))
                        (clock w (ticks w)) (Tables (state (stateMgr w))) in
  let w' := snd (saveStateUnlocked w) in
  let err := fst (saveStateUnlocked w) in
  state (stateMgr w') = st
  /\ stateFile (stateMgr w') = path
  /\ ticks w' = S (ticks w)
  /\ sourceDB w' = sourceDB w /\ targetDB w' = targetDB w
  /\ (json_MarshalIndent st = inl st -> fs_writable (fs w) tmp = true ->
      fs_renamable (fs w) tmp path = true ->
      err = None
      /\ fs_files (fs w') = <[path := st]> (delete tmp (fs_files (fs w))))
  /\ (json_MarshalIndent st <> inl st \/ fs_writable (fs w) tmp = false
      \/ fs_renamable (fs w) tmp path = false ->
      err <> None
      /\ fs_files (fs w') !! path = fs_files (fs w) !! path).
Proof.
  intros path tmp st w' err. subst w' err path tmp.
  unfold saveStateUnlocked, bind, time_Now, gets, modify, ret. wsimpl.
  fold st.
  assert (Hm : json_MarshalIndent st = inl st \/ exists e, json_MarshalIndent st = inr e).
  { unfold json_MarshalIndent. destruct (_ && _); eauto. }
  destruct Hm as [Hm|(e & Hm)]; rewrite Hm.
  2:{ wsimpl. do 5 (split; [reflexivity|]). split.
      - intros H. discriminate.
      - intros _. split; [discriminate | reflexivity]. }
  unfold os_WriteFile. wsimpl.
  destruct (fs_writable (fs w) (stateFile (stateMgr w) +:+ ".tmp")) eqn:Ew.
  2:{ wsimpl. do 5 (split; [reflexivity|]). split.
      - intros _ H. discriminate.
      - intros _. split; [discriminate | reflexivity]. }
  unfold os_Rename. wsimpl. rewrite lookup_insert_eq.
  destruct (fs_renamable (fs w) (stateFile (stateMgr w) +:+ ".tmp")
                         (stateFile (stateMgr w))) eqn:Er.
  - wsimpl. do 5 (split; [reflexivity|]). split.
    + intros _ _ _. split; [reflexivity|]. now rewrite delete_insert_eq.
    + intros [H|[H|H]]; [contradiction | discriminate | discriminate].
  - wsimpl. do 5 (split; [reflexivity|]). split.
    + intros _ _ H. discriminate.
    + intros _. split; [discriminate|]. apply lookup_insert_ne, tmp_ne.
Qed.

(** [MarkSegmentCompleted] is an update of the state in memory, then
    [saveStateUnlocked], whose result it drops. *)
Lemma MarkSegmentCompleted_eq (tableName : string) (segment : TimeSegment)
    (recordCount : Z) (w : World) :
  let old := default (mkTableState "in_progress" zeroTime 0 [])
                     (Tables (state (stateMgr w)) !! tableName) in
  let st := state (stateMgr w) in
  let tables :=
    <[tableName := mkTableState (Status old) (clock w (ticks w))
                     (int_add (RecordsSynced old) recordCount)
                     (CompletedSegments old ++ [segment])]> (Tables st) in
  MarkSegmentCompleted tableName segment recordCount w
  = (tt, snd (saveStateUnlocked
                (set_state (set_ticks w (S (ticks w)))
                           (mkSyncState (RunID st) (StartTime st) (LastUpdated st) tables)))).
Proof.
  intros old st tables. subst old st tables.
  unfold MarkSegmentCompleted.
  unfold bind at 1, gets at 1. unfold bind at 1, time_Now at 1.
  unfold bind at 1, modify at 1. rewrite mark_tables.
  unfold bind at 1, ret.
  match goal with
  | |- context [saveStateUnlocked ?w1] => destruct (saveStateUnlocked w1) as [err w2]
  end.
  reflexivity.
Qed.

(** C5, as amended (checkpoint persistence).  [MarkSegmentCompleted] adds
    the segment at the end of the completed segments of the table, adds
    the count to the records synced (in [int] arithmetic), sets the time
    of the last sync to the time it reads, and then saves the whole state
    through [saveStateUnlocked]: on success the file at the path of the
    state file holds the state and the temporary file is gone.  It has no
    result, and the outcome of the save does not reach its caller: when
    the state does not marshal, or the write or the rename fails, the
    state in memory is updated all the same and the file is left as it
    was. *)
Theorem MarkSegmentCompleted_persist (tableName : string) (segment : TimeSegment)
    (recordCount : Z) (w : World) :
  let w' := snd (MarkSegmentCompleted tableName segment recordCount w) in
  let old := default (mkTableState "in_progress" zeroTime 0 [])
                     (Tables (state (stateMgr w)) !! tableName) in
  let path := stateFile (stateMgr w) in
  let tmp := path +:+ ".tmp" in
  fst (MarkSegmentCompleted tableName segment recordCount w) = tt
  /\ Tables (state (stateMgr w'))
     = <[tableName := mkTableState (Status old) (clock w (ticks w))
                        (int_add (RecordsSynced old) recordCount)
                        (CompletedSegments old ++ [segment])]>
         (Tables (state (stateMgr w)))
  /\ LastUpdated (state (stateMgr w')) = clock w (S (ticks w))
  /\ stateFile (stateMgr w') = path
  /\ (json_MarshalIndent (state (stateMgr w')) = inl (state (stateMgr w')) ->
      fs_writable (fs w) tmp = true -> fs_renamable (fs w) tmp path = true ->
      fs_files (fs w') = <[path := state (stateMgr w')]> (delete tmp (fs_files (fs w))))
  /\ (json_MarshalIndent (state (stateMgr w')) <> inl (state (stateMgr w'))
      \/ fs_writable (fs w) tmp = false \/ fs_renamable (fs w) tmp path = false ->
      fs_files (fs w') !! path = fs_files (fs w) !! path).
Proof.
  intros w' old path tmp. subst w' path tmp.
  pose proof (MarkSegmentCompleted_eq tableName segment recordCount w) as Heq.
  cbn zeta in Heq. fold old in Heq.
  match type of Heq with
  | _ = (tt, snd (saveStateUnlocked (set_state ?w0 ?st0))) =>
      remember st0 as st1 eqn:Est1
  end.
  rewrite Heq. clear Heq. cbn [fst snd].
  pose proof (saveStateUnlocked_spec (set_state (set_ticks w (S (ticks w))) st1)) as Hs.
  cbn zeta in Hs.
  destruct (saveStateUnlocked (set_state (set_ticks w (S (ticks w))) st1)) as [err w2].
  cbn [fst snd] in *. wsimpl in Hs.
  destruct Hs as (Hst & Hpath & _ & _ & _ & Hok & Hfail).
  assert (Hst1 : mkSyncState (RunID st1) (StartTime st1) (clock w (S (ticks w))) (Tables st1)
                 = state (stateMgr w2)) by (symmetry; exact Hst).
  clear Hst. rewrite Hst1 in Hok, Hfail.
  split; [reflexivity|]. rewrite Hpath. rewrite <- Hst1 at 1 2. cbn [Tables LastUpdated].
  split; [now rewrite Est1|]. split; [reflexivity|]. split; [reflexivity|]. split.
  - intros Hm Hw Hr. apply (Hok Hm Hw Hr).
  - intros H. apply (Hfail H).
Qed.

(** C5, as the specification has it, fails: with a state file that
    cannot be written, [incrementalSync], the caller of
    [MarkSegmentCompleted], marks two segments and returns no error,
    although each save failed and nothing reached the disk. *)
Lemma persist_failure_counterexample :
  let w := Demo.world Demo.tenRows [] (Date 2024 1 2 13 0 0 0 UTC) false in
  let segment := mkSegment (Date 2024 1 1 0 0 0 0 UTC) (Date 2024 1 2 0 0 0 0 UTC) in
  let r := @incrementalSync Demo.libs (Demo.syncer true) w in
  fst (saveStateUnlocked w) = Some (ErrMsg "open: permission denied")
  /\ fst (MarkSegmentCompleted "events" segment 6 w) = tt
  /\ fs_files (fs (snd (MarkSegmentCompleted "events" segment 6 w))) = ∅
  /\ fst r = None
  /\ option_map (fun ts => (length (CompletedSegments ts), RecordsSynced ts))
                (Tables (state (stateMgr (snd r))) !! "events") = Some (2%nat, 10)
  /\ fs_files (fs (snd r)) = ∅
  /\ fst (saveStateUnlocked (snd r)) = Some (ErrMsg "open: permission denied").
Proof. vm_compute. repeat split; reflexivity. Qed.

(** The same run with a state file that can be written: the file holds
    the state, with the two segments. *)
Example persist_success :
  let w := Demo.world Demo.tenRows [] (Date 2024 1 2 13 0 0 0 UTC) true in
  let r := @incrementalSync Demo.libs (Demo.syncer true) w in
  fst r = None
  /\ fs_files (fs (snd r)) !! "/tmp/clickhouse_sync_state.json"
     = Some (state (stateMgr (snd r)))
  /\ fs_files (fs (snd r)) !! "/tmp/clickhouse_sync_state.json.tmp" = None
  /\ option_map (fun ts => map (fun sg => (Format_RFC3339Nano (seg_Start sg),
                                            Format_RFC3339Nano (seg_End sg)))
                               (CompletedSegments ts))
                (Tables (state (stateMgr (snd r))) !! "events")
     = Some [("2024-01-01T00:00:00Z", "2024-01-02T00:00:00Z");
             ("2024-01-02T00:00:00Z", "2024-01-02T12:00:01Z")].
Proof. vm_compute. repeat split; reflexivity. Qed.

End StateFacts.

Module StrategyFacts.

Lemma timeValid_definedAt (now : Time) (nt : NullTime) :
  timeValid nt (Add now (24 * Hour)) = true <-> definedAt now nt.
Proof.
  unfold timeValid, definedAt, After, Before, Add. cbn [unixNano].
  generalize (unixNano minValidTime) (unixNano (nt_Time nt)) (unixNano now).
  intros a b c. destruct (nt_Valid nt); cbn [andb].
  - rewrite andb_true_iff, !Z.ltb_lt. intuition lia.
  - split; [discriminate | intros [? _]; discriminate].
Qed.

Lemma timeValid_not_definedAt (now : Time) (nt : NullTime) :
  timeValid nt (Add now (24 * Hour)) = false <-> ~ definedAt now nt.
Proof.
  rewrite <- timeValid_definedAt. destruct (timeValid nt (Add now (24 * Hour))).
  - split; [discriminate | intros H; now destruct H].
  - split; [discriminate | reflexivity].
Qed.

Section WithLibs.
Context {L : GoLibs}.

(** [realtimeIncrementalSync], once the two probes are known. *)
Lemma realtimeIncrementalSync_probed (s : UniversalSyncer) (w : World)
    (maxTimeTarget maxTimeSource : NullTime) :
  queryMax (targetDB w) (tableName s) (tc_TimeField (tableConfig s)) = inl maxTimeTarget ->
  queryMax (sourceDB w) (tableName s) (tc_TimeField (tableConfig s)) = inl maxTimeSource ->
  realtimeIncrementalSync s w
  = match realtimeWindow maxTimeTarget maxTimeSource (clock w (ticks w)) with
    | None => (None, set_ticks w (S (ticks w)))
    | Some (startTime, endTime, true) =>
        realtimeSyncWindow s startTime endTime
          (set_logs (set_ticks w (S (ticks w)))
             ((logs w ++ [(tableName s, LogFailoverDetected (nt_Time maxTimeSource)
                                                            (nt_Time maxTimeTarget))])
                ++ [(tableName s, LogBacktrack backwardWindow)]))
    | Some (startTime, endTime, false) =>
        realtimeSyncWindow s startTime endTime (set_ticks w (S (ticks w)))
    end.
Proof.
  intros Ht Hs. unfold realtimeIncrementalSync.
  unfold bind at 1, gets at 1. rewrite Ht.
  unfold bind at 1, gets at 1. rewrite Hs.
  unfold bind at 1, time_Now at 1.
  destruct (realtimeWindow maxTimeTarget maxTimeSource (clock w (ticks w)))
    as [[[startTime endTime] [|]]|]; reflexivity.
Qed.


Lemma Sub_exact (t u : Time) :
  - 2 ^ 63 <= unixNano t - unixNano u < 2 ^ 63 -> Sub t u = unixNano t - unixNano u.
Proof.
  unfold Sub, minDuration, maxDuration. generalize (unixNano t - unixNano u). intros d Hd.
  destruct (d <? - 2 ^ 63) eqn:E1; [lia|]. destruct (2 ^ 63 - 1 <? d) eqn:E2; [lia|].
  reflexivity.
Qed.

(** [SyncWithRealtimeMode], once the two probes are known. *)
Lemma SyncWithRealtimeMode_probed (s : UniversalSyncer) (realtimeThreshold : Z) (w : World)
    (maxTimeTarget maxTimeSource : NullTime) :
  queryMax (targetDB w) (tableName s) (tc_TimeField (tableConfig s)) = inl maxTimeTarget ->
  queryMax (sourceDB w) (tableName s) (tc_TimeField (tableConfig s)) = inl maxTimeSource ->
  let now := clock w (ticks w) in
  let w1 := set_ticks w (S (ticks w)) in
  SyncWithRealtimeMode s realtimeThreshold w
  = match chooseStrategy maxTimeTarget maxTimeSource now realtimeThreshold with
    | SkipSourceEmpty =>
        (Some ErrSourceTableEmpty,
         set_logs w1 (logs w ++ [(tableName s, LogSkipNoSourceData)]))
    | CatchupThenRealtime =>
        runCatchupThenRealtime s
          (set_logs w1
             (logs w ++ [(tableName s,
                          if negb (timeValid maxTimeTarget (Add now (24 * Hour)))
                          then LogInitialSync
                          else LogLagCatchup
                                 (Sub (nt_Time maxTimeSource) (nt_Time maxTimeTarget))
                                 (nt_Time maxTimeSource) (nt_Time maxTimeTarget))]))
    | RealtimeOnly => runRealtime s w1
    end.
Proof.
  intros Ht Hs now w1. unfold SyncWithRealtimeMode.
  unfold bind at 1, gets at 1. rewrite Ht.
  unfold bind at 1, gets at 1. rewrite Hs.
  unfold bind at 1, time_Now at 1. fold now. fold w1.
  destruct (chooseStrategy maxTimeTarget maxTimeSource now realtimeThreshold).
  - reflexivity.
  - unfold bind at 1.
    destruct (negb (timeValid maxTimeTarget (Add now (24 * Hour)))); reflexivity.
  - reflexivity.
Qed.

(** The realtime mode returns at once when the newest time of the source
    is not defined at the time it looks. *)
Lemma runRealtime_source_undefined (s : UniversalSyncer) (w : World)
    (maxTimeTarget maxTimeSource : NullTime) :
  queryMax (targetDB w) (tableName s) (tc_TimeField (tableConfig s)) = inl maxTimeTarget ->
  queryMax (sourceDB w) (tableName s) (tc_TimeField (tableConfig s)) = inl maxTimeSource ->
  ~ definedAt (clock w (ticks w)) maxTimeSource ->
  runRealtime s w
  = (None, set_ticks (set_skipCheckpoint
                        (set_logs w (logs w ++ [(tableName s, LogEnterRealtime)])) true)
                     (S (ticks w))).
Proof.
  intros Ht Hs Hns. unfold runRealtime.
  unfold bind at 1, log_Printf at 1, modify at 1.
  unfold bind at 1, modify at 1.
  rewrite (realtimeIncrementalSync_probed s (set_skipCheckpoint (set_logs w _) true)
             maxTimeTarget maxTimeSource Ht Hs).
  wsimpl. apply timeValid_not_definedAt in Hns. unfold realtimeWindow. rewrite Hns.
  destruct (timeValid maxTimeTarget (Add (clock w (ticks w)) (24 * Hour))); reflexivity.
Qed.

(** C1, as amended (the strategy of the smart mode).  A probe is defined
    when it is not null and lies after 1900-01-01 and before [now] plus
    24 hours, both ends excluded.  With neither probe defined the sync
    returns [ErrSourceTableEmpty]; with the target not defined and the
    source defined it runs the catch-up and then the realtime mode; with
    the target defined and the source not, it runs the realtime mode,
    which returns at once when the source is still not defined at its own
    reading of the clock; with both defined it runs the catch-up and then
    the realtime mode when the lag of the target behind the source, as a
    [Duration], is above the threshold, and the realtime mode alone when
    it is not. *)
Theorem SyncWithRealtimeMode_strategy (s : UniversalSyncer) (realtimeThreshold : Z)
    (w : World) (maxTimeTarget maxTimeSource : NullTime) :
  queryMax (targetDB w) (tableName s) (tc_TimeField (tableConfig s)) = inl maxTimeTarget ->
  queryMax (sourceDB w) (tableName s) (tc_TimeField (tableConfig s)) = inl maxTimeSource ->
  let now := clock w (ticks w) in
  let w1 := set_ticks w (S (ticks w)) in
  let targetMax := nt_Time maxTimeTarget in
  let sourceMax := nt_Time maxTimeSource in
  let lag := Sub sourceMax targetMax in
  (~ definedAt now maxTimeTarget -> ~ definedAt now maxTimeSource ->
   SyncWithRealtimeMode s realtimeThreshold w
   = (Some ErrSourceTableEmpty,
      set_logs w1 (logs w ++ [(tableName s, LogSkipNoSourceData)])))
  /\ (~ definedAt now maxTimeTarget -> definedAt now maxTimeSource ->
      SyncWithRealtimeMode s realtimeThreshold w
      = runCatchupThenRealtime s
          (set_logs w1 (logs w ++ [(tableName s, LogInitialSync)])))
  /\ (definedAt now maxTimeTarget -> ~ definedAt now maxTimeSource ->
      SyncWithRealtimeMode s realtimeThreshold w = runRealtime s w1
      /\ (~ definedAt (clock w (S (ticks w))) maxTimeSource ->
          SyncWithRealtimeMode s realtimeThreshold w
          = (None, set_ticks (set_skipCheckpoint
                                (set_logs w1 (logs w ++ [(tableName s, LogEnterRealtime)]))
                                true)
                             (S (S (ticks w))))))
  /\ (definedAt now maxTimeTarget -> definedAt now maxTimeSource ->
      realtimeThreshold < lag ->
      SyncWithRealtimeMode s realtimeThreshold w
      = runCatchupThenRealtime s
          (set_logs w1 (logs w ++ [(tableName s, LogLagCatchup lag sourceMax targetMax)])))
  /\ (definedAt now maxTimeTarget -> definedAt now maxTimeSource ->
      lag <= realtimeThreshold ->
      SyncWithRealtimeMode s realtimeThreshold w = runRealtime s w1)
  /\ (- 2 ^ 63 <= unixNano sourceMax - unixNano targetMax < 2 ^ 63 ->
      lag = unixNano sourceMax - unixNano targetMax).
Proof.
  intros Ht Hs now w1 targetMax sourceMax lag.
  rewrite (SyncWithRealtimeMode_probed s realtimeThreshold w _ _ Ht Hs).
  fold now. fold w1. unfold chooseStrategy. fold targetMax sourceMax lag.
  split; [|split; [|split; [|split; [|split]]]].
  - intros Hnt Hns. apply timeValid_not_definedAt in Hnt. apply timeValid_not_definedAt in Hns.
    rewrite Hnt, Hns. reflexivity.
  - intros Hnt Hds. apply timeValid_not_definedAt in Hnt. apply timeValid_definedAt in Hds.
    rewrite Hnt, Hds. reflexivity.
  - intros Hdt Hns. apply timeValid_definedAt in Hdt. apply timeValid_not_definedAt in Hns.
    rewrite Hdt, Hns. cbn [negb]. split; [reflexivity|]. intros Hns'.
    apply (runRealtime_source_undefined s w1 maxTimeTarget maxTimeSource Ht Hs Hns').
  - intros Hdt Hds Hlag. apply timeValid_definedAt in Hdt. apply timeValid_definedAt in Hds.
    rewrite Hdt, Hds. cbn [negb].
    replace (realtimeThreshold <? lag) with true by lia. reflexivity.
  - intros Hdt Hds Hlag. apply timeValid_definedAt in Hdt. apply timeValid_definedAt in Hds.
    rewrite Hdt, Hds. cbn [negb].
    replace (realtimeThreshold <? lag) with false by lia. reflexivity.
  - apply Sub_exact.
Qed.

End WithLibs.

(** C1, as the specification has it, fails at the lower end of the
    range: with a target whose newest time is 1900-01-01T00:00:00Z and an
    empty source, the target is defined in the words of the
    specification, whose table then asks for the realtime mode; the code
    takes neither probe as defined and returns [ErrSourceTableEmpty]. *)
Lemma strategy_boundary_counterexample :
  let w := Demo.world [] [Demo.row 1 (Date 1900 1 1 0 0 0 0 UTC) "1"]
                      (Date 2024 1 2 13 0 0 0 UTC) true in
  let now := clock w (ticks w) in
  let maxTimeTarget := mkNullTime (Date 1900 1 1 0 0 0 0 UTC) true in
  queryMax (targetDB w) "events" "ts" = inl maxTimeTarget
  /\ queryMax (sourceDB w) "events" "ts" = inl nullTime
  /\ specDefined now maxTimeTarget = true
  /\ specDefined now nullTime = false
  /\ specStrategy maxTimeTarget nullTime now (300 * Second) = RealtimeOnly
  /\ chooseStrategy maxTimeTarget nullTime now (300 * Second) = SkipSourceEmpty
  /\ fst (@SyncWithRealtimeMode Demo.libs (Demo.syncer true) (300 * Second) w)
     = Some ErrSourceTableEmpty.
Proof. vm_compute. repeat split; reflexivity. Qed.

(** The theorem at the first run of the small installation: the target
    is empty, the source has ten rows. *)
Lemma SyncWithRealtimeMode_strategy_witness :
  let w := Demo.world Demo.tenRows [] (Date 2024 1 2 13 0 0 0 UTC) true in
  @SyncWithRealtimeMode Demo.libs (Demo.syncer true) (300 * Second) w
  = @runCatchupThenRealtime Demo.libs (Demo.syncer true)
      (set_logs (set_ticks w (S (ticks w))) (logs w ++ [("events", LogInitialSync)])).
Proof.
  intros w.
  assert (Ht : queryMax (targetDB w) "events" "ts" = inl nullTime)
    by (vm_compute; reflexivity).
  assert (Hs : queryMax (sourceDB w) "events" "ts"
               = inl (mkNullTime (Date 2024 1 2 12 0 0 0 UTC) true))
    by (vm_compute; reflexivity).
  apply (proj1 (proj2 (@SyncWithRealtimeMode_strategy Demo.libs (Demo.syncer true)
                         (300 * Second) w _ _ Ht Hs))).
  - intros [H _]. vm_compute in H. discriminate.
  - unfold definedAt. vm_compute. repeat split; reflexivity.
Defined.


(** The switch of databases of the specification: the newest time of the
    target is 12:00:10, that of the source 12:00:02; the window is from
    11:55:10 to 12:00:03 and the two lines are logged. *)
Example realtime_failover :
  let w := Demo.world [Demo.row 1 (Date 2024 1 2 12 0 2 0 UTC) "1"]
                      [Demo.row 1 (Date 2024 1 2 12 0 2 0 UTC) "1";
                       Demo.row 2 (Date 2024 1 2 12 0 10 0 UTC) "1"]
                      (Date 2024 1 2 12 0 11 0 UTC) true in
  let r := @realtimeIncrementalSync Demo.libs (Demo.syncer true) w in
  fst r = None
  /\ firstn 3 (logs (snd r))
     = [("events", LogFailoverDetected (Date 2024 1 2 12 0 2 0 UTC)
                                       (Date 2024 1 2 12 0 10 0 UTC));
        ("events", LogBacktrack (5 * Minute));
        ("events", LogNewRecords 1 (Date 2024 1 2 11 55 10 0 UTC)
                                 (Date 2024 1 2 12 0 3 0 UTC))]
  /\ length (tableRows (targetDB (snd r)) "events") = 2%nat.
Proof. vm_compute. repeat split; reflexivity. Qed.

End StrategyFacts.

Module RangeFacts.
Import CalendarFacts StrategyFacts.

(** A time is its local day and the time of day, the latter in hours,
    minutes, seconds and nanoseconds. *)
Lemma nanoOfDay_split (t : Time) :
  (HourOf t * 3600 + MinuteOf t * 60 + SecondOf t) * Second + NanosecondOf t = nanoOfDay t
  /\ 0 <= HourOf t < 24 /\ 0 <= MinuteOf t < 60 /\ 0 <= SecondOf t < 60
  /\ 0 <= NanosecondOf t < Second.
Proof.
  unfold HourOf, MinuteOf, SecondOf, NanosecondOf.
  assert (Hn : 0 <= nanoOfDay t < nsPerDay) by (apply Z.mod_pos_bound; reflexivity).
  revert Hn. generalize (nanoOfDay t). intros n Hn.
  change nsPerDay with 86400000000000 in Hn.
  change Hour with 3600000000000. change Minute with 60000000000.
  change Second with 1000000000.
  pose proof (Z.div_mod n 3600000000000 ltac:(lia)).
  pose proof (Z.mod_pos_bound n 3600000000000 ltac:(lia)).
  pose proof (Z.div_mod (n mod 3600000000000) 60000000000 ltac:(lia)).
  pose proof (Z.mod_pos_bound (n mod 3600000000000) 60000000000 ltac:(lia)).
  pose proof (Z.div_mod (n mod 60000000000) 1000000000 ltac:(lia)).
  pose proof (Z.mod_pos_bound (n mod 60000000000) 1000000000 ltac:(lia)).
  assert (Hmm : (n mod 3600000000000) mod 60000000000 = n mod 60000000000).
  { apply Z.mod_mod_divide. exists 60; reflexivity. }
  assert (Hms : (n mod 60000000000) mod 1000000000 = n mod 1000000000).
  { apply Z.mod_mod_divide. exists 60; reflexivity. }
  revert H H0 H1 H2 H3 H4 Hmm Hms.
  generalize (n / 3600000000000) (n mod 3600000000000)
             (n mod 3600000000000 / 60000000000) (n mod 60000000000)
             (n mod 60000000000 / 1000000000) (n mod 1000000000)
             ((n mod 3600000000000) mod 60000000000)
             ((n mod 60000000000) mod 1000000000).
  intros. lia.
Qed.

(** [Date] on fields that are in range does not normalise anything. *)
Lemma Date_in_range (y m d h mi sc ns : Z) (l : Loc) :
  1 <= m <= 12 -> 0 <= h < 24 -> 0 <= mi < 60 -> 0 <= sc < 60 -> 0 <= ns < Second ->
  Date y m d h mi sc ns l
  = mkTime (wallToUnix l ((days_from_civil y m 1 + (d - 1)) * secondsPerDay
                          + (h * 3600 + mi * 60 + sc)) * Second + ns) l.
Proof.
  intros Hm Hh Hmi Hs Hns. unfold Date, norm.
  rewrite (Z.div_small (m - 1) 12), (Z.mod_small (m - 1) 12) by lia.
  rewrite (Z.div_small ns Second), (Z.mod_small ns Second) by lia.
  rewrite (Z.add_0_r sc).
  rewrite (Z.div_small sc 60), (Z.mod_small sc 60) by lia.
  rewrite (Z.add_0_r mi).
  rewrite (Z.div_small mi 60), (Z.mod_small mi 60) by lia.
  rewrite (Z.add_0_r h).
  rewrite (Z.div_small h 24), (Z.mod_small h 24) by lia.
  rewrite (Z.add_0_r d), (Z.add_0_r y).
  replace (m - 1 + 1) with m by lia. reflexivity.
Qed.

(** In a location without transitions [AddDate(0, 0, k)] moves a time by
    [k] times 24 hours. *)
Lemma AddDate_days (t : Time) (k : Z) :
  loc_tx (Location t) = [] ->
  AddDate t 0 0 k = mkTime (unixNano t + k * nsPerDay) (Location t).
Proof.
  intros Hfix. unfold AddDate, Year, Month, Day, Location in *.
  destruct (civil_from_days (localDays t)) as [[y m] d] eqn:E.
  destruct (days_from_civil_from_days _ _ _ _ E) as (Hz & Hm & Hd).
  destruct (nanoOfDay_split t) as (Hsplit & Hh & Hmi & Hs & Hns).
  cbn [fst snd].
  rewrite Date_in_range by lia.
  rewrite (wallToUnix_steady _ _ (offset t))
    by (unfold offset; rewrite !offsetAt_fixed by exact Hfix; reflexivity).
  replace (days_from_civil (y + 0) (m + 0) 1 + (d + k - 1))
    with (days_from_civil y m d + k).
  2:{ rewrite !Z.add_0_r. unfold days_from_civil, doe_of_civil. lia. }
  rewrite Hz. f_equal.
  assert (Hu : unixNano t = localDays t * nsPerDay + nanoOfDay t - offset t * Second).
  { unfold localDays, nanoOfDay.
    pose proof (Z.div_mod (localNano t) nsPerDay ltac:(discriminate)).
    unfold localNano in *. lia. }
  rewrite Hu, <- Hsplit.
  generalize (localDays t) (HourOf t) (MinuteOf t) (SecondOf t) (NanosecondOf t) (offset t).
  intros. unfold nsPerDay, secondsPerDay.
  change Second with 1000000000. lia.
Qed.

Section Range.
Context {L : GoLibs}.

Lemma timeValid_validBefore (upper : Time) (nt : NullTime) :
  timeValid nt upper = true <-> validBefore upper nt.
Proof.
  unfold timeValid, validBefore, After, Before.
  generalize (unixNano minValidTime) (unixNano (nt_Time nt)) (unixNano upper).
  intros a b c. destruct (nt_Valid nt); cbn [andb].
  - rewrite andb_true_iff, !Z.ltb_lt. intuition lia.
  - split; [discriminate | intros [? _]; discriminate].
Qed.

Lemma timeValid_not_validBefore (upper : Time) (nt : NullTime) :
  timeValid nt upper = false <-> ~ validBefore upper nt.
Proof.
  rewrite <- timeValid_validBefore. destruct (timeValid nt upper).
  - split; [discriminate | intros H; now destruct H].
  - split; [discriminate | reflexivity].
Qed.

(** What a world keeps when only the clock is read and lines are logged. *)
Definition sameStores (w w' : World) : Prop :=
  sourceDB w' = sourceDB w /\ targetDB w' = targetDB w
  /\ stateMgr w' = stateMgr w /\ fs w' = fs w /\ skipCheckpoint w' = skipCheckpoint w.

Ltac branches :=
  repeat first
    [ progress (unfold bind, gets, ret, modify, log_Printf, time_Now; wsimpl)
    | match goal with
      | |- context [match ?x with _ => _ end] => destruct x
      end ];
  repeat split; reflexivity.

Lemma determineEndTime_sameStores (s : UniversalSyncer) (w : World) :
  sameStores w (snd (determineEndTime s w)).
Proof. unfold sameStores, determineEndTime. branches. Qed.

Lemma determineStartTime_sameStores (s : UniversalSyncer) (endTime : Time) (w : World) :
  sameStores w (snd (determineStartTime s endTime w)).
Proof. unfold sameStores, determineStartTime. branches. Qed.

Lemma sameStores_trans (w1 w2 w3 : World) :
  sameStores w1 w2 -> sameStores w2 w3 -> sameStores w1 w3.
Proof. unfold sameStores. intuition congruence. Qed.

Lemma determineTimeRange_sameStores (s : UniversalSyncer) (w : World) :
  sameStores w (snd (determineTimeRange s w)).
Proof.
  unfold determineTimeRange, bind, log_Printf, modify. wsimpl.
  set (w0 := set_logs w _).
  assert (H0 : sameStores w w0) by (repeat split; reflexivity).
  pose proof (determineEndTime_sameStores s w0) as H1.
  destruct (determineEndTime s w0) as [[e | err] w1]; wsimpl in H1; wsimpl;
    [| exact (sameStores_trans _ _ _ H0 H1)].
  pose proof (determineStartTime_sameStores s e w1) as H2.
  destruct (determineStartTime s e w1) as [[b | err] w2]; wsimpl in H2; wsimpl;
    [| exact (sameStores_trans _ _ _ H0 (sameStores_trans _ _ _ H1 H2))].
  unfold ret. wsimpl.
  apply (sameStores_trans _ _ _ H0), (sameStores_trans _ _ _ H1), (sameStores_trans _ _ _ H2).
  repeat split; reflexivity.
Qed.

(** C6, as the code has it.  The end of the catch-up range is the
    configured end when there is one; without one it is the newest time
    of the source plus one second when that time is not null and lies
    strictly between 1900-01-01 and the clock plus 24 hours, and the
    source-table-empty error otherwise.  With automatic detection, the
    start is the newest time of the target plus one millisecond when that
    time is not null and lies strictly between 1900-01-01 and the end of
    the range plus 24 hours; otherwise the error is the source-table-empty
    one when the oldest or the newest time of the source is null, and the
    start is the later of the oldest time of the source and the clock
    moved back by the fallback days with [AddDate] when neither is null:
    the same time of day that many calendar days earlier in the location
    of the clock, which is that many times 24 hours earlier when the
    location has no change of clocks.  Without automatic
    detection a configured start is the start.  The range is the start
    and the end so found, and when the start is not before the end the
    incremental sync returns no error, logs one line and leaves both
    databases, the state and the files as they were. *)
Theorem determineTimeRange_window (s : UniversalSyncer) (w : World) :
  let tr := cfg_TimeRange (config s) in
  let table := tableName s in
  let tf := tc_TimeField (tableConfig s) in
  let now := clock w (ticks w) in
  (forall e, trc_End tr <> "" -> time_Parse_RFC3339 (trc_End tr) = Some e ->
     fst (determineEndTime s w) = inl e)
  /\ (forall maxTimeSource,
        trc_End tr = "" -> queryMax (sourceDB w) table tf = inl maxTimeSource ->
        (definedAt now maxTimeSource ->
         fst (determineEndTime s w) = inl (Add (nt_Time maxTimeSource) (1 * Second)))
        /\ (~ definedAt now maxTimeSource ->
            fst (determineEndTime s w) = inr ErrSourceTableEmpty))
  /\ (forall endTime maxTimeTarget,
        trc_AutoDetect tr = true -> queryMax (targetDB w) table tf = inl maxTimeTarget ->
        (validBefore (Add endTime (24 * Hour)) maxTimeTarget ->
         fst (determineStartTime s endTime w)
         = inl (Add (nt_Time maxTimeTarget) (1 * Millisecond)))
        /\ (forall minTimeSource maxTimeSource,
              ~ validBefore (Add endTime (24 * Hour)) maxTimeTarget ->
              queryMinMax (sourceDB w) table tf = inl (minTimeSource, maxTimeSource) ->
              (nt_Valid minTimeSource = false \/ nt_Valid maxTimeSource = false ->
               fst (determineStartTime s endTime w) = inr ErrSourceTableEmpty)
              /\ (nt_Valid minTimeSource = true -> nt_Valid maxTimeSource = true ->
                  exists startTime,
                    fst (determineStartTime s endTime w) = inl startTime
                    /\ unixNano startTime
                       = Z.max (unixNano (nt_Time minTimeSource))
                               (unixNano (AddDate now 0 0 (- trc_FallbackDays tr)))
                    /\ (loc_tx (Location now) = [] ->
                        unixNano (AddDate now 0 0 (- trc_FallbackDays tr))
                        = unixNano now - trc_FallbackDays tr * nsPerDay))))
  /\ (forall endTime startTime,
        trc_AutoDetect tr = false -> trc_Start tr <> "" ->
        time_Parse_RFC3339 (trc_Start tr) = Some startTime ->
        fst (determineStartTime s endTime w) = inl startTime)
  /\ (forall endTime startTime,
        let w0 := set_logs w (logs w ++ [(table, LogRangeBegin)]) in
        fst (determineEndTime s w0) = inl endTime ->
        fst (determineStartTime s endTime (snd (determineEndTime s w0))) = inl startTime ->
        fst (determineTimeRange s w) = inl (mkRange startTime endTime))
  /\ (forall timeRange,
        fst (determineTimeRange s w) = inl timeRange ->
        unixNano (tr_End timeRange) <= unixNano (tr_Start timeRange) ->
        let r := incrementalSync s w in
        fst r = None
        /\ logs (snd r) = logs (snd (determineTimeRange s w)) ++ [(table, LogUpToDate)]
        /\ sameStores w (snd r)).
Proof.
  intros tr table tf now.
  split; [|split; [|split; [|split; [|split]]]].
  - intros e Hne Hp. unfold determineEndTime. fold tr.
    apply String.eqb_neq in Hne. rewrite Hne, Hp. reflexivity.
  - intros ms He Hq. unfold determineEndTime. fold tr table tf.
    rewrite He. cbn [String.eqb negb].
    unfold bind, gets, time_Now. wsimpl. rewrite Hq. wsimpl. fold now.
    split; intros Hd.
    + apply timeValid_definedAt in Hd. rewrite Hd. reflexivity.
    + apply timeValid_not_definedAt in Hd. rewrite Hd. reflexivity.
  - intros endTime mt Ha Hq. unfold determineStartTime. fold tr table tf.
    rewrite Ha. unfold bind, gets, log_Printf, modify, time_Now. wsimpl.
    rewrite Hq. split.
    + intros Hv. apply timeValid_validBefore in Hv. rewrite Hv. reflexivity.
    + intros mn mx Hv Hmm. apply timeValid_not_validBefore in Hv. rewrite Hv.
      wsimpl. rewrite Hmm. split.
      * intros [Hn | Hn]; rewrite Hn; cbn [negb orb]; [reflexivity|].
        rewrite orb_true_r. reflexivity.
      * intros Hmn Hmx. rewrite Hmn, Hmx. cbn [negb orb]. wsimpl. fold now.
        unfold After.
        destruct (unixNano (AddDate now 0 0 (- trc_FallbackDays tr))
                  <? unixNano (nt_Time mn)) eqn:E;
          eexists; (split; [reflexivity|]); (split; [lia|]);
          intros Hfix; rewrite (AddDate_days now _ Hfix); cbn [unixNano]; lia.
  - intros endTime startTime Ha Hne Hp. unfold determineStartTime. fold tr.
    apply String.eqb_neq in Hne. rewrite Ha, Hne, Hp. reflexivity.
  - intros endTime startTime w0 He Hb.
    unfold determineTimeRange, bind, log_Printf, modify. wsimpl. fold table w0.
    destruct (determineEndTime s w0) as [e w1]. wsimpl in He. wsimpl in Hb. subst e.
    destruct (determineStartTime s endTime w1) as [b w2]. wsimpl in Hb. subst b.
    reflexivity.
  - intros timeRange Hr Hle r. subst r.
    pose proof (determineTimeRange_sameStores s w) as Hs.
    unfold incrementalSync, bind.
    destruct (determineTimeRange s w) as [q w1]. wsimpl in Hr. wsimpl in Hs. subst q.
    replace (Before (tr_Start timeRange) (tr_End timeRange)) with false
      by (unfold Before; lia).
    cbn [negb]. unfold log_Printf, modify, ret. wsimpl. fold table.
    split; [reflexivity | split; [reflexivity|]].
    apply (sameStores_trans _ _ _ Hs). repeat split; reflexivity.
Qed.

End Range.

(** The newest time of the target is ten days after that of the source,
    both in the past: a valid time in the words of the specification,
    yet the start of the range is the oldest time of the source and not
    the newest time of the target plus one millisecond. *)
Lemma window_start_counterexample :
  let now := Date 2024 1 31 0 0 0 0 UTC in
  let w := Demo.world [Demo.row 1 (Date 2024 1 10 0 0 0 0 UTC) "1";
                       Demo.row 2 (Date 2024 1 20 0 0 0 0 UTC) "1"]
                      [Demo.row 3 (Date 2024 1 30 0 0 0 0 UTC) "1"] now true in
  let maxTimeTarget := mkNullTime (Date 2024 1 30 0 0 0 0 UTC) true in
  queryMax (targetDB w) "events" "ts" = inl maxTimeTarget
  /\ specDefined now maxTimeTarget = true
  /\ fst (@determineTimeRange Demo.libs (Demo.syncer true) w)
     = inl (mkRange (Date 2024 1 10 0 0 0 0 UTC) (Date 2024 1 20 0 0 1 0 UTC))
  /\ Date 2024 1 10 0 0 0 0 UTC <> Add (nt_Time maxTimeTarget) (1 * Millisecond).
Proof.
  vm_compute. split; [reflexivity | split; [reflexivity | split; [reflexivity|]]].
  discriminate.
Qed.

(** The range of a first run and that of a later one: the target is
    empty and the source starts less than thirty days ago, then the
    target holds the first four rows. *)
Example catchup_ranges :
  let now := Date 2024 1 3 0 0 0 0 UTC in
  fst (@determineTimeRange Demo.libs (Demo.syncer true)
         (Demo.world Demo.tenRows [] now true))
  = inl (mkRange (Date 2024 1 1 0 0 0 0 UTC) (Date 2024 1 2 12 0 1 0 UTC))
  /\ fst (@determineTimeRange Demo.libs (Demo.syncer true)
            (Demo.world Demo.tenRows (firstn 4 Demo.tenRows) now true))
     = inl (mkRange (Date 2024 1 1 12 0 0 1000000 UTC) (Date 2024 1 2 12 0 1 0 UTC))
  /\ fst (@incrementalSync Demo.libs (Demo.syncer true)
            (Demo.world [] [] now true))
     = Some ErrSourceTableEmpty.
Proof. vm_compute. repeat split; reflexivity. Qed.

End RangeFacts.

Module FoldFacts.

(** A map used as a set, filled with the keys of a list. *)
Lemma keySet_fold {A : Type} (key : A -> string) (l : list A) (acc : gmap string bool)
    (k : string) :
  default false (fold_left (fun keySet x => <[key x := true]> keySet) l acc !! k) = true
  <-> default false (acc !! k) = true \/ k ∈ map key l.
Proof.
  revert acc. induction l as [|x l IH]; intros acc; cbn [fold_left map].
  - split; [auto | intros [H|H]; [exact H | inversion H]].
  - rewrite IH. destruct (decide (key x = k)) as [Heq|Hne].
    + rewrite Heq, lookup_insert_eq. cbn [default]. split; intros _; [right; left | now left].
    + rewrite lookup_insert_ne by exact Hne. split.
      * intros [H|H]; [now left | right; now right].
      * intros [H|H]; [now left|]. apply elem_of_cons in H as [H|H]; [congruence | now right].
Qed.

Lemma keySet_fold_empty {A : Type} (key : A -> string) (l : list A) (k : string) :
  default false (fold_left (fun keySet x => <[key x := true]> keySet) l
                           (∅ : gmap string bool) !! k) = true
  <-> k ∈ map key l.
Proof.
  rewrite keySet_fold, lookup_empty. cbn [default].
  split; [intros [H|H]; [discriminate | exact H] | now right].
Qed.

(** A slice built by appending the elements that are kept. *)
Lemma append_fold {A : Type} (P : A -> Prop) `{forall x, Decision (P x)}
    (keep : A -> bool) (l : list A) :
  (forall x, keep x = true <-> P x) ->
  forall acc,
    fold_left (fun kept x => if keep x then kept ++ [x] else kept) l acc
    = acc ++ filter P l.
Proof.
  intros Hk. induction l as [|x l IH]; intros acc; cbn [fold_left].
  - now rewrite app_nil_r.
  - rewrite IH. destruct (keep x) eqn:E.
    + rewrite filter_cons_True by now apply Hk. now rewrite <- app_assoc.
    + rewrite filter_cons_False; [reflexivity|]. intros HP. apply Hk in HP. congruence.
Qed.

Lemma filter_twice {A : Type} (P : A -> Prop) `{forall x, Decision (P x)} (l : list A) :
  filter P (filter P l) = filter P l.
Proof.
  induction l as [|x l IH]; [reflexivity|].
  destruct (decide (P x)) as [HP|HP].
  - rewrite !filter_cons_True by exact HP. now rewrite IH.
  - now rewrite !filter_cons_False by exact HP.
Qed.

Lemma filter_none {A : Type} (P : A -> Prop) `{forall x, Decision (P x)} (l : list A) :
  (forall x, x ∈ l -> ~ P x) -> filter P l = [].
Proof.
  induction l as [|x l IH]; intros Hn; [reflexivity|].
  rewrite filter_cons_False by (apply Hn; left).
  apply IH. intros y Hy. apply Hn. now right.
Qed.

Lemma forallb_same {A : Type} (f g : A -> bool) (l : list A) :
  (forall x, f x = g x) -> forallb f l = forallb g l.
Proof.
  intros H. induction l as [|x l IH]; [reflexivity|]. cbn [forallb]. now rewrite H, IH.
Qed.

End FoldFacts.

Module CheckpointFacts.
Import IntFacts StateFacts.

Lemma saveStateUnlocked_tables (w : World) :
  Tables (state (stateMgr (snd (saveStateUnlocked w)))) = Tables (state (stateMgr w)).
Proof.
  destruct (saveStateUnlocked_spec w) as (Hst & _). cbn zeta in Hst. now rewrite Hst.
Qed.

Lemma MarkSegmentCompleted_tables (tableName : string) (segment : TimeSegment)
    (recordCount : Z) (w : World) :
  let old := default (mkTableState "in_progress" zeroTime 0 [])
                     (Tables (state (stateMgr w)) !! tableName) in
  Tables (state (stateMgr (snd (MarkSegmentCompleted tableName segment recordCount w))))
  = <[tableName := mkTableState (Status old) (clock w (ticks w))
                     (int_add (RecordsSynced old) recordCount)
                     (CompletedSegments old ++ [segment])]>
      (Tables (state (stateMgr w))).
Proof.
  intros old. rewrite MarkSegmentCompleted_eq. cbn [snd].
  rewrite saveStateUnlocked_tables. reflexivity.
Qed.

Lemma IsSegmentCompleted_eq (tableName : string) (segment : TimeSegment) (w : World) :
  fst (IsSegmentCompleted tableName segment w)
  = match Tables (state (stateMgr w)) !! tableName with
    | Some tableState =>
        existsb (fun completed => segmentEqual completed segment)
                (CompletedSegments tableState)
    | None => false
    end.
Proof.
  unfold IsSegmentCompleted, bind, gets, ret. cbn [fst snd].
  destruct (Tables (state (stateMgr w)) !! tableName); reflexivity.
Qed.

Lemma segmentEqual_refl (segment : TimeSegment) : segmentEqual segment segment = true.
Proof. unfold segmentEqual, Equal. now rewrite !Z.eqb_refl. Qed.

(** The answers of [IsSegmentCompleted] after a segment was marked. *)
Lemma IsSegmentCompleted_mark (tableName : string) (segment : TimeSegment)
    (recordCount : Z) (w : World) (table' : string) (segment' : TimeSegment) :
  fst (IsSegmentCompleted table' segment'
         (snd (MarkSegmentCompleted tableName segment recordCount w)))
  = fst (IsSegmentCompleted table' segment' w)
    || (String.eqb table' tableName && segmentEqual segment segment').
Proof.
  rewrite !IsSegmentCompleted_eq, MarkSegmentCompleted_tables.
  destruct (String.eqb_spec table' tableName) as [->|Hne].
  - rewrite lookup_insert_eq. cbn [CompletedSegments andb].
    rewrite existsb_app. cbn [existsb]. rewrite orb_false_r.
    destruct (Tables (state (stateMgr w)) !! tableName); reflexivity.
  - rewrite lookup_insert_ne by congruence. cbn [andb]. now rewrite orb_false_r.
Qed.

Lemma saveStateUnlocked_skipCheckpoint (w : World) :
  skipCheckpoint (snd (saveStateUnlocked w)) = skipCheckpoint w.
Proof.
  unfold saveStateUnlocked, bind, time_Now, gets, modify, ret. wsimpl.
  destruct (json_MarshalIndent _); [|reflexivity].
  unfold os_WriteFile. wsimpl. destruct (fs_writable _ _); [|reflexivity].
  unfold os_Rename. wsimpl. destruct (_ !! _); [|reflexivity].
  destruct (fs_renamable _ _ _); reflexivity.
Qed.

Lemma MarkSegmentCompleted_skipCheckpoint (tableName : string) (segment : TimeSegment)
    (recordCount : Z) (w : World) :
  skipCheckpoint (snd (MarkSegmentCompleted tableName segment recordCount w))
  = skipCheckpoint w.
Proof.
  rewrite MarkSegmentCompleted_eq. cbn [snd]. now rewrite saveStateUnlocked_skipCheckpoint.
Qed.

(** X1.  A segment marked completed is completed from then on, whether
    the state could be saved or not; [IsSegmentCompleted] goes by the
    instants of the two ends, so the same segment in another time zone is
    completed as well; and marking changes the answer for no other
    segment and no other table. *)
Theorem IsSegmentCompleted_after_mark (tableName : string) (segment : TimeSegment)
    (recordCount : Z) (w : World) :
  let w' := snd (MarkSegmentCompleted tableName segment recordCount w) in
  fst (IsSegmentCompleted tableName segment w') = true
  /\ (forall off1 off2,
        fst (IsSegmentCompleted tableName
               (mkSegment (mkTime (unixNano (seg_Start segment)) off1)
                          (mkTime (unixNano (seg_End segment)) off2)) w') = true)
  /\ (forall table' segment',
        fst (IsSegmentCompleted table' segment' w')
        = fst (IsSegmentCompleted table' segment' w)
          || (String.eqb table' tableName && segmentEqual segment segment')).
Proof.
  intros w'.
  assert (Hframe : forall table' segment',
             fst (IsSegmentCompleted table' segment' w')
             = fst (IsSegmentCompleted table' segment' w)
               || (String.eqb table' tableName && segmentEqual segment segment')).
  { intros table' segment'. apply IsSegmentCompleted_mark. }
  split; [|split; [|exact Hframe]].
  - rewrite Hframe, String.eqb_refl, segmentEqual_refl. apply orb_true_r.
  - intros off1 off2. rewrite Hframe, String.eqb_refl.
    unfold segmentEqual, Equal. cbn [seg_Start seg_End unixNano].
    rewrite !Z.eqb_refl. apply orb_true_r.
Qed.

(** The table map after [MarkTableCompleted] and [MarkTableInProgress]. *)
Lemma MarkTableCompleted_tables (tableName : string) (w : World) :
  let old := default (mkTableState "" zeroTime 0 [])
                     (Tables (state (stateMgr w)) !! tableName) in
  Tables (state (stateMgr (snd (MarkTableCompleted tableName w))))
  = <[tableName := mkTableState "completed" (LastSyncedTime old) (RecordsSynced old)
                                (CompletedSegments old)]>
      (Tables (state (stateMgr w))).
Proof.
  intros old. unfold MarkTableCompleted.
  unfold bind at 1, gets at 1. unfold bind at 1, modify at 1. rewrite mark_tables.
  unfold bind at 1, ret.
  match goal with
  | |- context [saveStateUnlocked ?w1] =>
      pose proof (saveStateUnlocked_tables w1) as Hs;
      destruct (saveStateUnlocked w1) as [err w2]
  end.
  cbn [snd] in *. rewrite Hs. reflexivity.
Qed.

Lemma MarkTableInProgress_tables (tableName : string) (w : World) :
  let old := default (mkTableState "" zeroTime 0 [])
                     (Tables (state (stateMgr w)) !! tableName) in
  Tables (state (stateMgr (snd (MarkTableInProgress tableName w))))
  = <[tableName := mkTableState "in_progress" (LastSyncedTime old) (RecordsSynced old)
                                (CompletedSegments old)]>
      (Tables (state (stateMgr w))).
Proof.
  intros old. unfold MarkTableInProgress.
  unfold bind at 1, gets at 1. unfold bind at 1, modify at 1. rewrite mark_tables.
  unfold bind at 1, ret.
  match goal with
  | |- context [saveStateUnlocked ?w1] =>
      pose proof (saveStateUnlocked_tables w1) as Hs;
      destruct (saveStateUnlocked w1) as [err w2]
  end.
  cbn [snd] in *. rewrite Hs. reflexivity.
Qed.

(** A change of status alone keeps the answers of [IsSegmentCompleted]. *)
Lemma status_keeps_completed (tables : gmap string TableState) (tableName status : string)
    (table' : string) (segment' : TimeSegment) (w w' : World) :
  Tables (state (stateMgr w)) = tables ->
  (let old := default (mkTableState "" zeroTime 0 []) (tables !! tableName) in
   Tables (state (stateMgr w'))
   = <[tableName := mkTableState status (LastSyncedTime old) (RecordsSynced old)
                                 (CompletedSegments old)]> tables) ->
  fst (IsSegmentCompleted table' segment' w') = fst (IsSegmentCompleted table' segment' w).
Proof.
  intros Ht Ht'. cbn zeta in Ht'. rewrite !IsSegmentCompleted_eq, Ht', Ht.
  destruct (decide (tableName = table')) as [<-|Hne].
  - rewrite lookup_insert_eq. destruct (tables !! tableName); reflexivity.
  - now rewrite lookup_insert_ne by exact Hne.
Qed.

(** X2.  [MarkTableInProgress] and [MarkTableCompleted] set the status of
    the table and nothing else: its completed segments, its record count
    and the time of its last sync stay (a table the state does not hold
    starts with none, 0 and the zero time), the other tables stay, and so
    does every answer of [IsSegmentCompleted]. *)
Theorem MarkTable_keeps_checkpoints (tableName : string) (w : World) :
  let old := default (mkTableState "" zeroTime 0 [])
                     (Tables (state (stateMgr w)) !! tableName) in
  let wp := snd (MarkTableInProgress tableName w) in
  let wc := snd (MarkTableCompleted tableName w) in
  fst (GetTableState tableName wp)
  = Some (mkTableState "in_progress" (LastSyncedTime old) (RecordsSynced old)
                       (CompletedSegments old))
  /\ fst (GetTableState tableName wc)
     = Some (mkTableState "completed" (LastSyncedTime old) (RecordsSynced old)
                          (CompletedSegments old))
  /\ (forall table', table' <> tableName ->
        fst (GetTableState table' wp) = fst (GetTableState table' w)
        /\ fst (GetTableState table' wc) = fst (GetTableState table' w))
  /\ (forall table' segment',
        fst (IsSegmentCompleted table' segment' wp)
        = fst (IsSegmentCompleted table' segment' w)
        /\ fst (IsSegmentCompleted table' segment' wc)
           = fst (IsSegmentCompleted table' segment' w)).
Proof.
  intros old wp wc. subst wp wc. unfold GetTableState, gets. cbn [fst].
  pose proof (MarkTableInProgress_tables tableName w) as Hp.
  pose proof (MarkTableCompleted_tables tableName w) as Hc.
  cbn zeta in Hp, Hc. fold old in Hp, Hc.
  split; [|split; [|split]].
  - rewrite Hp. apply lookup_insert_eq.
  - rewrite Hc. apply lookup_insert_eq.
  - intros table' Hne. rewrite Hp, Hc.
    split; apply lookup_insert_ne; congruence.
  - intros table' segment'. split.
    + eapply status_keeps_completed; [reflexivity | exact Hp].
    + eapply status_keeps_completed; [reflexivity | exact Hc].
Qed.

(** *** The total of the record counts *)

Definition addRecords (_ : string) (tableState : TableState) (total : Z) : Z :=
  int_add total (RecordsSynced tableState).

Lemma int_add_assoc (a b c : Z) : int_add a (int_add b c) = int_add (int_add a b) c.
Proof.
  unfold int_add. rewrite wrap_int_add_l, (Z.add_comm a (wrap_int (b + c))), wrap_int_add_l.
  f_equal. lia.
Qed.

Lemma addRecords_comm (j1 j2 : string) (z1 z2 : TableState) (y : Z) :
  addRecords j1 z1 (addRecords j2 z2 y) = addRecords j2 z2 (addRecords j1 z1 y).
Proof.
  unfold addRecords, int_add. rewrite !wrap_int_add_l. f_equal. lia.
Qed.

Lemma total_insert (tables : gmap string TableState) (name : string) (new : TableState) :
  map_fold addRecords 0 (<[name := new]> tables)
  = int_add (map_fold addRecords 0 (delete name tables)) (RecordsSynced new).
Proof.
  rewrite <- insert_delete_eq.
  rewrite map_fold_insert_L; [reflexivity | | apply lookup_delete_eq].
  intros. apply addRecords_comm.
Qed.

Lemma total_lookup (tables : gmap string TableState) (name : string) (old : TableState) :
  tables !! name = Some old ->
  map_fold addRecords 0 tables
  = int_add (map_fold addRecords 0 (delete name tables)) (RecordsSynced old).
Proof.
  intros H. rewrite <- (insert_delete_id tables name old H) at 1.
  rewrite map_fold_insert_L; [reflexivity | | apply lookup_delete_eq].
  intros. apply addRecords_comm.
Qed.

Lemma total_range (tables : gmap string TableState) :
  in_int (map_fold addRecords 0 tables).
Proof.
  apply (map_fold_weak_ind (fun total _ => in_int total)).
  - unfold in_int. lia.
  - intros. apply int_add_range.
Qed.

(** X3.  [GetTotalRecordsSynced] after [MarkSegmentCompleted] with a
    count is the total before plus the count, in [int] arithmetic; the
    total of a state without tables is 0, and a change of status keeps
    the total. *)
Theorem GetTotalRecordsSynced_after_mark (tableName : string) (segment : TimeSegment)
    (recordCount : Z) (w : World) :
  fst (GetTotalRecordsSynced (snd (MarkSegmentCompleted tableName segment recordCount w)))
  = int_add (fst (GetTotalRecordsSynced w)) recordCount
  /\ (Tables (state (stateMgr w)) = ∅ -> fst (GetTotalRecordsSynced w) = 0)
  /\ fst (GetTotalRecordsSynced (snd (MarkTableInProgress tableName w)))
     = fst (GetTotalRecordsSynced w)
  /\ fst (GetTotalRecordsSynced (snd (MarkTableCompleted tableName w)))
     = fst (GetTotalRecordsSynced w).
Proof.
  unfold GetTotalRecordsSynced, gets. cbn [fst].
  change (fun (_ : string) (tableState : TableState) (total : Z) =>
            int_add total (RecordsSynced tableState)) with addRecords.
  rewrite MarkSegmentCompleted_tables, MarkTableInProgress_tables, MarkTableCompleted_tables.
  rewrite !total_insert. cbn [RecordsSynced].
  split; [|split; [|split]].
  - destruct (Tables (state (stateMgr w)) !! tableName) as [old|] eqn:E; cbn [default].
    + rewrite (total_lookup _ _ _ E). apply int_add_assoc.
    + rewrite delete_id by exact E. cbn [RecordsSynced]. rewrite int_add_assoc.
      f_equal. unfold int_add. rewrite Z.add_0_r. apply wrap_int_id, total_range.
  - intros ->. apply map_fold_empty.
  - destruct (Tables (state (stateMgr w)) !! tableName) as [old|] eqn:E; cbn [default].
    + now rewrite (total_lookup _ _ _ E).
    + rewrite delete_id by exact E. cbn [RecordsSynced]. unfold int_add.
      rewrite Z.add_0_r. apply wrap_int_id, total_range.
  - destruct (Tables (state (stateMgr w)) !! tableName) as [old|] eqn:E; cbn [default].
    + now rewrite (total_lookup _ _ _ E).
    + rewrite delete_id by exact E. cbn [RecordsSynced]. unfold int_add.
      rewrite Z.add_0_r. apply wrap_int_id, total_range.
Qed.


(** *** The mutex *)

(** X5.  [ClearState] never returns: it takes the mutex and calls
    [SaveState], which waits for the same mutex.  The state in memory is
    the fresh one by then, and no file has been written.  [SaveState]
    itself, called with the mutex free, returns what [saveStateUnlocked]
    returns and frees the mutex. *)
Theorem ClearState_blocks (w : World) :
  (exists w',
      Locking.ClearState false w = Locking.Blocked w'
      /\ state (stateMgr w')
         = mkSyncState ("sync_" +:+ Format_20060102_150405 (clock w (ticks w)))
                       (clock w (S (ticks w))) zeroTime ∅
      /\ fs w' = fs w)
  /\ Locking.ClearState true w = Locking.Blocked w
  /\ Locking.SaveState false w
     = Locking.Returns (fst (saveStateUnlocked w)) false (snd (saveStateUnlocked w)).
Proof.
  split; [|split].
  - eexists. split; [|split].
    + unfold Locking.ClearState, Locking.SaveState, Locking.lbind, Locking.Lock,
             Locking.lift, newSyncState, bind, time_Now, modify, ret.
      reflexivity.
    + reflexivity.
    + reflexivity.
  - reflexivity.
  - unfold Locking.SaveState, Locking.lbind, Locking.Lock, Locking.lift, Locking.Unlock,
           Locking.lret.
    destruct (saveStateUnlocked w). reflexivity.
Qed.

End CheckpointFacts.

Module ConfigFacts.
Import IntFacts FmtFacts.

Lemma length_zero_nil {A : Type} (l : list A) : (length l =? 0)%nat = true <-> l = [].
Proof. destruct l; cbn; split; congruence. Qed.

Lemma modeOk_iff (mode : string) :
  negb (String.eqb mode "full") && negb (String.eqb mode "incremental") = false
  <-> mode = "full" \/ mode = "incremental".
Proof.
  destruct (String.eqb_spec mode "full") as [->|H1]; cbn [negb andb].
  - split; [now left | reflexivity].
  - destruct (String.eqb_spec mode "incremental") as [->|H2]; cbn [negb].
    + split; [now right | reflexivity].
    + split; [discriminate | intros [?|?]; contradiction].
Qed.

Definition enabledNumber (tables : list TableConfig) : Z :=
  Z.of_nat (length (List.filter tc_Enabled tables)).

Lemma enabledNumber_bounds (tables : list TableConfig) :
  0 <= enabledNumber tables <= Z.of_nat (length tables).
Proof.
  unfold enabledNumber. induction tables as [|t ts IH]; cbn [List.filter length]; [lia|].
  destruct (tc_Enabled t); cbn [length]; lia.
Qed.

Lemma enabledNumber_pos (tables : list TableConfig) :
  0 < enabledNumber tables <-> exists table, table ∈ tables /\ tc_Enabled table = true.
Proof.
  unfold enabledNumber. induction tables as [|t ts IH]; cbn [List.filter length].
  - split; [lia | intros (x & Hx & _); inversion Hx].
  - destruct (tc_Enabled t) eqn:E; cbn [length].
    + split; [intros _; exists t; split; [left | exact E] | lia].
    + rewrite IH. split.
      * intros (x & Hx & He). exists x. split; [now right | exact He].
      * intros (x & Hx & He). apply elem_of_cons in Hx as [->|Hx]; [congruence|].
        exists x. split; assumption.
Qed.

(** The loop over the tables: an error at the first enabled table that is
    not valid, and the number of the enabled tables otherwise. *)
Lemma validateTables_spec (mode : string) (tables : list TableConfig) :
  forall i n, in_int n ->
    (validateTables mode i tables n = inl (wrap_int (n + enabledNumber tables))
     /\ forall table, table ∈ tables -> tc_Enabled table = true -> tableValid mode table)
    \/ ((exists err, validateTables mode i tables n = inr err)
        /\ exists table, table ∈ tables /\ tc_Enabled table = true
                         /\ ~ tableValid mode table).
Proof.
  unfold enabledNumber.
  induction tables as [|t ts IH]; intros i n Hn; cbn [validateTables List.filter].
  - left. split; [cbn; rewrite Z.add_0_r; now rewrite wrap_int_id|].
    intros x Hx. inversion Hx.
  - destruct (tc_Enabled t) eqn:E; cbn [negb].
    2:{ destruct (IH (i + 1) n Hn) as [[Heq Hall]|[Herr (x & Hx & He & Hbad)]].
        - left. split; [exact Heq|]. intros x Hx He.
          apply elem_of_cons in Hx as [->|Hx]; [congruence | now apply Hall].
        - right. split; [exact Herr|]. exists x. split; [now right | now split]. }
    destruct (String.eqb_spec (tc_Name t) "") as [Hname|Hname].
    { right. split; [eexists; reflexivity|]. exists t. split; [left|split; [exact E|]].
      intros (H & _). contradiction. }
    destruct (String.eqb_spec (tc_TimeField t) "") as [Htf|Htf].
    { right. split; [eexists; reflexivity|]. exists t. split; [left|split; [exact E|]].
      intros (_ & H & _). contradiction. }
    destruct (length (tc_DedupeKeys t) =? 0)%nat eqn:Ek.
    { right. split; [eexists; reflexivity|]. exists t. split; [left|split; [exact E|]].
      intros (_ & _ & H & _). apply length_zero_nil in Ek. contradiction. }
    destruct (negb (String.eqb (GetEffectiveMode t mode) "full")
              && negb (String.eqb (GetEffectiveMode t mode) "incremental")) eqn:Em.
    { right. split; [eexists; reflexivity|]. exists t. split; [left|split; [exact E|]].
      intros (_ & _ & _ & H). apply modeOk_iff in H. congruence. }
    assert (Hv : tableValid mode t).
    { split; [exact Hname|]. split; [exact Htf|]. split.
      - intros H. rewrite H in Ek. discriminate.
      - now apply modeOk_iff. }
    destruct (IH (i + 1) (int_add n 1) (int_add_range _ _))
      as [[Heq Hall]|[Herr (x & Hx & He & Hnv)]].
    + left. split.
      * rewrite Heq. unfold int_add. rewrite wrap_int_add_l.
        apply (f_equal inl), (f_equal wrap_int). cbn [length]. lia.
      * intros x Hx He. apply elem_of_cons in Hx as [->|Hx]; [exact Hv | now apply Hall].
    + right. split; [exact Herr|]. exists x. split; [now right | now split].
Qed.

Lemma CountEnabledTables_fold (tables : list TableConfig) :
  forall n, in_int n ->
    fold_left (fun count table => if tc_Enabled table then int_add count 1 else count)
              tables n
    = wrap_int (n + enabledNumber tables).
Proof.
  unfold enabledNumber.
  induction tables as [|t ts IH]; intros n Hn; cbn [fold_left List.filter].
  - cbn. rewrite Z.add_0_r. symmetry. now apply wrap_int_id.
  - destruct (tc_Enabled t).
    + rewrite IH by apply int_add_range. unfold int_add. rewrite wrap_int_add_l.
      apply (f_equal wrap_int). cbn [length]. lia.
    + now apply IH.
Qed.

(** X6.  On a configuration whose table list has a length an [int] can
    hold, [Validate] returns no error exactly when both databases have an
    address and a name, the mode is [full] or [incremental], some table
    is enabled, and every enabled table has a name, a time field, a
    dedup key and a mode, its own or the global one, that is [full] or
    [incremental]; a table that is not enabled is not looked at.  On such
    a configuration [CountEnabledTables] is positive. *)
Theorem Validate_accepts (c : ConfigFile) :
  Z.of_nat (length (cfg_Tables c)) < 2 ^ 63 ->
  (Validate c = None <-> validConfig c)
  /\ (Validate c = None -> 0 < CountEnabledTables (cfg_Tables c))
  /\ CountEnabledTables (cfg_Tables c)
     = Z.of_nat (length (List.filter tc_Enabled (cfg_Tables c))).
Proof.
  intros Hlen.
  pose proof (enabledNumber_bounds (cfg_Tables c)) as Hb.
  assert (Hw : wrap_int (0 + enabledNumber (cfg_Tables c)) = enabledNumber (cfg_Tables c)).
  { rewrite Z.add_0_l. apply wrap_int_id. unfold in_int. lia. }
  assert (Hcount : CountEnabledTables (cfg_Tables c) = enabledNumber (cfg_Tables c)).
  { unfold CountEnabledTables. rewrite CountEnabledTables_fold by (unfold in_int; lia).
    exact Hw. }
  assert (Hiff : Validate c = None <-> validConfig c).
  { unfold Validate, validConfig. cbn zeta.
    destruct (length (dbc_Addr (cfg_Source c)) =? 0)%nat eqn:E1.
    { apply length_zero_nil in E1. split; [discriminate | intros (H & _); contradiction]. }
    destruct (String.eqb_spec (dbc_Database (cfg_Source c)) "") as [E2|E2].
    { split; [discriminate | intros (_ & H & _); contradiction]. }
    destruct (length (dbc_Addr (cfg_Target c)) =? 0)%nat eqn:E3.
    { apply length_zero_nil in E3.
      split; [discriminate | intros (_ & _ & H & _); contradiction]. }
    destruct (String.eqb_spec (dbc_Database (cfg_Target c)) "") as [E4|E4].
    { split; [discriminate | intros (_ & _ & _ & H & _); contradiction]. }
    destruct (negb (String.eqb (sc_Mode (cfg_Sync (cfg_Rest c))) "full")
              && negb (String.eqb (sc_Mode (cfg_Sync (cfg_Rest c))) "incremental")) eqn:E5.
    { split; [discriminate|]. intros (_ & _ & _ & _ & H & _).
      apply modeOk_iff in H. congruence. }
    apply modeOk_iff in E5.
    assert (N1 : dbc_Addr (cfg_Source c) <> [])
      by (intros H; rewrite H in E1; discriminate).
    assert (N3 : dbc_Addr (cfg_Target c) <> [])
      by (intros H; rewrite H in E3; discriminate).
    destruct (length (cfg_Tables c) =? 0)%nat eqn:E6.
    { apply length_zero_nil in E6. split; [discriminate|].
      intros (_ & _ & _ & _ & _ & (x & Hx & _) & _). rewrite E6 in Hx. inversion Hx. }
    destruct (validateTables_spec (sc_Mode (cfg_Sync (cfg_Rest c))) (cfg_Tables c) 0 0)
      as [[Heq Hall]|[(err & Herr) (x & Hx & He & Hnv)]]; [unfold in_int; lia | |].
    - rewrite Heq, Hw.
      destruct (enabledNumber (cfg_Tables c) =? 0) eqn:E7.
      + split; [discriminate|]. intros (_ & _ & _ & _ & _ & Hex & _).
        apply enabledNumber_pos in Hex. lia.
      + split; [|reflexivity]. intros _.
        repeat (split; [assumption|]). split; [|exact Hall].
        apply enabledNumber_pos. lia.
    - rewrite Herr. split; [discriminate|].
      intros (_ & _ & _ & _ & _ & _ & Hall). destruct Hnv. now apply Hall. }
  split; [exact Hiff|]. split; [|exact Hcount].
  intros Hok. apply Hiff in Hok. destruct Hok as (_ & _ & _ & _ & _ & Hex & _).
  rewrite Hcount. now apply enabledNumber_pos.
Qed.


(** The theorem on the configuration file of the examples. *)
Lemma Validate_accepts_witness :
  (Validate DemoConfig.file = None <-> validConfig DemoConfig.file)
  /\ (Validate DemoConfig.file = None -> 0 < CountEnabledTables (cfg_Tables DemoConfig.file))
  /\ CountEnabledTables (cfg_Tables DemoConfig.file)
     = Z.of_nat (length (List.filter tc_Enabled (cfg_Tables DemoConfig.file))).
Proof. apply (Validate_accepts DemoConfig.file). vm_compute. reflexivity. Defined.

(** That file is accepted, although its second table has no name: the
    table is switched off.  Switched on, it is the error of the file. *)
Example Validate_examples :
  Validate DemoConfig.file = None
  /\ Validate (mkConfigFile (cfg_Source DemoConfig.file) (cfg_Target DemoConfig.file)
                 [Demo.tableCfg; mkTableConfig "" "" "" [] 0 true] (Demo.cfg true true))
     = Some (ErrMsg "table[1]: name is required")
  /\ Validate (mkConfigFile (cfg_Source DemoConfig.file) (cfg_Target DemoConfig.file)
                 [mkTableConfig "events" "" "ts" ["id"] 0 false] (Demo.cfg true true))
     = Some (ErrMsg "no enabled tables found").
Proof. vm_compute. repeat split; reflexivity. Qed.

End ConfigFacts.

Module UtilsFacts.
Import FoldFacts.

Section WithStrings.
Context {S : GoStrings}.

(** X7.  [FilterTables] with no name returns the tables as they are;
    with names it returns, in their order, the tables whose name is one
    of the trimmed names: a name that no table has selects nothing and
    is no error, a name given twice selects a table once, and the name of
    a table is not trimmed.  Filtering twice is filtering once. *)
Theorem FilterTables_selects (tables : list TableConfig) (selectedNames : list string) :
  FilterTables tables [] = tables
  /\ (selectedNames <> [] ->
      FilterTables tables selectedNames
      = filter (fun table => tc_Name table ∈ map strings_TrimSpace selectedNames) tables)
  /\ FilterTables (FilterTables tables selectedNames) selectedNames
     = FilterTables tables selectedNames
  /\ (selectedNames <> [] ->
      (forall table, table ∈ tables ->
                     tc_Name table ∉ map strings_TrimSpace selectedNames) ->
      FilterTables tables selectedNames = []).
Proof.
  assert (Hsel : forall ts, selectedNames <> [] ->
            FilterTables ts selectedNames
            = filter (fun table => tc_Name table ∈ map strings_TrimSpace selectedNames) ts).
  { intros ts Hne. unfold FilterTables.
    destruct selectedNames as [|n names]; [contradiction|]. cbn [length Nat.eqb].
    rewrite (append_fold (fun table => tc_Name table ∈ map strings_TrimSpace (n :: names))).
    - reflexivity.
    - intros t. apply keySet_fold_empty. }
  split; [reflexivity|]. split; [apply Hsel|]. split.
  - destruct selectedNames as [|n names]; [reflexivity|].
    rewrite !Hsel by discriminate. apply filter_twice.
  - intros Hne Hnone. rewrite Hsel by exact Hne. now apply filter_none.
Qed.

End WithStrings.

Section WithLibs.
Context {L : GoLibs}.

(** X8.  [ValidateTimeRange] returns no error exactly when a start that
    is given parses, an end that is given parses, and, when both are
    given, the start is not after the end: a start equal to the end is
    accepted.  A range it accepts, with automatic detection off, is the
    range [determineTimeRange] returns. *)
Theorem ValidateTimeRange_accepts (trc : TimeRangeConfig) :
  (ValidateTimeRange trc = None
   <-> (trc_Start trc = "" \/ exists t, time_Parse_RFC3339 (trc_Start trc) = Some t)
       /\ (trc_End trc = "" \/ exists t, time_Parse_RFC3339 (trc_End trc) = Some t)
       /\ (forall startTime endTime,
             trc_Start trc <> "" -> trc_End trc <> "" ->
             time_Parse_RFC3339 (trc_Start trc) = Some startTime ->
             time_Parse_RFC3339 (trc_End trc) = Some endTime ->
             unixNano startTime <= unixNano endTime))
  /\ (forall (s : UniversalSyncer) (w : World),
        cfg_TimeRange (config s) = trc ->
        ValidateTimeRange trc = None ->
        trc_AutoDetect trc = false -> trc_Start trc <> "" -> trc_End trc <> "" ->
        exists startTime endTime,
          time_Parse_RFC3339 (trc_Start trc) = Some startTime
          /\ time_Parse_RFC3339 (trc_End trc) = Some endTime
          /\ fst (determineTimeRange s w) = inl (mkRange startTime endTime)).
Proof.
  assert (Hiff : ValidateTimeRange trc = None
   <-> (trc_Start trc = "" \/ exists t, time_Parse_RFC3339 (trc_Start trc) = Some t)
       /\ (trc_End trc = "" \/ exists t, time_Parse_RFC3339 (trc_End trc) = Some t)
       /\ (forall startTime endTime,
             trc_Start trc <> "" -> trc_End trc <> "" ->
             time_Parse_RFC3339 (trc_Start trc) = Some startTime ->
             time_Parse_RFC3339 (trc_End trc) = Some endTime ->
             unixNano startTime <= unixNano endTime)).
  { unfold ValidateTimeRange, parseFails.
    destruct (String.eqb_spec (trc_Start trc) "") as [Es|Es]; cbn [negb andb].
    - destruct (String.eqb_spec (trc_End trc) "") as [Ee|Ee]; cbn [negb andb].
      + split; [|reflexivity]. intros _. split; [now left|]. split; [now left|].
        intros; contradiction.
      + destruct (time_Parse_RFC3339 (trc_End trc)) as [e|] eqn:Pe.
        * split; [|reflexivity]. intros _. split; [now left|]. split; [right; eauto|].
          intros; contradiction.
        * split; [discriminate|]. intros (_ & [H|(t & H)] & _); [contradiction|discriminate].
    - destruct (time_Parse_RFC3339 (trc_Start trc)) as [b|] eqn:Pb.
      2:{ split; [discriminate|]. intros ([H|(t & H)] & _); [contradiction|discriminate]. }
      destruct (String.eqb_spec (trc_End trc) "") as [Ee|Ee]; cbn [negb andb].
      + split; [|reflexivity]. intros _. split; [right; eauto|]. split; [now left|].
        intros; contradiction.
      + destruct (time_Parse_RFC3339 (trc_End trc)) as [e|] eqn:Pe.
        2:{ split; [discriminate|].
            intros (_ & [H|(t & H)] & _); [contradiction|discriminate]. }
        cbn zeta. cbn [default from_option id]. unfold After.
        destruct (unixNano e <? unixNano b) eqn:Ec.
        * split; [discriminate|]. intros (_ & _ & H).
          specialize (H b e Es Ee eq_refl eq_refl). lia.
        * split; [|reflexivity]. intros _. split; [right; eauto|]. split; [right; eauto|].
          intros b' e' _ _ Hb He. injection Hb as <-. injection He as <-. lia. }
  split; [exact Hiff|].
  intros s w Hcfg Hok Hauto Hs He.
  apply Hiff in Hok. destruct Hok as ([?|(b & Pb)] & [?|(e & Pe)] & _); try contradiction.
  exists b, e. split; [exact Pb|]. split; [exact Pe|].
  unfold determineTimeRange, determineEndTime, determineStartTime.
  rewrite Hcfg, Hauto.
  apply String.eqb_neq in Hs. apply String.eqb_neq in He. rewrite Hs, He, Pb, Pe.
  reflexivity.
Qed.

End WithLibs.


(** The names of the command line, with blanks around them. *)
Example FilterTables_examples :
  let other := mkTableConfig "orders" "" "created_at" ["id"] 0 true in
  @FilterTables DemoConfig.strings [Demo.tableCfg; other] [" orders "; "orders"] = [other]
  /\ @FilterTables DemoConfig.strings [Demo.tableCfg; other] ["users"] = []
  /\ @FilterTables DemoConfig.strings [Demo.tableCfg; other] [] = [Demo.tableCfg; other].
Proof. vm_compute. repeat split; reflexivity. Qed.

Example ValidateTimeRange_examples :
  @ValidateTimeRange Demo.libs
     (mkTimeRangeConfig "2024-01-03T00:00:00Z" "2024-01-01T00:00:00Z" false 30)
  = Some (ErrMsg "start time must be before end time")
  /\ @ValidateTimeRange Demo.libs
       (mkTimeRangeConfig "2024-01-01T00:00:00Z" "2024-01-01T00:00:00Z" false 30) = None
  /\ @ValidateTimeRange Demo.libs (mkTimeRangeConfig "" "" true 30) = None
  /\ @ValidateTimeRange Demo.libs (mkTimeRangeConfig "yesterday" "" true 30)
     = Some (ErrWrap "invalid start time format (expected RFC3339)" (ErrMsg "parsing time")).
Proof. vm_compute. repeat split; reflexivity. Qed.

End UtilsFacts.

Module NumberFacts.
Import IntFacts FmtFacts.

(** The digit loop does not depend on the fuel, once there is enough. *)
Lemma formatBits_fuel (f1 : nat) :
  forall (f2 : nat) (u : Z),
    0 <= u < 2 ^ Z.of_nat f1 -> 0 <= u < 2 ^ Z.of_nat f2 ->
    formatBits (S f1) u "" = formatBits (S f2) u "".
Proof.
  induction f1 as [|f1 IH]; intros f2 u H1 H2;
    rewrite (formatBits_S _ u), (formatBits_S f2 u).
  - change (2 ^ Z.of_nat 0) with 1 in H1.
    replace (u <? 10) with true by (symmetry; apply Z.ltb_lt; lia). reflexivity.
  - destruct (u <? 10) eqn:E; [reflexivity|]. apply Z.ltb_ge in E.
    destruct f2 as [|f2].
    { change (2 ^ Z.of_nat 0) with 1 in H2. lia. }
    f_equal. apply IH.
    + rewrite Nat2Z.inj_succ, Z.pow_succ_r in H1 by lia.
      split; [apply Z.div_pos; lia|]. apply Z.div_lt_upper_bound; lia.
    + rewrite Nat2Z.inj_succ, Z.pow_succ_r in H2 by lia.
      split; [apply Z.div_pos; lia|]. apply Z.div_lt_upper_bound; lia.
Qed.

Lemma formatUint_small (u : Z) : 0 <= u < 10 -> formatUint u = String (digitChar u) "".
Proof.
  intros Hu. rewrite formatUint_eq, formatBits_S.
  replace (u <? 10) with true by (symmetry; apply Z.ltb_lt; lia). reflexivity.
Qed.

(** The last digit of a number of two digits or more. *)
Lemma formatUint_step (u : Z) :
  10 <= u -> formatUint u = formatUint (u / 10) +:+ String (digitChar (u mod 10)) "".
Proof.
  intros Hu. rewrite (formatUint_eq u), formatBits_S.
  replace (u <? 10) with false by (symmetry; apply Z.ltb_ge; lia).
  f_equal. rewrite (formatUint_eq (u / 10)), Nat.add_1_r.
  assert (Hq : 0 <= u / 10) by (apply Z.div_pos; lia).
  apply formatBits_fuel.
  - split; [exact Hq|].
    pose proof (log2_fuel u ltac:(lia)) as [_ Hlt].
    rewrite Nat.add_1_r, Nat2Z.inj_succ, Z.pow_succ_r in Hlt by lia.
    apply Z.div_lt_upper_bound; lia.
  - apply log2_fuel, Hq.
Qed.

Lemma formatUint_length (u : Z) (k : nat) :
  0 <= u < 10 ^ Z.of_nat (S k) -> (String.length (formatUint u) <= S k)%nat.
Proof. intros Hu. rewrite formatUint_eq. now apply formatBits_length. Qed.

Lemma formatUint_nonempty (u : Z) : 0 <= u -> (1 <= String.length (formatUint u))%nat.
Proof.
  intros Hu. destruct (formatUint_head u Hu) as (c & r & Heq & _). rewrite Heq. cbn. lia.
Qed.

(** A field of three digits. *)
Lemma appendInt_3 (x : Z) :
  0 <= x < 1000 ->
  appendInt x 3
  = String (digitChar (x / 100))
      (String (digitChar (x / 10 mod 10)) (String (digitChar (x mod 10)) "")).
Proof.
  intros Hx. unfold appendInt, Sprintf_d.
  replace (x <? 0) with false by (symmetry; apply Z.ltb_ge; lia).
  rewrite Z.abs_eq by lia.
  replace (x <? 0) with false by (symmetry; apply Z.ltb_ge; lia).
  rewrite append_nil_l.
  destruct (Z_lt_le_dec x 10) as [H10|H10].
  { rewrite formatUint_small by lia.
    replace (x / 100) with 0 by (symmetry; apply Z.div_small; lia).
    replace (x / 10) with 0 by (symmetry; apply Z.div_small; lia).
    rewrite (Z.mod_small x 10) by lia. reflexivity. }
  rewrite (formatUint_step x H10).
  destruct (Z_lt_le_dec x 100) as [H100|H100].
  { assert (0 <= x / 10 < 10) by (split; [apply Z.div_pos | apply Z.div_lt_upper_bound]; lia).
    rewrite formatUint_small by lia.
    replace (x / 100) with 0 by (symmetry; apply Z.div_small; lia).
    rewrite (Z.mod_small (x / 10) 10) by lia. reflexivity. }
  assert (H1 : 10 <= x / 10) by (apply Z.div_le_lower_bound; lia).
  rewrite (formatUint_step (x / 10) H1), Z.div_div by lia. change (10 * 10) with 100.
  assert (0 <= x / 100 < 10)
    by (split; [apply Z.div_pos | apply Z.div_lt_upper_bound]; lia).
  rewrite formatUint_small by lia. reflexivity.
Qed.

(** The last three digits of a number of four digits or more. *)
Lemma formatUint_thousand (u : Z) :
  1000 <= u -> formatUint u = formatUint (u / 1000) +:+ appendInt (u mod 1000) 3.
Proof.
  intros Hu.
  assert (H1 : 10 <= u / 10) by (apply Z.div_le_lower_bound; lia).
  assert (H2 : 10 <= u / 10 / 10) by (Z.div_mod_to_equations; lia).
  rewrite (formatUint_step u) by lia.
  rewrite (formatUint_step (u / 10) H1), (formatUint_step (u / 10 / 10) H2).
  rewrite !Z.div_div by lia. change (10 * 10) with 100. change (100 * 10) with 1000.
  rewrite appendInt_3 by (apply Z.mod_pos_bound; lia).
  rewrite !append_assoc. cbn [String.append].
  replace (u mod 1000 / 100) with ((u / 100) mod 10) by (Z.div_mod_to_equations; lia).
  replace ((u mod 1000 / 10) mod 10) with ((u / 10) mod 10) by (Z.div_mod_to_equations; lia).
  replace ((u mod 1000) mod 10) with (u mod 10) by (Z.div_mod_to_equations; lia).
  reflexivity.
Qed.

Lemma Sprintf_d_thousand (n : Z) :
  1000 <= Z.abs n ->
  Sprintf_d n = Sprintf_d (Z.quot n 1000) +:+ appendInt (Z.abs n mod 1000) 3.
Proof.
  intros Hn. unfold Sprintf_d.
  destruct (n <? 0) eqn:E.
  - apply Z.ltb_lt in E. rewrite Z.abs_neq in * by lia.
    assert (Hq : Z.quot n 1000 = - (- n / 1000)).
    { rewrite <- (Z.opp_involutive n) at 1. rewrite Z.quot_opp_l by lia.
      rewrite Z.quot_div_nonneg by lia. reflexivity. }
    assert (1 <= - n / 1000) by (apply Z.div_le_lower_bound; lia).
    rewrite Hq. replace (- (- n / 1000) <? 0) with true by (symmetry; apply Z.ltb_lt; lia).
    rewrite Z.opp_involutive, (formatUint_thousand (- n)) by lia. reflexivity.
  - apply Z.ltb_ge in E. rewrite Z.abs_eq in * by lia.
    rewrite Z.quot_div_nonneg by lia.
    assert (1 <= n / 1000) by (apply Z.div_le_lower_bound; lia).
    replace (n / 1000 <? 0) with false by (symmetry; apply Z.ltb_ge; lia).
    now apply formatUint_thousand.
Qed.

(** *** The loop of [FormatNumber] *)

Lemma formatNumberLoop_app (len : Z) (a b : string) :
  forall i,
    formatNumberLoop len i (a +:+ b)
    = formatNumberLoop len i a +:+ formatNumberLoop len (i + Z.of_nat (String.length a)) b.
Proof.
  induction a as [|c a IH]; intros i.
  - cbn [String.length formatNumberLoop]. rewrite !append_nil_l.
    change (Z.of_nat 0) with 0. now rewrite Z.add_0_r.
  - rewrite append_cons. cbn [formatNumberLoop String.length].
    replace (i + Z.of_nat (S (String.length a))) with (i + 1 + Z.of_nat (String.length a))
      by lia.
    rewrite IH, !append_assoc, !append_cons. reflexivity.
Qed.

(** Three more bytes at the end leave the commas of the bytes before
    them where they are. *)
Lemma formatNumberLoop_shift (len : Z) (a : string) :
  forall i,
    0 <= i -> i + Z.of_nat (String.length a) <= len ->
    formatNumberLoop (len + 3) i a = formatNumberLoop len i a.
Proof.
  induction a as [|c a IH]; intros i Hi Hlen; [reflexivity|].
  cbn [formatNumberLoop]. cbn [String.length] in Hlen.
  rewrite IH by lia. f_equal.
  replace (Z.rem (len + 3 - i) 3) with (Z.rem (len - i) 3); [reflexivity|].
  rewrite !Z.rem_mod_nonneg by lia.
  replace (len + 3 - i) with (len - i + 1 * 3) by lia.
  now rewrite Z.mod_add by lia.
Qed.

Lemma formatNumberLoop_last (i : Z) (c2 c1 c0 : ascii) :
  0 < i ->
  formatNumberLoop (i + 3) i (String c2 (String c1 (String c0 "")))
  = String "," (String c2 (String c1 (String c0 ""))).
Proof.
  intros Hi. cbn [formatNumberLoop].
  replace (0 <? i) with true by (symmetry; apply Z.ltb_lt; lia).
  replace (0 <? i + 1) with true by (symmetry; apply Z.ltb_lt; lia).
  replace (0 <? i + 1 + 1) with true by (symmetry; apply Z.ltb_lt; lia).
  replace (i + 3 - i) with 3 by lia.
  replace (i + 3 - (i + 1)) with 2 by lia.
  replace (i + 3 - (i + 1 + 1)) with 1 by lia.
  reflexivity.
Qed.

Lemma formatNumberLoop_small (a : string) :
  (String.length a <= 3)%nat ->
  formatNumberLoop (Z.of_nat (String.length a)) 0 a = a.
Proof.
  destruct a as [|c1 [|c2 [|c3 [|c4 a]]]]; cbn [String.length]; intros H;
    try reflexivity; lia.
Qed.

(** The number as [FormatNumber] writes it, whatever its length. *)
Lemma FormatNumber_loop (n : Z) :
  FormatNumber n
  = formatNumberLoop (Z.of_nat (String.length (Sprintf_d n))) 0 (Sprintf_d n).
Proof.
  unfold FormatNumber. cbn zeta.
  destruct (Z.of_nat (String.length (Sprintf_d n)) <=? 3) eqn:E; [|reflexivity].
  apply Z.leb_le in E. symmetry. apply formatNumberLoop_small. lia.
Qed.

Lemma Sprintf_d_nonempty (n : Z) : (1 <= String.length (Sprintf_d n))%nat.
Proof.
  unfold Sprintf_d. destruct (n <? 0) eqn:E.
  - cbn [String.length]. lia.
  - apply formatUint_nonempty. apply Z.ltb_ge in E. lia.
Qed.

(** X9.  [FormatNumber] writes a number from -99 to 999 as [%d] does; it
    writes a number from -999 to -100 with a comma between the sign and
    the three digits; and it writes any other number as it writes the
    number without its last three digits, then a comma, then those three
    digits. *)
Theorem FormatNumber_groups (n : Z) :
  (-100 < n < 1000 -> FormatNumber n = Sprintf_d n)
  /\ (-1000 < n <= -100 -> FormatNumber n = "-," +:+ Sprintf_d (- n))
  /\ (1000 <= Z.abs n ->
      FormatNumber n
      = FormatNumber (Z.quot n 1000) +:+ "," +:+ appendInt (Z.abs n mod 1000) 3).
Proof.
  split; [|split].
  - intros Hn. unfold FormatNumber. cbn zeta.
    replace (Z.of_nat (String.length (Sprintf_d n)) <=? 3) with true; [reflexivity|].
    symmetry. apply Z.leb_le. unfold Sprintf_d. destruct (n <? 0) eqn:E.
    + apply Z.ltb_lt in E. cbn [String.length].
      pose proof (formatUint_length (- n) 1 ltac:(change (10 ^ Z.of_nat 2) with 100; lia)).
      lia.
    + apply Z.ltb_ge in E.
      pose proof (formatUint_length n 2 ltac:(change (10 ^ Z.of_nat 3) with 1000; lia)).
      lia.
  - intros Hn. rewrite FormatNumber_loop. unfold Sprintf_d.
    replace (n <? 0) with true by (symmetry; apply Z.ltb_lt; lia).
    replace (- n <? 0) with false by (symmetry; apply Z.ltb_ge; lia).
    assert (H1 : 10 <= - n) by lia.
    assert (H2 : 10 <= - n / 10) by (Z.div_mod_to_equations; lia).
    rewrite (formatUint_step (- n) H1), (formatUint_step (- n / 10) H2).
    rewrite Z.div_div by lia. change (10 * 10) with 100.
    assert (0 <= - n / 100 < 10)
      by (split; [apply Z.div_pos | apply Z.div_lt_upper_bound]; lia).
    rewrite formatUint_small by lia. reflexivity.
  - intros Hn. rewrite !FormatNumber_loop, (Sprintf_d_thousand n Hn).
    set (a := Sprintf_d (Z.quot n 1000)).
    assert (Hmod : 0 <= Z.abs n mod 1000 < 1000) by (apply Z.mod_pos_bound; lia).
    rewrite (appendInt_3 _ Hmod).
    rewrite length_append. cbn [String.length].
    rewrite formatNumberLoop_app, Z.add_0_l.
    replace (Z.of_nat (String.length a + 3)) with (Z.of_nat (String.length a) + 3) by lia.
    rewrite formatNumberLoop_shift by lia.
    rewrite formatNumberLoop_last
      by (pose proof (Sprintf_d_nonempty (Z.quot n 1000)); subst a; lia).
    reflexivity.
Qed.

Example FormatNumber_examples :
  map FormatNumber [0; 999; 1000; 1234567; -99; -100; -1234; -123456; -9223372036854775808]
  = ["0"; "999"; "1,000"; "1,234,567"; "-99"; "-,100"; "-1,234"; "-,123,456";
     "-9,223,372,036,854,775,808"].
Proof. vm_compute. reflexivity. Qed.

End NumberFacts.

Module SchemaFacts.
Import QueryFacts FoldFacts.

Lemma HasColumn_names (ts : TableSchema) (columnName : string) :
  HasColumn ts columnName = true <-> columnName ∈ GetColumnNames ts.
Proof.
  unfold HasColumn, GetColumnNames. induction (ts_Columns ts) as [|c cs IH]; cbn [existsb map].
  - split; [discriminate | intros H; inversion H].
  - rewrite orb_true_iff, IH, elem_of_cons.
    destruct (String.eqb_spec (col_Name c) columnName) as [->|Hne].
    + split; [now left | now left].
    + split; intros [H|H]; try discriminate; try congruence; now right.
Qed.

(** X10.  The three lookups of a schema agree: [HasColumn] says whether
    the name is among [GetColumnNames], which are the names of the
    columns in their order, and [GetColumn] returns a column exactly then:
    the first column of that name. *)
Theorem schema_lookups_agree (ts : TableSchema) (columnName : string) :
  (HasColumn ts columnName = true <-> columnName ∈ GetColumnNames ts)
  /\ (HasColumn ts columnName = true <-> exists col, GetColumn ts columnName = Some col)
  /\ (forall col, GetColumn ts columnName = Some col ->
        exists before after,
          ts_Columns ts = before ++ col :: after
          /\ col_Name col = columnName
          /\ columnName ∉ map col_Name before)
  /\ (forall (i : nat),
        GetColumnNames ts !! i = col_Name <$> (ts_Columns ts !! i)).
Proof.
  split; [apply HasColumn_names|]. split; [|split].
  - unfold HasColumn, GetColumn. induction (ts_Columns ts) as [|c cs IH]; cbn [existsb find].
    + split; [discriminate | intros (col & H); discriminate].
    + destruct (String.eqb (col_Name c) columnName); cbn [orb]; [|exact IH].
      split; [eauto | reflexivity].
  - unfold GetColumn. induction (ts_Columns ts) as [|c cs IH]; cbn [find]; intros col Hf.
    + discriminate.
    + destruct (String.eqb_spec (col_Name c) columnName) as [Heq|Hne].
      * injection Hf as <-. exists [], cs. split; [reflexivity|]. split; [exact Heq|].
        cbn. apply not_elem_of_nil.
      * destruct (IH col Hf) as (before & after & Hcs & Hn & Hnot).
        exists (c :: before), after. rewrite Hcs. split; [reflexivity|]. split; [exact Hn|].
        cbn [map]. rewrite not_elem_of_cons. now split.
  - intros i. unfold GetColumnNames. apply list_lookup_fmap.
Qed.

Lemma findNewColumns_filter (sourceSchema targetSchema : TableSchema) :
  findNewColumns sourceSchema targetSchema
  = filter (fun col => col_Name col ∉ GetColumnNames targetSchema) (ts_Columns sourceSchema).
Proof.
  unfold findNewColumns. cbn zeta.
  rewrite (append_fold (fun col => col_Name col ∉ GetColumnNames targetSchema)).
  - reflexivity.
  - intros col. rewrite negb_true_iff, <- not_true_iff_false.
    unfold GetColumnNames. now rewrite keySet_fold_empty.
Qed.

(** X11.  [findNewColumns] returns, in their order, the columns of the
    source whose name is not the name of a column of the target.  It goes
    by the name alone: a column the target has with another type is not
    new.  Of a schema against itself nothing is new, and nothing is new
    either once the new columns are among those of the target. *)
Theorem findNewColumns_by_name (sourceSchema targetSchema : TableSchema) :
  findNewColumns sourceSchema targetSchema
  = filter (fun col => col_Name col ∉ GetColumnNames targetSchema) (ts_Columns sourceSchema)
  /\ (forall col, col ∈ findNewColumns sourceSchema targetSchema ->
        col ∈ ts_Columns sourceSchema /\ HasColumn targetSchema (col_Name col) = false)
  /\ ((forall col, col ∈ ts_Columns sourceSchema ->
                   col_Name col ∈ GetColumnNames targetSchema) ->
      findNewColumns sourceSchema targetSchema = [])
  /\ findNewColumns sourceSchema sourceSchema = []
  /\ findNewColumns sourceSchema
       (mkTableSchema (ts_TableName targetSchema)
          (ts_Columns targetSchema ++ findNewColumns sourceSchema targetSchema)) = [].
Proof.
  assert (Hall : forall src tgt,
            (forall col, col ∈ ts_Columns src -> col_Name col ∈ GetColumnNames tgt) ->
            findNewColumns src tgt = []).
  { intros src tgt H. rewrite findNewColumns_filter. apply filter_none.
    intros col Hin Hn. now apply Hn, H. }
  split; [apply findNewColumns_filter|]. split; [|split; [apply Hall|split]].
  - intros col. rewrite findNewColumns_filter, list_elem_of_filter.
    intros [Hn Hin]. split; [exact Hin|].
    apply not_true_iff_false. now rewrite HasColumn_names.
  - apply Hall. intros col Hin. unfold GetColumnNames. apply list_elem_of_fmap.
    now exists col.
  - apply Hall. intros col Hin. unfold GetColumnNames. cbn [ts_Columns].
    rewrite map_app, elem_of_app.
    destruct (decide (col_Name col ∈ GetColumnNames targetSchema)) as [Hd|Hd]; [now left|].
    right. apply list_elem_of_fmap. exists col. split; [reflexivity|].
    rewrite findNewColumns_filter, list_elem_of_filter. now split.
Qed.


(** *** Adding the new columns *)

(** One [ALTER TABLE]: the column is there afterwards, the columns
    before it and the rows stay, and so do the other tables. *)
Lemma addColumn_spec (db : DB) (name : string) (t : Table) (col : ColumnInfo) :
  dbTable db name = inl t ->
  exists db' t',
    addColumn db name col = inl db'
    /\ dbTable db' name = inl t'
    /\ tbl_rows t' = tbl_rows t
    /\ (exists added,
           tbl_columns t' = tbl_columns t ++ added
           /\ forall a, a ∈ added ->
                col_Name a = col_Name col /\ col_Type a = col_Type col
                /\ col_DefaultValue a = col_DefaultValue col)
    /\ col_Name col ∈ map col_Name (tbl_columns t')
    /\ (forall other, other <> name -> db_tables db' !! other = db_tables db !! other).
Proof.
  intros Ht. unfold addColumn, dbAddColumn. rewrite Ht.
  destruct (existsb (fun c => String.eqb (col_Name c) (col_Name col)) (tbl_columns t)) eqn:E.
  - exists db, t. split; [reflexivity|]. split; [exact Ht|]. split; [reflexivity|].
    split; [exists []; split; [now rewrite app_nil_r | intros a Ha; inversion Ha]|].
    split; [|reflexivity].
    apply (HasColumn_names (mkTableSchema name (tbl_columns t))). exact E.
  - apply dbTable_inl in Ht as [Hup Hl].
    eexists _, _. split; [reflexivity|]. split.
    { apply dbTable_inl. cbn [db_up db_tables]. split; [exact Hup | apply lookup_insert_eq]. }
    cbn [tbl_rows tbl_columns]. split; [reflexivity|]. split.
    { eexists. split; [reflexivity|]. intros a Ha. apply list_elem_of_singleton in Ha as ->.
      cbn [col_Name col_Type col_DefaultValue]. split; [reflexivity|]. split; [reflexivity|].
      destruct (String.eqb_spec (col_DefaultValue col) ""); cbn [negb]; congruence. }
    split.
    { rewrite map_app, elem_of_app. right. cbn. left. }
    intros other Hne. cbn [db_tables]. apply lookup_insert_ne. congruence.
Qed.

Lemma addColumns_spec (name : string) (newColumns : list ColumnInfo) :
  forall (db : DB) (t : Table) (logs : list SchemaLog),
    dbTable db name = inl t ->
    exists db' t' logs',
      addColumns db name newColumns logs = (None, db', logs')
      /\ dbTable db' name = inl t'
      /\ tbl_rows t' = tbl_rows t
      /\ (exists added,
             tbl_columns t' = tbl_columns t ++ added
             /\ forall a, a ∈ added ->
                  exists col, col ∈ newColumns
                              /\ col_Name a = col_Name col /\ col_Type a = col_Type col
                              /\ col_DefaultValue a = col_DefaultValue col)
      /\ (forall col, col ∈ newColumns -> col_Name col ∈ map col_Name (tbl_columns t'))
      /\ (forall other, other <> name -> db_tables db' !! other = db_tables db !! other).
Proof.
  induction newColumns as [|col cols IH]; intros db t logs Ht; cbn [addColumns].
  - exists db, t, logs. split; [reflexivity|]. split; [exact Ht|]. split; [reflexivity|].
    split; [exists []; split; [now rewrite app_nil_r | intros a Ha; inversion Ha]|].
    split; [intros col Hc; inversion Hc | reflexivity].
  - destruct (addColumn_spec db name t col Ht)
      as (db1 & t1 & Hadd & Ht1 & Hrows1 & (added1 & Hcols1 & Hadded1) & Hin1 & Hother1).
    rewrite Hadd.
    destruct (IH db1 t1 (logs ++ [LogColumnAdded (col_Name col) (col_Type col)]) Ht1)
      as (db' & t' & logs' & Heq & Ht' & Hrows & (added & Hcols & Hadded) & Hin & Hother).
    exists db', t', logs'. split; [exact Heq|]. split; [exact Ht'|].
    split; [congruence|]. split; [|split].
    + exists (added1 ++ added). split; [rewrite Hcols, Hcols1; now rewrite app_assoc|].
      intros a Ha. apply elem_of_app in Ha as [Ha|Ha].
      * exists col. split; [left | now apply Hadded1].
      * destruct (Hadded a Ha) as (c & Hc & Hrest). exists c. split; [now right | exact Hrest].
    + intros c Hc. apply elem_of_cons in Hc as [->|Hc]; [|now apply Hin].
      rewrite Hcols, map_app, elem_of_app. now left.
    + intros other Hne. rewrite Hother by exact Hne. now apply Hother1.
Qed.

(** X12.  With the sync of new columns switched on and a target that
    lists the table, [syncColumns] returns no error and leaves a target
    table that has every column name of the source schema; its columns
    are the columns it had, in their order, followed by added ones, each
    with the name, the type and the default of a column of the source;
    its rows and the other tables are as they were.  A second call finds
    nothing to add and changes nothing.  Switched off, it changes
    nothing. *)
Theorem syncColumns_adds_missing (config : SchemaSyncConfig) (targetDB : DB)
    (tableName : string) (sourceSchema : TableSchema) (t : Table) :
  ssc_SyncNewColumns config = true ->
  dbTable targetDB tableName = inl t ->
  tbl_columns t <> [] ->
  exists db' t' logs,
    syncColumns config targetDB tableName sourceSchema = (None, db', logs)
    /\ dbTable db' tableName = inl t'
    /\ (forall col, col ∈ ts_Columns sourceSchema ->
                    col_Name col ∈ map col_Name (tbl_columns t'))
    /\ (exists added,
           tbl_columns t' = tbl_columns t ++ added
           /\ forall a, a ∈ added ->
                exists col, col ∈ ts_Columns sourceSchema
                            /\ col_Name a = col_Name col /\ col_Type a = col_Type col
                            /\ col_DefaultValue a = col_DefaultValue col)
    /\ tbl_rows t' = tbl_rows t
    /\ (forall other, other <> tableName -> db_tables db' !! other = db_tables targetDB !! other)
    /\ syncColumns config db' tableName sourceSchema = (None, db', [LogSchemaSame])
    /\ forall off, ssc_SyncNewColumns off = false ->
         syncColumns off targetDB tableName sourceSchema
         = (None, targetDB, [LogSkipColumnSync]).
Proof.
  intros Hon Ht Hne.
  assert (Hdetect : forall db tb, dbTable db tableName = inl tb -> tbl_columns tb <> [] ->
            DetectTableSchema db tableName = inl (mkTableSchema tableName (tbl_columns tb))).
  { intros db tb Htb Hcols. unfold DetectTableSchema. rewrite Htb.
    destruct (tbl_columns tb); [contradiction | reflexivity]. }
  assert (Hsame : forall db tb,
            dbTable db tableName = inl tb -> tbl_columns tb <> [] ->
            (forall col, col ∈ ts_Columns sourceSchema ->
                         col_Name col ∈ map col_Name (tbl_columns tb)) ->
            syncColumns config db tableName sourceSchema = (None, db, [LogSchemaSame])).
  { intros db tb Htb Hcols Hall. unfold syncColumns.
    rewrite Hon, (Hdetect db tb Htb Hcols). cbn [negb].
    rewrite findNewColumns_filter, filter_none; [reflexivity|].
    intros col Hin Hn. now apply Hn, Hall. }
  assert (Hoff : forall off, ssc_SyncNewColumns off = false ->
            syncColumns off targetDB tableName sourceSchema
            = (None, targetDB, [LogSkipColumnSync])).
  { intros off Ho. unfold syncColumns. now rewrite Ho. }
  unfold syncColumns at 1. rewrite Hon, (Hdetect _ _ Ht Hne). cbn [negb].
  set (newColumns := findNewColumns sourceSchema (mkTableSchema tableName (tbl_columns t))).
  destruct (length newColumns =? 0)%nat eqn:El.
  - exists targetDB, t, [LogSchemaSame].
    assert (Hall : forall col, col ∈ ts_Columns sourceSchema ->
                               col_Name col ∈ map col_Name (tbl_columns t)).
    { intros col Hin.
      destruct (decide (col_Name col ∈ map col_Name (tbl_columns t))) as [Hd|Hd]; [exact Hd|].
      assert (Hnew : col ∈ newColumns).
      { subst newColumns. rewrite findNewColumns_filter, list_elem_of_filter. now split. }
      destruct newColumns; [inversion Hnew | discriminate]. }
    split; [reflexivity|]. split; [exact Ht|]. split; [exact Hall|]. split.
    { exists []. split; [now rewrite app_nil_r | intros a Ha; inversion Ha]. }
    split; [reflexivity|]. split; [reflexivity|]. split; [|exact Hoff].
    now apply (Hsame targetDB t).
  - destruct (addColumns_spec tableName newColumns targetDB t
                [LogNewColumns (length newColumns) (getColumnNames newColumns)] Ht)
      as (db' & t' & logs' & Heq & Ht' & Hrows & (added & Hcols & Hadded) & Hin & Hother).
    assert (Hall : forall col, col ∈ ts_Columns sourceSchema ->
                               col_Name col ∈ map col_Name (tbl_columns t')).
    { intros col Hc.
      destruct (decide (col_Name col ∈ map col_Name (tbl_columns t))) as [Hd|Hd].
      - rewrite Hcols, map_app, elem_of_app. now left.
      - apply Hin. subst newColumns. rewrite findNewColumns_filter, list_elem_of_filter.
        now split. }
    exists db', t', logs'. split; [exact Heq|]. split; [exact Ht'|]. split; [exact Hall|].
    split.
    { exists added. split; [exact Hcols|]. intros a Ha.
      destruct (Hadded a Ha) as (col & Hc & Hrest). exists col. split; [|exact Hrest].
      subst newColumns. rewrite findNewColumns_filter, list_elem_of_filter in Hc. apply Hc. }
    split; [exact Hrows|]. split; [exact Hother|]. split; [|exact Hoff].
    apply (Hsame db' t' Ht'); [|exact Hall].
    rewrite Hcols. intros H. apply app_eq_nil in H as [H _]. contradiction.
Qed.


(** The theorem on the small installation, whose source has got a
    column [note] that the target does not have. *)
Lemma syncColumns_adds_missing_witness :
  let config := mkSchemaSyncConfig true true true false in
  let sourceSchema :=
    mkTableSchema "events"
      (Demo.columns ++ [mkColumnInfo "note" "Nullable(String)" "" true]) in
  let t := mkTable Demo.columns Demo.tenRows in
  exists db' t' logs,
    syncColumns config (Demo.db Demo.tenRows) "events" sourceSchema = (None, db', logs)
    /\ dbTable db' "events" = inl t'
    /\ (forall col, col ∈ ts_Columns sourceSchema ->
                    col_Name col ∈ map col_Name (tbl_columns t'))
    /\ (exists added,
           tbl_columns t' = tbl_columns t ++ added
           /\ forall a, a ∈ added ->
                exists col, col ∈ ts_Columns sourceSchema
                            /\ col_Name a = col_Name col /\ col_Type a = col_Type col
                            /\ col_DefaultValue a = col_DefaultValue col)
    /\ tbl_rows t' = tbl_rows t
    /\ (forall other, other <> "events" ->
          db_tables db' !! other = db_tables (Demo.db Demo.tenRows) !! other)
    /\ syncColumns config db' "events" sourceSchema = (None, db', [LogSchemaSame])
    /\ forall off, ssc_SyncNewColumns off = false ->
         syncColumns off (Demo.db Demo.tenRows) "events" sourceSchema
         = (None, Demo.db Demo.tenRows, [LogSkipColumnSync]).
Proof.
  intros config sourceSchema t.
  apply (syncColumns_adds_missing config (Demo.db Demo.tenRows) "events" sourceSchema t);
    [reflexivity | vm_compute; reflexivity | discriminate].
Defined.

Example syncColumns_example :
  let config := mkSchemaSyncConfig true true true false in
  let sourceSchema :=
    mkTableSchema "events"
      (Demo.columns ++ [mkColumnInfo "note" "Nullable(String)" "" true]) in
  let r := syncColumns config (Demo.db Demo.tenRows) "events" sourceSchema in
  fst (fst r) = None
  /\ snd r = [LogNewColumns 1 ["note"]; LogColumnAdded "note" "Nullable(String)"]
  /\ option_map (fun t => map col_Name (tbl_columns t)) (db_tables (snd (fst r)) !! "events")
     = Some ["id"; "ts"; "amount"; "note"]
  /\ findNewColumns (mkTableSchema "events" Demo.columns) sourceSchema = [].
Proof. vm_compute. repeat split; reflexivity. Qed.

End SchemaFacts.

Module SyncerFacts.
Import QueryFacts IntFacts SegmentSyncFacts SchemaFacts.

Lemma missingKeys_nil (schema : TableSchema) (keys : list string) :
  (0 <? length (missingKeys schema keys))%nat = false
  <-> forall key, key ∈ keys -> HasColumn schema key = true.
Proof.
  unfold missingKeys. induction keys as [|k ks IH]; cbn [List.filter].
  - split; [intros _ key H; inversion H | reflexivity].
  - destruct (HasColumn schema k) eqn:E; cbn [negb].
    + rewrite IH. split.
      * intros H key Hk. apply elem_of_cons in Hk as [->|Hk]; [exact E | now apply H].
      * intros H key Hk. apply H. now right.
    + cbn [length]. split; [discriminate|]. intros H.
      assert (HasColumn schema k = true) by (apply H; left). congruence.
Qed.

Section WithLibs.
Context {L : GoLibs}.

(** X13.  [NewUniversalSyncer] returns a syncer only for a table of the
    source that has columns, the time field among them and every dedup
    key: the syncer holds the schema of the source, and the check of the
    dedup keys that [FetchExistingKeys] repeats on it cannot fail, so an
    error of [FetchExistingKeys] is an error of its query.  When it
    returns an error it has changed nothing; a missing time field is
    reported before a missing dedup key. *)
Theorem NewUniversalSyncer_checks (tc : TableConfig) (cfg : Config) (w : World) :
  let r := NewUniversalSyncer tc cfg w in
  (forall s,
      fst r = inl s ->
      tableName s = tc_Name tc /\ tableConfig s = tc /\ config s = cfg
      /\ DetectTableSchema (sourceDB w) (tc_Name tc) = inl (tableSchema s)
      /\ ts_Columns (tableSchema s) <> []
      /\ HasColumn (tableSchema s) (tc_TimeField tc) = true
      /\ (forall key, key ∈ tc_DedupeKeys tc ->
                      HasColumn (tableSchema s) key = true)
      /\ (forall db segment err,
            FetchExistingKeys (deduplicator s) db (tableName s) segment (tableSchema s)
            = inr err ->
            querySelectRange db (tableName s) (tc_DedupeKeys tc)
                             (tc_TimeField tc) OpLt
                             (seg_Start segment) (seg_End segment) = inr err)
      /\ snd r = set_skipCheckpoint w false)
  /\ (forall err, fst r = inr err -> snd r = w)
  /\ (forall schema,
        DetectTableSchema (sourceDB w) (tc_Name tc) = inl schema ->
        HasColumn schema (tc_TimeField tc) = false ->
        fst r = inr (ErrMsg "time field not found in table"))
  /\ (forall schema key,
        DetectTableSchema (sourceDB w) (tc_Name tc) = inl schema ->
        HasColumn schema (tc_TimeField tc) = true ->
        key ∈ tc_DedupeKeys tc -> HasColumn schema key = false ->
        fst r = inr (ErrMsg "deduplication keys not found in table")).
Proof.
  intros r. subst r. unfold NewUniversalSyncer, bind, gets, modify, ret. cbn [fst snd].
  destruct (DetectTableSchema (sourceDB w) (tc_Name tc)) as [schema|e] eqn:Ed.
  2:{ cbn [fst snd]. split; [intros s H; discriminate|]. split; [reflexivity|].
      split; intros; discriminate. }
  destruct (HasColumn schema (tc_TimeField tc)) eqn:Et; cbn [negb].
  2:{ cbn [fst snd]. split; [intros s H; discriminate|]. split; [reflexivity|].
      split; [reflexivity|]. intros schema' key [= <-] H. congruence. }
  destruct (0 <? length (missingKeys schema (tc_DedupeKeys tc)))%nat eqn:Em.
  { cbn [fst snd]. split; [intros s H; discriminate|]. split; [reflexivity|].
    split; [intros schema' [= <-] H; congruence | reflexivity]. }
  cbn [fst snd]. split.
  - intros s [= <-]. cbn [tableName tableSchema deduplicator tableConfig config].
    split; [reflexivity|]. split; [reflexivity|]. split; [reflexivity|].
    split; [reflexivity|]. split.
    { unfold DetectTableSchema in Ed. destruct (dbTable _ _) as [t|]; [|discriminate].
      destruct (tbl_columns t) eqn:Ec; [discriminate|].
      injection Ed as <-. cbn [ts_Columns]. discriminate. }
    split; [exact Et|]. split; [now apply missingKeys_nil|]. split; [|reflexivity].
    intros db segment err. unfold FetchExistingKeys, NewDeduplicator.
    cbn [dedupeKeys timeField]. rewrite Em.
    destruct (querySelectRange _ _ _ _ _ _ _); [discriminate | congruence].
  - split; [intros err H; discriminate|]. split.
    + intros schema' [= <-] H. congruence.
    + intros schema' key [= <-] _ Hk Hf.
      assert (HasColumn schema key = true) by (apply (proj1 (missingKeys_nil _ _) Em), Hk).
      congruence.
Qed.

End WithLibs.

Example NewUniversalSyncer_examples :
  let w := Demo.world Demo.tenRows [] (Date 2024 1 2 13 0 0 0 UTC) true in
  fst (NewUniversalSyncer Demo.tableCfg (Demo.cfg true true) w) = inl (Demo.syncer true)
  /\ fst (NewUniversalSyncer (mkTableConfig "events" "" "created" ["uid"] 0 true)
                             (Demo.cfg true true) w)
     = inr (ErrMsg "time field not found in table")
  /\ fst (NewUniversalSyncer (mkTableConfig "events" "" "ts" ["id"; "uid"] 0 true)
                             (Demo.cfg true true) w)
     = inr (ErrMsg "deduplication keys not found in table")
  /\ fst (NewUniversalSyncer (mkTableConfig "orders" "" "ts" ["id"] 0 true)
                             (Demo.cfg true true) w)
     = inr (ErrWrap "failed to detect schema"
              (ErrWrap "failed to query columns" (ErrMsg "table does not exist"))).
Proof. vm_compute. repeat split; reflexivity. Qed.

End SyncerFacts.

Module FrameFacts.
Import FoldFacts QueryFacts IntFacts SegmentSyncFacts RangeFacts CheckpointFacts.

Lemma keepsCheckpoints_refl (w : World) : keepsCheckpoints w w.
Proof. repeat split; reflexivity. Qed.

Lemma keepsCheckpoints_trans (w1 w2 w3 : World) :
  keepsCheckpoints w1 w2 -> keepsCheckpoints w2 w3 -> keepsCheckpoints w1 w3.
Proof. unfold keepsCheckpoints. intuition congruence. Qed.

Lemma keepsCheckpoints_logs (w : World) (l : list (string * LogEvent)) :
  keepsCheckpoints w (set_logs w l).
Proof. repeat split; reflexivity. Qed.

Lemma keepsCheckpoints_target (w : World) (db : DB) :
  keepsCheckpoints w (set_targetDB w db).
Proof. repeat split; reflexivity. Qed.

(** A relation between the worlds before and after that holds across
    log lines and across [insertBatch] holds across [syncSegment]. *)
Section Preserved.
Context {L : GoLibs}.
Variable s : UniversalSyncer.
Variable R : World -> World -> Prop.
Hypothesis R_refl : forall w, R w w.
Hypothesis R_trans : forall w1 w2 w3, R w1 w2 -> R w2 w3 -> R w1 w3.
Hypothesis R_logs : forall w l, R w (set_logs w l).
Hypothesis R_insert : forall batch columns w, R w (snd (insertBatch s batch columns w)).

Lemma syncRows_preserves (keys : gmap string bool) (batchSize : Z)
    (columns : list string) (rows : list (list Value)) :
  forall (st : SegmentLoop) (w : World),
    R w (snd (syncRows s keys batchSize columns rows st w)).
Proof.
  induction rows as [|values rows IH]; intros st w; cbn [syncRows].
  - apply R_refl.
  - destruct (keyExists keys (BuildKey (deduplicator s) (scanRow values columns))).
    + apply IH.
    + destruct (batchSize <=? Z.of_nat (length (batch st ++ [scanRow values columns]))).
      * unfold bind at 1.
        pose proof (R_insert (batch st ++ [scanRow values columns]) columns w) as Hi.
        destruct (insertBatch s (batch st ++ [scanRow values columns]) columns w)
          as [[n [err|]] w1]; cbn [fst snd] in *.
        -- exact Hi.
        -- unfold bind at 1, log_Printf at 1, modify at 1.
           eapply R_trans; [exact Hi|].
           eapply R_trans; [apply R_logs | apply IH].
      * apply IH.
Qed.

Lemma syncSegment_preserves (segment : TimeSegment) (w : World) :
  R w (snd (syncSegment s segment w)).
Proof.
  unfold syncSegment. unfold bind at 1, log_Printf at 1, modify at 1.
  set (w0 := set_logs w _).
  apply (R_trans _ w0); [apply R_logs|].
  unfold bind at 1, gets at 1.
  destruct (FetchExistingKeys _ _ _ _ _) as [keys|e]; [|apply R_refl].
  unfold bind at 1, log_Printf at 1, modify at 1.
  set (w1 := set_logs w0 _).
  apply (R_trans _ w1); [apply R_logs|].
  unfold bind at 1, log_Printf at 1, modify at 1.
  set (w2 := set_logs w1 _).
  apply (R_trans _ w2); [apply R_logs|].
  unfold bind at 1, gets at 1.
  destruct (querySelectRangeOrdered _ _ _ _ _ _ _) as [rows|e]; [|apply R_refl].
  destruct (_ <? 0); [apply R_refl|].
  unfold bind at 1.
  match goal with
  | |- context [syncRows s keys ?bs ?cols rows ?st0 w2] =>
      pose proof (syncRows_preserves keys bs cols rows st0 w2) as Hr;
      destruct (syncRows s keys bs cols rows st0 w2) as [[st' [err|]] w3]
  end; cbn [fst snd] in *; [exact Hr|].
  destruct (0 <? length (batch st'))%nat.
  - unfold bind at 1.
    pose proof (R_insert (batch st') (GetColumnNames (tableSchema s)) w3) as Hi.
    destruct (insertBatch s (batch st') (GetColumnNames (tableSchema s)) w3)
      as [[n [err|]] w4]; cbn [fst snd] in *.
    + exact (R_trans _ _ _ Hr Hi).
    + unfold bind, log_Printf, modify, ret. cbn [snd].
      eapply R_trans; [exact Hr|].
      eapply R_trans; [exact Hi|].
      eapply R_trans; apply R_logs.
  - unfold bind, log_Printf, modify, ret. cbn [snd].
    eapply R_trans; [exact Hr | apply R_logs].
Qed.

End Preserved.

Section WithLibs.
Context {L : GoLibs}.

Lemma insertBatch_keeps (s : UniversalSyncer) (batch : list Row) (columns : list string)
    (w : World) :
  keepsCheckpoints w (snd (insertBatch s batch columns w)).
Proof.
  destruct (insertBatch_cases s batch columns w) as [(db' & Heq & _)|(err & Heq)];
    rewrite Heq; cbn [snd].
  - apply keepsCheckpoints_target.
  - apply keepsCheckpoints_refl.
Qed.

(** [syncSegment] changes the target database and the log, and nothing
    else. *)
Lemma syncSegment_keeps (s : UniversalSyncer) (segment : TimeSegment) (w : World) :
  keepsCheckpoints w (snd (syncSegment s segment w)).
Proof.
  apply (syncSegment_preserves s keepsCheckpoints).
  - apply keepsCheckpoints_refl.
  - apply keepsCheckpoints_trans.
  - apply keepsCheckpoints_logs.
  - apply insertBatch_keeps.
Qed.

(** The target keeps answering, and keeps the table, across the
    inserts. *)
Definition targetListed (name : string) (w w' : World) : Prop :=
  (exists t, dbTable (targetDB w) name = inl t) ->
  exists t', dbTable (targetDB w') name = inl t'.

Lemma syncSegment_targetListed (s : UniversalSyncer) (segment : TimeSegment) (w : World) :
  targetListed (tableName s) w (snd (syncSegment s segment w)).
Proof.
  apply (syncSegment_preserves s (targetListed (tableName s))).
  - intros w0 H. exact H.
  - intros w1 w2 w3 H12 H23 H. apply H23, H12, H.
  - intros w0 l H. exact H.
  - intros batch columns w0 (t & Ht).
    destruct batch as [|record batch]; [cbn; eauto|].
    unfold insertBatch. cbn [length Nat.eqb]. unfold bind, gets, modify, ret. rewrite Ht.
    destruct (forallb _ _); cbn [snd]; [|eauto].
    cbn [targetDB set_targetDB]. apply dbTable_inl in Ht as [Hup Ht].
    eexists. unfold dbTable, dbAppendRows. cbn [db_up db_tables]. rewrite Hup.
    rewrite lookup_alter_eq, Ht. reflexivity.
Qed.

Lemma realtimeSyncWindow_keeps (s : UniversalSyncer) (startTime endTime : Time) (w : World) :
  keepsCheckpoints w (snd (realtimeSyncWindow s startTime endTime w)).
Proof.
  unfold realtimeSyncWindow. unfold bind at 1, gets at 1.
  destruct (queryCountRange _ _ _ _ _ _) as [c|e]; [|apply keepsCheckpoints_refl].
  destruct (c =? 0); [apply keepsCheckpoints_refl|].
  unfold bind at 1, log_Printf at 1, modify at 1.
  set (w0 := set_logs w _).
  apply (keepsCheckpoints_trans _ w0); [apply keepsCheckpoints_logs|].
  unfold realtimeSyncRecords. unfold bind at 1.
  pose proof (syncSegment_keeps s (mkSegment startTime endTime) w0) as Hs.
  destruct (syncSegment s (mkSegment startTime endTime) w0) as [[n [err|]] w1];
    cbn [fst snd] in *; [exact Hs|].
  destruct (0 <? n); unfold bind, log_Printf, modify, ret; cbn [snd]; [|exact Hs].
  eapply keepsCheckpoints_trans; [exact Hs | apply keepsCheckpoints_logs].
Qed.

(** X14.  The realtime path works without checkpoints: [syncSegment],
    [realtimeIncrementalSync] and [runRealtime] leave the state manager,
    the state file and the source database as they were, whatever they
    insert; [runRealtime] sets [skipCheckpoint], and it stays set. *)
Theorem realtime_keeps_checkpoints (s : UniversalSyncer) (w : World) :
  (forall segment,
      let w' := snd (syncSegment s segment w) in
      stateMgr w' = stateMgr w /\ fs w' = fs w /\ sourceDB w' = sourceDB w
      /\ skipCheckpoint w' = skipCheckpoint w)
  /\ (let w' := snd (realtimeIncrementalSync s w) in
      stateMgr w' = stateMgr w /\ fs w' = fs w /\ sourceDB w' = sourceDB w
      /\ skipCheckpoint w' = skipCheckpoint w)
  /\ (let w' := snd (runRealtime s w) in
      stateMgr w' = stateMgr w /\ fs w' = fs w /\ sourceDB w' = sourceDB w
      /\ skipCheckpoint w' = true).
Proof.
  assert (Hrt : forall w0,
            let w' := snd (realtimeIncrementalSync s w0) in
            stateMgr w' = stateMgr w0 /\ fs w' = fs w0 /\ sourceDB w' = sourceDB w0
            /\ skipCheckpoint w' = skipCheckpoint w0).
  { intros w0.
    assert (Hex : exists w1,
               keepsCheckpoints w1 (snd (realtimeIncrementalSync s w0))
               /\ stateMgr w1 = stateMgr w0 /\ fs w1 = fs w0 /\ sourceDB w1 = sourceDB w0
               /\ skipCheckpoint w1 = skipCheckpoint w0).
    { unfold realtimeIncrementalSync.
      unfold bind at 1, gets at 1.
      destruct (queryMax (targetDB w0) _ _) as [mt|e];
        [|exists w0; split; [apply keepsCheckpoints_refl | repeat split; reflexivity]].
      unfold bind at 1, gets at 1.
      destruct (queryMax (sourceDB w0) _ _) as [ms|e];
        [|exists w0; split; [apply keepsCheckpoints_refl | repeat split; reflexivity]].
      unfold bind at 1, time_Now at 1.
      destruct (realtimeWindow mt ms _) as [[[startTime endTime] switched]|];
        [|eexists; split; [apply keepsCheckpoints_refl | repeat split; reflexivity]].
      unfold bind at 1.
      destruct switched.
      - unfold bind at 1, log_Printf at 1, modify at 1. unfold log_Printf at 1, modify at 1.
        eexists. split; [apply realtimeSyncWindow_keeps | repeat split; reflexivity].
      - unfold ret at 1.
        eexists. split; [apply realtimeSyncWindow_keeps | repeat split; reflexivity]. }
    destruct Hex as (w1 & (H1 & H2 & H3 & H4 & _) & G2 & G3 & G1 & G4).
    cbn zeta. repeat split; congruence. }
  split; [|split].
  - intros segment. cbn zeta.
    destruct (syncSegment_keeps s segment w) as (H1 & H2 & H3 & H4 & _).
    repeat split; assumption.
  - apply Hrt.
  - cbn zeta. unfold runRealtime, bind, log_Printf, modify.
    match goal with
    | |- context [realtimeIncrementalSync s ?w1] =>
        destruct (Hrt w1) as (H1 & H2 & H3 & H4)
    end.
    rewrite H1, H2, H3, H4. repeat split; reflexivity.
Qed.

(** The loop over segments that are all completed. *)
Lemma syncSegments_completed (s : UniversalSyncer) (segments : list TimeSegment) :
  forall (i n : nat) (totalRecords : Z) (w : World),
    skipCheckpoint w = false ->
    forallb (fun segment => fst (IsSegmentCompleted (tableName s) segment w)) segments = true ->
    exists lines,
      syncSegments s segments i n totalRecords w = (None, set_logs w (logs w ++ lines)).
Proof.
  induction segments as [|segment segments IH]; intros i n totalRecords w Hskip Hall;
    cbn [syncSegments].
  - eexists. unfold bind, log_Printf, modify, ret. reflexivity.
  - cbn [forallb] in Hall. apply andb_true_iff in Hall as [Hc Hall].
    unfold bind at 1, gets at 1. rewrite Hskip. cbn [negb].
    unfold bind at 1.
    assert (Hw : snd (IsSegmentCompleted (tableName s) segment w) = w).
    { unfold IsSegmentCompleted, bind, gets, ret. cbn.
      destruct (Tables (state (stateMgr w)) !! tableName s); reflexivity. }
    destruct (IsSegmentCompleted (tableName s) segment w) as [c w1]. cbn [fst snd] in *.
    subst w1 c. cbn [andb].
    unfold bind at 1, log_Printf at 1, modify at 1.
    set (w1 := set_logs w _).
    destruct (IH (i + 1)%nat n totalRecords w1 Hskip) as (lines & Heq).
    { erewrite forallb_same; [exact Hall|]. intros sg.
      now rewrite !IsSegmentCompleted_eq. }
    rewrite Heq. subst w1. cbn [logs set_logs]. rewrite <- app_assoc.
    eexists. reflexivity.
Qed.


(** The loop over the segments, with checkpoints: when it ends without an
    error every segment of the list is completed, and what was completed
    before still is. *)
Lemma syncSegments_marks (s : UniversalSyncer) (segments : list TimeSegment) :
  forall (i n : nat) (totalRecords : Z) (w w' : World),
    skipCheckpoint w = false ->
    syncSegments s segments i n totalRecords w = (None, w') ->
    forallb (fun segment => fst (IsSegmentCompleted (tableName s) segment w')) segments = true
    /\ (forall table segment,
          fst (IsSegmentCompleted table segment w) = true ->
          fst (IsSegmentCompleted table segment w') = true).
Proof.
  induction segments as [|segment segments IH]; intros i n totalRecords w w' Hskip Heq.
  - cbn [syncSegments forallb] in *. unfold bind, log_Printf, modify, ret in Heq.
    injection Heq as <-. split; [reflexivity|].
    intros table sg H. rewrite IsSegmentCompleted_eq in *. exact H.
  - cbn [syncSegments] in Heq. unfold bind at 1, gets at 1 in Heq.
    rewrite Hskip in Heq. cbn [negb] in Heq. unfold bind at 1 in Heq.
    assert (Hw : snd (IsSegmentCompleted (tableName s) segment w) = w).
    { unfold IsSegmentCompleted, bind, gets, ret. cbn.
      destruct (Tables (state (stateMgr w)) !! tableName s); reflexivity. }
    destruct (IsSegmentCompleted (tableName s) segment w) as [c w0] eqn:Ec.
    cbn [fst snd] in *. subst w0. cbn [andb] in Heq.
    assert (Hc : fst (IsSegmentCompleted (tableName s) segment w) = c) by now rewrite Ec.
    clear Ec. destruct c.
    + unfold bind at 1, log_Printf at 1, modify at 1 in Heq.
      match type of Heq with
      | syncSegments _ _ _ _ _ ?w1 = _ =>
          destruct (IH _ _ _ w1 w' Hskip Heq) as (Hall & Hmono)
      end.
      cbn [forallb]. split.
      * rewrite Hall, andb_true_r. apply Hmono.
        rewrite IsSegmentCompleted_eq in *. exact Hc.
      * intros table sg H. apply Hmono. rewrite IsSegmentCompleted_eq in *. exact H.
    + unfold bind at 1 in Heq.
      pose proof (syncSegment_keeps s segment w) as (Ks & Km & Kf & Kk & _).
      destruct (syncSegment s segment w) as [[cnt [err|]] w2]; cbn [fst snd] in *.
      { unfold ret in Heq. discriminate. }
      unfold bind at 1, gets at 1 in Heq. rewrite Kk, Hskip in Heq. cbn [negb] in Heq.
      unfold bind at 1 in Heq.
      pose proof (MarkSegmentCompleted_skipCheckpoint (tableName s) segment cnt w2) as Mk.
      pose proof (fun table sg =>
                    IsSegmentCompleted_mark (tableName s) segment cnt w2 table sg) as Mf.
      destruct (MarkSegmentCompleted (tableName s) segment cnt w2) as [[] w3].
      cbn [fst snd] in *.
      unfold bind at 1, log_Printf at 1, modify at 1 in Heq.
      match type of Heq with
      | syncSegments _ _ _ _ _ ?w4 = _ =>
          assert (Hskip4 : skipCheckpoint w4 = false) by (cbn; congruence);
          assert (E43 : forall table sg,
                     fst (IsSegmentCompleted table sg w4)
                     = fst (IsSegmentCompleted table sg w3))
            by (intros; now rewrite !IsSegmentCompleted_eq);
          destruct (IH _ _ _ w4 w' Hskip4 Heq) as (Hall & Hmono)
      end.
      assert (E2 : forall table sg,
                 fst (IsSegmentCompleted table sg w2) = fst (IsSegmentCompleted table sg w))
        by (intros; now rewrite !IsSegmentCompleted_eq, Km).
      cbn [forallb]. split.
      * rewrite Hall, andb_true_r. apply Hmono.
        rewrite E43, Mf, String.eqb_refl, segmentEqual_refl. apply orb_true_r.
      * intros table sg H. apply Hmono. rewrite E43, Mf, E2, H. reflexivity.
Qed.

(** X20.  With checkpoints on, an [incrementalSync] that returns no
    error has every segment of its plan completed in the state, beside
    those that were completed before; over the same range and the state
    it leaves, the loop over the segments then syncs nothing. *)
Theorem incrementalSync_completes_plan (s : UniversalSyncer) (w : World)
    (timeRange : TimeRange) :
  skipCheckpoint w = false ->
  fst (determineTimeRange s w) = inl timeRange ->
  fst (incrementalSync s w) = None ->
  let w' := snd (incrementalSync s w) in
  let segments := segmentTimeRange s timeRange in
  (Before (tr_Start timeRange) (tr_End timeRange) = true ->
   forallb (fun segment => fst (IsSegmentCompleted (tableName s) segment w')) segments = true)
  /\ (forall table segment,
        fst (IsSegmentCompleted table segment w) = true ->
        fst (IsSegmentCompleted table segment w') = true)
  /\ (Before (tr_Start timeRange) (tr_End timeRange) = true ->
      skipCheckpoint w' = false ->
      exists lines,
        syncSegments s segments 0 (length segments) 0 w'
        = (None, set_logs w' (logs w' ++ lines))).
Proof.
  intros Hskip Hr Hok w' segments.
  assert (Hex : exists w1,
             sameStores w w1
             /\ incrementalSync s w
                = if negb (Before (tr_Start timeRange) (tr_End timeRange))
                  then (None, w1)
                  else syncSegments s segments 0 (length segments) 0 w1).
  { unfold incrementalSync. unfold bind at 1.
    pose proof (determineTimeRange_sameStores s w) as (Hs & Ht & Hm & Hf & Hk).
    destruct (determineTimeRange s w) as [q w1]. cbn [fst snd] in *. subst q.
    destruct (negb (Before (tr_Start timeRange) (tr_End timeRange))).
    - eexists. split; [|unfold bind, log_Printf, modify, ret; reflexivity].
      repeat split; assumption.
    - unfold bind at 1, log_Printf at 1, modify at 1.
      unfold bind at 1, log_Printf at 1, modify at 1.
      eexists. split; [|reflexivity]. repeat split; assumption. }
  destruct Hex as (w1 & (Hs & Ht & Hm & Hf & Hk) & Heq).
  assert (Hpre : forall table sg,
             fst (IsSegmentCompleted table sg w1) = fst (IsSegmentCompleted table sg w)).
  { intros table sg. rewrite !IsSegmentCompleted_eq. now rewrite Hm. }
  destruct (Before (tr_Start timeRange) (tr_End timeRange)) eqn:Hb; cbn [negb] in Heq.
  - assert (Hskip1 : skipCheckpoint w1 = false) by congruence.
    assert (Heq1 : syncSegments s segments 0 (length segments) 0 w1 = (None, w')).
    { subst w'. rewrite Heq in Hok |- *.
      destruct (syncSegments s segments 0 (length segments) 0 w1) as [res wf].
      cbn [fst snd] in *. now subst res. }
    destruct (syncSegments_marks s segments 0 (length segments) 0 _ w' Hskip1 Heq1)
      as (Hall & Hmono).
    split; [intros _; exact Hall|]. split.
    + intros table sg H. apply Hmono. now rewrite Hpre.
    + intros _ Hskip'. now apply syncSegments_completed.
  - split; [discriminate|]. split; [|discriminate].
    intros table sg H. subst w'. rewrite Heq. cbn [snd]. now rewrite Hpre.
Qed.

End WithLibs.


(** The theorem on the first run of the small installation with the
    configured range. *)
Lemma incrementalSync_completes_plan_witness :
  let s := DemoRange.syncer in
  let w := Demo.world Demo.tenRows [] (Date 2024 1 3 1 0 0 0 UTC) true in
  let timeRange := mkRange (Date 2024 1 1 0 0 0 0 UTC) (Date 2024 1 3 0 0 0 0 UTC) in
  let w' := snd (@incrementalSync Demo.libs s w) in
  let segments := segmentTimeRange s timeRange in
  (Before (tr_Start timeRange) (tr_End timeRange) = true ->
   forallb (fun segment => fst (IsSegmentCompleted (tableName s) segment w')) segments = true)
  /\ (forall table segment,
        fst (IsSegmentCompleted table segment w) = true ->
        fst (IsSegmentCompleted table segment w') = true)
  /\ (Before (tr_Start timeRange) (tr_End timeRange) = true ->
      skipCheckpoint w' = false ->
      exists lines,
        @syncSegments Demo.libs s segments 0 (length segments) 0 w'
        = (None, set_logs w' (logs w' ++ lines))).
Proof.
  intros s w timeRange.
  apply (@incrementalSync_completes_plan Demo.libs s w timeRange); vm_compute; reflexivity.
Defined.

Example late_row_is_skipped :
  let w := DemoRange.withLateRow in
  let r := @incrementalSync Demo.libs DemoRange.syncer w in
  length (tableRows (sourceDB w) "events") = 11%nat
  /\ length (tableRows (targetDB (snd r)) "events") = 10%nat
  /\ fst (@syncSegment Demo.libs DemoRange.syncer
            (mkSegment (Date 2024 1 1 0 0 0 0 UTC) (Date 2024 1 2 0 0 0 0 UTC)) w)
     = (1, None).
Proof. vm_compute. repeat split; reflexivity. Qed.

End FrameFacts.

Module DayFacts.
Import CalendarFacts SegmentFacts.

(** The local day of an instant between a time and its next midnight. *)
Lemma localDays_within (start : Time) (lo hi x : Z) :
  keepsOffset (loc start) (offset start) lo hi ->
  lo <= unixSec start + Z.min 0 (offset start) ->
  unixSec start + secondsPerDay + Z.max 0 (offset start) <= hi ->
  unixNano start <= x < unixNano (nextDayStart start) ->
  localDays (mkTime x (loc start)) = localDays start.
Proof.
  intros Hk Hlo Hhi Hx.
  assert (Ho : offset (mkTime x (loc start)) = offset start).
  { unfold offset at 1. cbn [loc]. apply Hk.
    pose proof (nextDayStart_unixSec start lo hi Hk Hlo Hhi) as Hn.
    pose proof (localDays_unixSec start) as Hd.
    assert (H1 : unixSec start <= unixSec (mkTime x (loc start)))
      by (apply unixSec_le; cbn [unixNano]; lia).
    assert (H2 : unixSec (mkTime x (loc start)) <= unixSec (nextDayStart start))
      by (apply unixSec_le; cbn [unixNano]; lia).
    unfold secondsPerDay in *. lia. }
  revert Hx. rewrite (nextDayStart_eq start lo hi Hk Hlo Hhi). cbn [unixNano].
  unfold localDays, localNano. rewrite Ho. cbn [unixNano].
  generalize (unixNano start) (offset start * Second). intros u o Hx.
  pose proof (Z.div_mod (u + o) nsPerDay ltac:(discriminate)) as Hd.
  pose proof (Z.mod_pos_bound (u + o) nsPerDay nsPerDay_pos) as Hm.
  symmetry. apply (Z.div_unique_pos (x + o) nsPerDay ((u + o) / nsPerDay)
                                    (x + o - nsPerDay * ((u + o) / nsPerDay))).
  - revert Hx Hd Hm. generalize ((u + o) / nsPerDay) ((u + o) mod nsPerDay).
    change nsPerDay with 86400000000000. intros q r Hx Hd Hm. lia.
  - lia.
Qed.

(** A segment that starts in the location [l], is not empty, is at most
    24 hours long and stays in the local day of its start. *)
Definition withinDay (l : Loc) (sg : TimeSegment) : Prop :=
  Location (seg_Start sg) = l
  /\ 0 < unixNano (seg_End sg) - unixNano (seg_Start sg) <= nsPerDay
  /\ forall x : Z,
       unixNano (seg_Start sg) <= x < unixNano (seg_End sg) ->
       localDays (mkTime x l) = localDays (seg_Start sg).

Lemma segmentLoop_withinDay (l : Loc) (o lo hi : Z) (e : Time) :
  keepsOffset l o lo hi -> unixSec e + secondsPerDay + Z.max 0 o <= hi ->
  forall (fuel : nat) (cur : Time) (acc : list TimeSegment),
    loc cur = l -> lo <= unixSec cur + Z.min 0 o ->
    Forall (withinDay l) acc ->
    Forall (withinDay l) (segmentLoop fuel cur e acc).
Proof.
  intros Hk Hhi. induction fuel as [|fuel IH]; intros cur acc Hl Hlo Hacc;
    cbn [segmentLoop]; [exact Hacc|].
  destruct (Before cur e) eqn:Hb; [|exact Hacc].
  destruct (steady_step l o lo hi e cur Hk Hhi Hl Hlo Hb) as (Hk' & Hlo' & Hhi' & Ho).
  pose proof (nextDayStart_after cur lo hi Hk' Hlo' Hhi') as Hn.
  pose proof (nextDayStart_loc cur) as Hnl. rewrite Hl in Hnl.
  assert (Hday : forall x, unixNano cur <= x < unixNano (nextDayStart cur) ->
                           localDays (mkTime x l) = localDays cur).
  { intros x Hx. rewrite <- Hl. exact (localDays_within cur lo hi x Hk' Hlo' Hhi' Hx). }
  unfold Before in Hb. apply Z.ltb_lt in Hb.
  destruct (After (nextDayStart cur) e) eqn:Ha.
  - rewrite segmentLoop_done by (unfold Before; apply Z.ltb_irrefl).
    apply Forall_app. split; [exact Hacc|]. constructor; [|constructor].
    unfold After in Ha. apply Z.ltb_lt in Ha.
    unfold withinDay. cbn [seg_Start seg_End]. split; [exact Hl|]. split; [lia|].
    intros x Hx. apply Hday. lia.
  - apply IH; [exact Hnl| |].
    + pose proof (unixSec_le cur (nextDayStart cur) ltac:(lia)). lia.
    + apply Forall_app. split; [exact Hacc|]. constructor; [|constructor].
      unfold withinDay. cbn [seg_Start seg_End]. split; [exact Hl|]. split; [lia|].
      exact Hday.
Qed.

(** X16.  With daily segmentation, and when the location of the start of
    the range has no change of clocks near the range, no segment of the
    plan reaches into a second calendar day: every segment starts in the
    location of the start of the range, is not empty and at most 24 hours
    long, and all its instants are on the calendar day of its start in
    that location. *)
Theorem daily_segments_within_a_day (s : UniversalSyncer) (a b : Time) :
  sc_DailySegmentation (cfg_Sync (config s)) = true ->
  steadyOver a b ->
  Forall (fun sg =>
            Location (seg_Start sg) = Location a
            /\ 0 < unixNano (seg_End sg) - unixNano (seg_Start sg) <= nsPerDay
            /\ forall x : Z,
                 unixNano (seg_Start sg) <= x < unixNano (seg_End sg) ->
                 localDays (mkTime x (Location a)) = localDays (seg_Start sg))
         (segmentTimeRange s (mkRange a b)).
Proof.
  intros Hd Hk. unfold segmentTimeRange. rewrite Hd. cbn [negb tr_Start tr_End].
  unfold steadyOver in Hk.
  apply (segmentLoop_withinDay _ _ _ _ b Hk); [lia | reflexivity | lia | constructor].
Qed.

(** The theorem on a range in the zone of Santiago, from the afternoon of
    a day in June to the morning of the day after the next. *)
Lemma daily_segments_within_a_day_witness :
  let a := Date 2023 6 1 15 30 0 0 DemoZone.santiago in
  let b := Date 2023 6 3 9 0 0 0 DemoZone.santiago in
  Forall (fun sg =>
            Location (seg_Start sg) = Location a
            /\ 0 < unixNano (seg_End sg) - unixNano (seg_Start sg) <= nsPerDay
            /\ forall x : Z,
                 unixNano (seg_Start sg) <= x < unixNano (seg_End sg) ->
                 localDays (mkTime x (Location a)) = localDays (seg_Start sg))
         (segmentTimeRange (Demo.syncer true) (mkRange a b)).
Proof.
  intros a b. apply (daily_segments_within_a_day (Demo.syncer true) a b); [reflexivity|].
  exact ZoneFacts.steady_in_june.
Defined.

Example daily_segments_example :
  map (fun sg => (Format_RFC3339Nano (seg_Start sg), Format_RFC3339Nano (seg_End sg)))
      (segmentTimeRange (Demo.syncer true)
         (mkRange (Date 2024 1 1 15 30 0 0 (FixedZone (8 * 3600))) (Date 2024 1 3 9 0 0 0 UTC)))
  = [("2024-01-01T15:30:00+08:00", "2024-01-02T00:00:00+08:00");
     ("2024-01-02T00:00:00+08:00", "2024-01-03T00:00:00+08:00");
     ("2024-01-03T00:00:00+08:00", "2024-01-03T09:00:00Z")].
Proof. vm_compute. reflexivity. Qed.

End DayFacts.

Module KeyFacts.
Import FmtFacts NumberFacts.

Lemma barFree_split (a b x y : string) :
  barFree a = true -> barFree b = true ->
  a +:+ String "|" x = b +:+ String "|" y -> a = b /\ x = y.
Proof.
  revert b. induction a as [|c a IH]; intros [|c' b] Ha Hb H.
  - rewrite !append_nil_l in H. injection H as ->. now split.
  - rewrite append_nil_l, append_cons in H. injection H as <- _.
    cbn in Hb. discriminate.
  - rewrite append_nil_l, append_cons in H. injection H as -> _.
    cbn in Ha. discriminate.
  - rewrite !append_cons in H. injection H as <- H.
    cbn [barFree] in Ha, Hb.
    apply andb_true_iff in Ha as [_ Ha]. apply andb_true_iff in Hb as [_ Hb].
    destruct (IH b Ha Hb H) as [-> ->]. now split.
Qed.

Lemma barFree_whole (a b y : string) :
  barFree a = true -> a <> b +:+ String "|" y.
Proof.
  revert b. induction a as [|c a IH]; intros [|c' b] Ha H.
  - rewrite append_nil_l in H. discriminate.
  - rewrite append_cons in H. discriminate.
  - rewrite append_nil_l in H. injection H as -> _. cbn in Ha. discriminate.
  - rewrite append_cons in H. injection H as <- H.
    cbn [barFree] in Ha. apply andb_true_iff in Ha as [_ Ha]. exact (IH b Ha H).
Qed.

Lemma concat_cons2 (x y : string) (l : list string) :
  String.concat "|" (x :: y :: l) = x +:+ String "|" (String.concat "|" (y :: l)).
Proof. reflexivity. Qed.

(** Joined with the separator, lists of strings that have no separator
    in them and are not empty are told apart. *)
Lemma concat_bar_inj (l1 : list string) :
  forall l2,
    Forall (fun s => barFree s = true /\ s <> "") l1 ->
    Forall (fun s => barFree s = true /\ s <> "") l2 ->
    String.concat "|" l1 = String.concat "|" l2 -> l1 = l2.
Proof.
  induction l1 as [|x l1 IH]; intros l2 H1 H2 H.
  - destruct l2 as [|y [|y' l2]]; [reflexivity | |].
    + cbn in H. apply Forall_cons in H2 as [[_ Hy] _]. congruence.
    + rewrite concat_cons2 in H. cbn in H. destruct y; discriminate.
  - apply Forall_cons in H1 as [[Hx Hxn] H1].
    destruct l2 as [|y l2].
    { destruct l1 as [|x' l1]; [cbn in H; congruence|].
      rewrite concat_cons2 in H. cbn in H. destruct x; discriminate. }
    apply Forall_cons in H2 as [[Hy Hyn] H2].
    destruct l1 as [|x' l1], l2 as [|y' l2].
    + cbn in H. now subst.
    + rewrite concat_cons2 in H. cbn [String.concat] in H.
      exfalso. exact (barFree_whole _ _ _ Hx H).
    + rewrite concat_cons2 in H. cbn [String.concat] in H.
      exfalso. symmetry in H. exact (barFree_whole _ _ _ Hy H).
    + rewrite !concat_cons2 in H.
      destruct (barFree_split _ _ _ _ Hx Hy H) as [-> Hrest].
      f_equal. now apply IH.
Qed.

Lemma digitChar_not_bar (d : Z) : 0 <= d < 10 -> Ascii.eqb (digitChar d) "|" = false.
Proof.
  intros H.
  assert (Hc : d = 0 \/ d = 1 \/ d = 2 \/ d = 3 \/ d = 4 \/ d = 5 \/ d = 6 \/ d = 7
               \/ d = 8 \/ d = 9) by lia.
  repeat (destruct Hc as [->|Hc]; [reflexivity|]). subst d. reflexivity.
Qed.

Lemma barFree_formatBits (fuel : nat) :
  forall (u : Z) (buf : string),
    0 <= u -> barFree buf = true -> barFree (formatBits fuel u buf) = true.
Proof.
  induction fuel as [|fuel IH]; intros u buf Hu Hb; cbn [formatBits]; [exact Hb|].
  destruct (u <? 10) eqn:E.
  - apply Z.ltb_lt in E. cbn [barFree]. now rewrite digitChar_not_bar, Hb by lia.
  - apply IH; [apply Z.div_pos; lia|].
    cbn [barFree]. rewrite digitChar_not_bar by (apply Z.mod_pos_bound; lia). exact Hb.
Qed.

Lemma barFree_Sprintf_d (z : Z) : barFree (Sprintf_d z) = true.
Proof.
  unfold Sprintf_d, formatUint. destruct (z <? 0) eqn:E.
  - apply Z.ltb_lt in E. cbn [barFree]. cbn [Ascii.eqb negb andb].
    apply barFree_formatBits; [lia | reflexivity].
  - apply Z.ltb_ge in E. apply barFree_formatBits; [lia | reflexivity].
Qed.

Lemma Sprintf_d_inj (x y : Z) : Sprintf_d x = Sprintf_d y -> x = y.
Proof.
  intros H. pose proof (Sprintf_d_signedValue x) as Hx.
  rewrite H, Sprintf_d_signedValue in Hx. congruence.
Qed.

Section WithLibs.
Context {L : GoLibs}.

(** X17.  The dedup key does not tell every two tuples apart: a
    separator inside a string moves the boundary between two columns, a
    string that spells the null token is a null, and a number and the
    string of its digits are the same.  Tuples of integers it does tell
    apart: two lists of integers with the same key are the same list. *)
Theorem buildKeyFromValues_collisions :
  (forall a b c : string,
      buildKeyFromValues [VString (a +:+ "|" +:+ b); VString c]
      = buildKeyFromValues [VString a; VString (b +:+ "|" +:+ c)])
  /\ (forall rest, buildKeyFromValues (VNil :: rest)
                   = buildKeyFromValues (VString "<NULL>" :: rest))
  /\ (forall z rest, buildKeyFromValues (VInt z :: rest)
                     = buildKeyFromValues (VString (Sprintf_d z) :: rest))
  /\ (forall xs ys : list Z,
        buildKeyFromValues (map VInt xs) = buildKeyFromValues (map VInt ys) -> xs = ys).
Proof.
  split; [|split; [|split]].
  - intros a b c. unfold buildKeyFromValues, strings_Join. cbn [map formatValue].
    rewrite !concat_cons2. cbn [String.concat].
    rewrite !append_assoc. reflexivity.
  - reflexivity.
  - reflexivity.
  - intros xs ys H. unfold buildKeyFromValues, strings_Join in H.
    rewrite !map_map in H. cbn [formatValue] in H.
    assert (Hall : forall l : list Z,
               Forall (fun s => barFree s = true /\ s <> "") (map Sprintf_d l)).
    { intros l. apply Forall_forall. intros s Hs.
      apply list_elem_of_fmap in Hs as (z & -> & _).
      split; [apply barFree_Sprintf_d|].
      pose proof (Sprintf_d_nonempty z) as Hn. intros E. rewrite E in Hn. cbn in Hn. lia. }
    apply concat_bar_inj in H; [|apply Hall|apply Hall].
    revert ys H. induction xs as [|x xs IH]; intros [|y ys] H; try discriminate.
    + reflexivity.
    + cbn [map] in H. injection H as Hxy H. f_equal; [now apply Sprintf_d_inj | now apply IH].
Qed.

End WithLibs.

Example key_collision_example :
  let d := NewDeduplicator ["region"; "name"] "ts" in
  @BuildKey Demo.libs d (<["region" := VString "eu|west"]> (<["name" := VString "a"]> ∅))
  = @BuildKey Demo.libs d (<["region" := VString "eu"]> (<["name" := VString "west|a"]> ∅)).
Proof. vm_compute. reflexivity. Qed.

End KeyFacts.

Module FullSyncFacts.
Import QueryFacts IntFacts SegmentSyncFacts FrameFacts.

Section WithLibs.
Context {L : GoLibs}.

(** The loop of [fullSync]: what it has inserted, [F], is a prefix of
    the batch it started with followed by the records of the rows. *)
Lemma fullRows_spec (s : UniversalSyncer) (batchSize : Z) (columns : list string)
    (rows : list (list Value)) :
  forall (st : FullLoop) (w : World),
    in_int (full_totalInserted st) ->
    exists st' err w' F,
      fullRows s batchSize columns rows st w = ((st', err), w')
      /\ keepsCheckpoints w w'
      /\ tableRows (targetDB w') (tableName s)
         = tableRows (targetDB w) (tableName s) ++ insertedRows s columns F
      /\ (exists rest,
            full_batch st ++ map (fun values => scanRow values columns) rows = F ++ rest
            /\ (err = None -> rest = full_batch st'))
      /\ full_totalInserted st' = wrap_int (full_totalInserted st + Z.of_nat (length F)).
Proof.
  induction rows as [|values rows IH]; intros st w Hint; cbn [fullRows map].
  - exists st, None, w, []. split; [reflexivity|]. split; [apply keepsCheckpoints_refl|].
    split; [now rewrite app_nil_r|]. split.
    + exists (full_batch st). split; [now rewrite app_nil_r | reflexivity].
    + cbn [length]. rewrite Z.add_0_r. symmetry. now apply wrap_int_id.
  - destruct (batchSize <=? Z.of_nat (length (full_batch st ++ [scanRow values columns])))
      eqn:Eb.
    + unfold bind at 1.
      destruct (insertBatch_cases s (full_batch st ++ [scanRow values columns]) columns w)
        as [(db' & Hins & Hrows)|(err & Hins)]; rewrite Hins; cbn [snd fst].
      * match goal with
        | |- context [fullRows s batchSize columns rows ?st1 ?w1] =>
            destruct (IH st1 w1 (int_add_range _ _))
              as (st' & err & w' & F & Heq & Hk & Htgt & (rest & Hrest & Hnone) & Hcnt)
        end.
        exists st', err, w', ((full_batch st ++ [scanRow values columns]) ++ F).
        split; [exact Heq|]. split.
        { eapply keepsCheckpoints_trans; [apply keepsCheckpoints_target | exact Hk]. }
        split.
        { rewrite Htgt. cbn [targetDB set_targetDB]. rewrite Hrows.
          rewrite (insertedRows_app _ _ (full_batch st ++ _) F). now rewrite app_assoc. }
        split.
        { exists rest. split; [|exact Hnone]. cbn [full_batch app] in Hrest.
          rewrite <- app_assoc. cbn [app]. rewrite <- app_assoc. now rewrite <- Hrest. }
        rewrite Hcnt. cbn [full_totalInserted]. unfold int_add. rewrite wrap_int_add_l.
        apply (f_equal wrap_int). rewrite !length_app, !Nat2Z.inj_add. lia.
      * unfold ret. eexists _, _, w, []. split; [reflexivity|].
        split; [apply keepsCheckpoints_refl|]. split; [now rewrite app_nil_r|]. split.
        { eexists. split; [reflexivity | discriminate]. }
        cbn [full_totalInserted length]. rewrite Z.add_0_r. symmetry. now apply wrap_int_id.
    + destruct (IH (mkFullLoop (full_totalInserted st)
                               (full_batch st ++ [scanRow values columns]) (full_lines st))
                   w Hint)
        as (st' & err & w' & F & Heq & Hk & Htgt & (rest & Hrest & Hnone) & Hcnt).
      exists st', err, w', F. split; [exact Heq|]. split; [exact Hk|].
      split; [exact Htgt|]. split; [|exact Hcnt].
      exists rest. split; [|exact Hnone]. cbn [full_batch] in Hrest.
      rewrite <- Hrest. now rewrite <- app_assoc.
Qed.

(** X19.  [fullSync] looks up no key: the rows it adds to the target are
    made from the records of the source rows, in their order, from the
    first one on, and from all of them when it returns no error, whatever
    the target holds; then the target has grown by the number of the
    source rows.  It leaves the source, the state and the state file as
    they were.  [Sync] is [fullSync] for the mode [full] and
    [incrementalSync] for every other mode. *)
Theorem fullSync_copies_all (s : UniversalSyncer) (w : World) (t : Table) :
  dbTable (sourceDB w) (tableName s) = inl t ->
  let columns := GetColumnNames (tableSchema s) in
  let records :=
    map (fun row => scanRow (map (recordGet row) columns) columns) (tbl_rows t) in
  let r := fullSync s w in
  (exists F rest,
      records = F ++ rest
      /\ tableRows (targetDB (snd r)) (tableName s)
         = tableRows (targetDB w) (tableName s) ++ insertedRows s columns F
      /\ (fst (fst r) = None -> rest = []))
  /\ (fst (fst r) = None ->
      length (tableRows (targetDB (snd r)) (tableName s))
      = (length (tableRows (targetDB w) (tableName s)) + length (tbl_rows t))%nat)
  /\ keepsCheckpoints w (snd r)
  /\ (GetEffectiveMode (tableConfig s) (sc_Mode (cfg_Sync (config s))) = "full" ->
      Sync s w = fullSync s w)
  /\ (GetEffectiveMode (tableConfig s) (sc_Mode (cfg_Sync (config s))) <> "full" ->
      Sync s w = ((fst (incrementalSync s w), []), snd (incrementalSync s w))).
Proof.
  intros Ht columns records r.
  assert (Hmain : exists F rest res w',
             fullSync s w = (res, w')
             /\ records = F ++ rest
             /\ tableRows (targetDB w') (tableName s)
                = tableRows (targetDB w) (tableName s) ++ insertedRows s columns F
             /\ (fst res = None -> rest = [])
             /\ keepsCheckpoints w w').
  { unfold fullSync. cbn zeta. fold columns.
    unfold bind at 1, gets at 1. unfold querySelectAll. rewrite Ht.
    destruct (_ <? 0).
    { exists [], records. eexists _, _. unfold ret. split; [reflexivity|].
      split; [reflexivity|].
      split; [now rewrite app_nil_r|]. split; [discriminate | apply keepsCheckpoints_refl]. }
    unfold bind at 1.
    match goal with
    | |- context [fullRows s ?bs columns ?rows ?st0 w] =>
        destruct (fullRows_spec s bs columns rows st0 w)
          as (st' & err & w' & F & Heq & Hk & Htgt & (rest & Hrest & Hnone) & Hcnt);
          [unfold in_int; cbn; lia|]
    end.
    rewrite Heq. cbn [fst snd]. cbn [full_batch app] in Hrest.
    rewrite map_map in Hrest. fold records in Hrest.
    destruct err as [err|].
    { exists F, rest. eexists _, _. unfold ret. split; [reflexivity|]. split; [exact Hrest|].
      split; [exact Htgt|]. split; [discriminate | exact Hk]. }
    specialize (Hnone eq_refl). subst rest.
    destruct (full_batch st') as [|record b] eqn:Eb; cbn [length Nat.ltb Nat.leb].
    { exists F, []. eexists _, _. unfold ret. split; [reflexivity|]. split; [exact Hrest|].
      split; [exact Htgt|]. split; [reflexivity | exact Hk]. }
    unfold bind at 1.
    destruct (insertBatch_cases s (record :: b) columns w')
      as [(db' & Hins & Hrows)|(err & Hins)]; rewrite Hins; cbn [snd fst]; unfold ret.
    - exists (F ++ record :: b), []. eexists _, _. split; [reflexivity|].
      split; [now rewrite app_nil_r|]. split.
      { cbn [targetDB set_targetDB]. rewrite Hrows, Htgt.
        rewrite (insertedRows_app _ _ F). now rewrite app_assoc. }
      split; [reflexivity|].
      eapply keepsCheckpoints_trans; [exact Hk | apply keepsCheckpoints_target].
    - exists F, (record :: b). eexists _, _. split; [reflexivity|]. split; [exact Hrest|].
      split; [exact Htgt|]. split; [discriminate | exact Hk]. }
  destruct Hmain as (F & rest & res & w' & Hfull & Hrec & Htgt & Hnone & Hk).
  subst r. rewrite Hfull. cbn [fst snd].
  split; [exists F, rest; now repeat split|]. split; [|split; [exact Hk|split]].
  - intros Hok. specialize (Hnone Hok). subst rest. rewrite app_nil_r in Hrec. subst F.
    rewrite Htgt, length_app. unfold insertedRows, records. now rewrite !length_map.
  - intros Hm. unfold Sync. cbn zeta. rewrite Hm. exact Hfull.
  - intros Hm. unfold Sync. cbn zeta. apply String.eqb_neq in Hm. rewrite Hm.
    unfold bind, ret. destruct (incrementalSync s w). reflexivity.
Qed.

End WithLibs.

(** The theorem on the small installation: two full syncs in a row, and
    the target holds every row twice. *)
Lemma fullSync_copies_all_witness :
  let s := Demo.syncer true in
  let w := snd (@fullSync Demo.libs s
                  (Demo.world Demo.tenRows [] (Date 2024 1 2 13 0 0 0 UTC) true)) in
  let t := mkTable Demo.columns Demo.tenRows in
  let columns := GetColumnNames (tableSchema s) in
  let records :=
    map (fun row => scanRow (map (recordGet row) columns) columns) (tbl_rows t) in
  let r := @fullSync Demo.libs s w in
  (exists F rest,
      records = F ++ rest
      /\ tableRows (targetDB (snd r)) (tableName s)
         = tableRows (targetDB w) (tableName s) ++ @insertedRows Demo.libs s columns F
      /\ (fst (fst r) = None -> rest = []))
  /\ (fst (fst r) = None ->
      length (tableRows (targetDB (snd r)) (tableName s))
      = (length (tableRows (targetDB w) (tableName s)) + length (tbl_rows t))%nat)
  /\ keepsCheckpoints w (snd r)
  /\ (GetEffectiveMode (tableConfig s) (sc_Mode (cfg_Sync (config s))) = "full" ->
      @Sync Demo.libs s w = @fullSync Demo.libs s w)
  /\ (GetEffectiveMode (tableConfig s) (sc_Mode (cfg_Sync (config s))) <> "full" ->
      @Sync Demo.libs s w
      = ((fst (@incrementalSync Demo.libs s w), []), snd (@incrementalSync Demo.libs s w))).
Proof.
  intros s w t.
  apply (@fullSync_copies_all Demo.libs s w t). vm_compute. reflexivity.
Defined.

Example fullSync_twice :
  let s := Demo.syncer true in
  let w1 := snd (@fullSync Demo.libs s
                   (Demo.world Demo.tenRows [] (Date 2024 1 2 13 0 0 0 UTC) true)) in
  let r2 := @fullSync Demo.libs s w1 in
  length (tableRows (targetDB w1) "events") = 10%nat
  /\ fst (fst r2) = None
  /\ snd (fst r2) = [LogFullBegin; LogFullSynced 2; LogFullSynced 4; LogFullSynced 6;
                     LogFullSynced 8; LogFullSynced 10; LogFullDone 10]
  /\ length (tableRows (targetDB (snd r2)) "events") = 20%nat.
Proof. vm_compute. repeat split; reflexivity. Qed.

End FullSyncFacts.

Module ReplayFacts.
Import QueryFacts IntFacts SegmentSyncFacts CoercionFacts SchemaFacts SyncerFacts FrameFacts.

(** A record made of the values of its columns gives them back. *)
Lemma rowOfValues_get (columns : list string) (g : string -> Value) (c : string) :
  c ∈ columns -> recordGet (rowOfValues columns (map g columns)) c = g c.
Proof.
  unfold rowOfValues, recordGet.
  assert (H : forall (acc : Row),
             (c ∈ columns \/ acc !! c = Some (g c)) ->
             fold_left (fun record cv => <[fst cv := snd cv]> record)
                       (combine columns (map g columns)) acc !! c = Some (g c)).
  { induction columns as [|x xs IH]; intros acc Hc; cbn [map combine fold_left].
    - destruct Hc as [Hc|Hc]; [inversion Hc | exact Hc].
    - apply IH. cbn [fst snd]. destruct (decide (x = c)) as [->|Hne].
      + right. apply lookup_insert_eq.
      + destruct Hc as [Hc|Hc].
        * left. apply elem_of_cons in Hc as [Hc|Hc]; [congruence | exact Hc].
        * right. now rewrite lookup_insert_ne. }
  intros Hc. rewrite H by now left. reflexivity.
Qed.

Section WithLibs.
Context {L : GoLibs}.

Lemma coerceValue_plain (m : gmap string string) (col : string) (val : Value) :
  typeContains m col "Decimal" = false -> typeContains m col "DateTime" = false ->
  coerceValue m col val = val.
Proof. intros Hd Ht. unfold coerceValue. rewrite Hd, Ht. reflexivity. Qed.

Lemma coerceValue_time_in_range (m : gmap string string) (col : string) (t : Time) :
  unixNano minTime <= unixNano t <= unixNano maxTime ->
  coerceValue m col (VTime t) = VTime t.
Proof.
  intros Hr. rewrite coerceValue_time.
  replace (Before t minTime) with false by (symmetry; apply Z.ltb_ge; lia).
  replace (After t maxTime) with false by (symmetry; apply Z.ltb_ge; lia).
  replace (IsZero t) with false; [now rewrite andb_false_r|].
  symmetry. apply Z.eqb_neq.
  assert (Hz : unixNano zeroTime < unixNano minTime) by (vm_compute; reflexivity).
  lia.
Qed.

(** The ordered query returns every row of the range. *)
Lemma querySelectRangeOrdered_complete (db : DB) (table : string) (cols : list string)
    (col : string) (lo hi : Time) (rows : list (list Value)) (t : Table) (row : Row) :
  querySelectRangeOrdered db table cols col OpLt lo hi = inl rows ->
  dbTable db table = inl t -> row ∈ tbl_rows t -> inHalfOpen col lo hi row ->
  map (recordGet row) cols ∈ rows.
Proof.
  unfold querySelectRangeOrdered. intros Hq Ht Hin Hr. rewrite Ht in Hq.
  injection Hq as <-. apply list_elem_of_fmap. exists row. split; [reflexivity|].
  rewrite merge_sort_Permutation. apply elem_of_filter_bool.
  split; [now apply whereRange_OpLt | exact Hin].
Qed.

(** A sync of a segment that returned no error has read the keys and the
    rows. *)
Lemma syncSegment_ok_inv (s : UniversalSyncer) (segment : TimeSegment) (w : World) :
  snd (fst (syncSegment s segment w)) = None ->
  exists keys rows,
    FetchExistingKeys (deduplicator s) (targetDB w) (tableName s) segment (tableSchema s)
    = inl keys
    /\ querySelectRangeOrdered (sourceDB w) (tableName s) (GetColumnNames (tableSchema s))
         (tc_TimeField (tableConfig s)) OpLt (seg_Start segment) (seg_End segment)
       = inl rows.
Proof.
  intros Hok.
  destruct (FetchExistingKeys (deduplicator s) (targetDB w) (tableName s) segment
              (tableSchema s)) as [keys|e] eqn:Ek.
  2:{ unfold syncSegment, bind, gets, log_Printf, modify, ret in Hok. wsimpl in Hok.
      rewrite Ek in Hok. discriminate. }
  destruct (querySelectRangeOrdered (sourceDB w) (tableName s)
              (GetColumnNames (tableSchema s)) (tc_TimeField (tableConfig s)) OpLt
              (seg_Start segment) (seg_End segment)) as [rows|e] eqn:Eq.
  2:{ unfold syncSegment, bind, gets, log_Printf, modify, ret in Hok. wsimpl in Hok.
      rewrite Ek in Hok. wsimpl in Hok. rewrite Eq in Hok. discriminate. }
  eauto.
Qed.

(** The dedup key of a record scanned from all the columns of a row is the
    key of the row, when the dedup keys are columns. *)
Lemma BuildKey_scanRow (d : Deduplicator) (columns : list string) (row : Row) :
  (forall k, k ∈ dedupeKeys d -> k ∈ columns) ->
  BuildKey d (scanRow (map (recordGet row) columns) columns)
  = buildKeyFromValues (map (recordGet row) (dedupeKeys d)).
Proof.
  intros Hk. unfold BuildKey, scanRow. f_equal.
  apply map_ext_in. intros k Hin. apply rowOfValues_get, Hk. now apply list_elem_of_In.
Qed.

(** The value a column has in the row that [insertBatch] makes of a
    record. *)
Lemma insertedRow_get (s : UniversalSyncer) (columns : list string) (record : Row)
    (c : string) :
  c ∈ columns ->
  recordGet (rowOfValues columns (rowValues s columns record)) c
  = coerceValue (colTypeMap s) c (recordGet record c).
Proof.
  intros Hc. unfold rowValues.
  exact (rowOfValues_get columns
           (fun col => coerceValue (colTypeMap s) col (recordGet record col)) c Hc).
Qed.

(** X21.  Running [syncSegment] again on the same segment after a run that
    returned no error inserts nothing: the second call returns the count 0
    and leaves the target database as the first one left it.  This holds
    for a segment between the bounds [insertBatch] accepts for a time,
    when the time field of the deduplicator is that of the table and a
    column, and when the coercion of [insertBatch] leaves the values of
    the other dedup keys of the source rows as they are. *)
Theorem syncSegment_twice (s : UniversalSyncer) (segment : TimeSegment) (w : World) :
  let columns := GetColumnNames (tableSchema s) in
  let d := deduplicator s in
  let tf := tc_TimeField (tableConfig s) in
  timeField d = tf ->
  tf ∈ columns ->
  unixNano minTime <= unixNano (seg_Start segment) ->
  unixNano (seg_End segment) <= unixNano maxTime ->
  (forall ts row k,
      dbTable (sourceDB w) (tableName s) = inl ts ->
      row ∈ tbl_rows ts ->
      inHalfOpen tf (seg_Start segment) (seg_End segment) row ->
      k ∈ dedupeKeys d -> k <> tf ->
      coerceValue (colTypeMap s) k (recordGet row k) = recordGet row k) ->
  snd (fst (syncSegment s segment w)) = None ->
  fst (fst (syncSegment s segment (snd (syncSegment s segment w)))) = 0
  /\ targetDB (snd (syncSegment s segment (snd (syncSegment s segment w))))
     = targetDB (snd (syncSegment s segment w)).
Proof.
  intros columns d tf Htf Hcol Hlo Hhi Hplain Hok.
  destruct (syncSegment_ok_inv s segment w Hok) as (keys & rows & Hk & Hq).
  destruct (syncSegment_spec s segment w keys rows Hk Hq)
    as (n & err & w' & F & rest & Heq & Hnew & Htgt & _ & Hnone).
  pose proof (syncSegment_keeps s segment w) as (Hsrc & _).
  pose proof (syncSegment_targetListed s segment w) as Hlisted.
  rewrite Heq in Hok, Hsrc, Hlisted. cbn [fst snd] in Hok, Hsrc, Hlisted.
  rewrite Heq. cbn [snd].
  specialize (Hnone Hok). subst rest. rewrite app_nil_r in Hnew.
  destruct (FetchExistingKeys_spec _ _ _ _ _ _ Hk) as (tt & Htt & Hkeys).
  destruct (Hlisted (ex_intro _ tt Htt)) as (tt' & Htt').
  assert (Hrows' : tbl_rows tt' = tbl_rows tt ++ insertedRows s columns F).
  { pose proof Htt as Ha. pose proof Htt' as Hb.
    apply dbTable_inl in Ha as [_ Ha]. apply dbTable_inl in Hb as [_ Hb].
    unfold tableRows in Htgt. rewrite Ha, Hb in Htgt. exact Htgt. }
  assert (Hdk : forall k, k ∈ dedupeKeys d -> k ∈ columns).
  { intros k Hin. apply HasColumn_names.
    assert (Hm : (0 <? length (missingKeys (tableSchema s) (dedupeKeys d)))%nat = false).
    { destruct (0 <? length (missingKeys (tableSchema s) (dedupeKeys d)))%nat eqn:Em;
        [|reflexivity].
      exfalso. revert Hk. unfold FetchExistingKeys. unfold d in Em. rewrite Em.
      discriminate. }
    exact (proj1 (missingKeys_nil _ _) Hm k Hin). }
  assert (Hall : forall ts row,
             dbTable (sourceDB w') (tableName s) = inl ts ->
             row ∈ tbl_rows ts ->
             inHalfOpen tf (seg_Start segment) (seg_End segment) row ->
             exists tt0 trow,
               dbTable (targetDB w') (tableName s) = inl tt0
               /\ trow ∈ tbl_rows tt0
               /\ inHalfOpen (timeField d) (seg_Start segment) (seg_End segment) trow
               /\ buildKeyFromValues (map (recordGet trow) (dedupeKeys d))
                  = BuildKey d (scanRow (map (recordGet row) columns) columns)).
  { intros ts row Hts Hrow Hr. rewrite Hsrc in Hts.
    rewrite (BuildKey_scanRow d columns row Hdk).
    exists tt'. rewrite Hrows'.
    destruct (keyExists keys (buildKeyFromValues (map (recordGet row) (dedupeKeys d))))
      eqn:Ee.
    - apply Hkeys in Ee as (trow & Hin & Htr & Hkey).
      exists trow. split; [exact Htt'|]. split; [apply elem_of_app; now left|].
      split; [exact Htr | exact Hkey].
    - set (record := scanRow (map (recordGet row) columns) columns).
      assert (HinF : record ∈ F).
      { rewrite <- Hnew. unfold newRecords. apply list_elem_of_In, filter_In. split.
        - apply in_map_iff. exists (map (recordGet row) columns). split; [reflexivity|].
          apply list_elem_of_In.
          exact (querySelectRangeOrdered_complete _ _ _ _ _ _ _ _ _ Hq Hts Hrow Hr).
        - change (negb (keyExists keys
                     (BuildKey d (scanRow (map (recordGet row) columns) columns))) = true).
          rewrite (BuildKey_scanRow d columns row Hdk), Ee. reflexivity. }
      assert (Hget : forall c, c ∈ columns -> recordGet record c = recordGet row c).
      { intros c Hc. unfold record, scanRow. now apply rowOfValues_get. }
      destruct Hr as (tm & Htm & Hrange).
      assert (Hv : recordGet row tf = VTime tm).
      { unfold timeOf in Htm. destruct (recordGet row tf); try discriminate.
        now injection Htm as ->. }
      assert (Hcoerce : forall k, k ∈ dedupeKeys d \/ k = tf ->
                 recordGet (rowOfValues columns (rowValues s columns record)) k
                 = recordGet row k).
      { intros k Hin.
        assert (Hkc : k ∈ columns) by (destruct Hin as [Hin| ->]; auto).
        rewrite (insertedRow_get s columns record k Hkc), (Hget k Hkc).
        destruct (decide (k = tf)) as [->|Hne].
        - rewrite Hv. apply coerceValue_time_in_range. lia.
        - destruct Hin as [Hin|Hin]; [|contradiction].
          apply (Hplain ts row k Hts Hrow); auto.
          exists tm. split; [exact Htm | exact Hrange]. }
      exists (rowOfValues columns (rowValues s columns record)).
      split; [exact Htt'|]. split.
      { apply elem_of_app. right. unfold insertedRows. apply list_elem_of_fmap.
        exists record. split; [reflexivity | exact HinF]. }
      split.
      { rewrite Htf. exists tm. split; [|exact Hrange].
        unfold timeOf. rewrite (Hcoerce tf (or_intror eq_refl)), Hv. reflexivity. }
      f_equal. apply map_ext_in. intros k Hin. apply Hcoerce. left.
      now apply list_elem_of_In. }
  destruct (syncSegment_all_exist s segment w' Hall) as (err' & l & Heq').
  rewrite Heq'. split; reflexivity.
Qed.

End WithLibs.

(** The theorem on the first day of the small installation: the second
    run over the day inserts nothing. *)
Lemma syncSegment_twice_witness :
  let s := Demo.syncer true in
  let segment := mkSegment (Date 2024 1 1 0 0 0 0 UTC) (Date 2024 1 2 0 0 0 0 UTC) in
  let w := Demo.world Demo.tenRows [] (Date 2024 1 3 1 0 0 0 UTC) true in
  fst (fst (@syncSegment Demo.libs s segment (snd (@syncSegment Demo.libs s segment w)))) = 0
  /\ targetDB (snd (@syncSegment Demo.libs s segment (snd (@syncSegment Demo.libs s segment w))))
     = targetDB (snd (@syncSegment Demo.libs s segment w)).
Proof.
  intros s segment w.
  apply (@syncSegment_twice Demo.libs s segment w).
  - reflexivity.
  - apply list_elem_of_In. vm_compute. auto.
  - vm_compute. discriminate.
  - vm_compute. discriminate.
  - intros ts row k _ _ _ Hk _. apply list_elem_of_singleton in Hk as ->.
    apply coerceValue_plain; vm_compute; reflexivity.
  - vm_compute. reflexivity.
Defined.

(** The first run copies the six rows of the day; the second copies
    none. *)
Example syncSegment_twice_example :
  let s := Demo.syncer true in
  let segment := mkSegment (Date 2024 1 1 0 0 0 0 UTC) (Date 2024 1 2 0 0 0 0 UTC) in
  let w := Demo.world Demo.tenRows [] (Date 2024 1 3 1 0 0 0 UTC) true in
  fst (@syncSegment Demo.libs s segment w) = (6, None)
  /\ fst (@syncSegment Demo.libs s segment (snd (@syncSegment Demo.libs s segment w)))
     = (0, None).
Proof. vm_compute. split; reflexivity. Qed.

End ReplayFacts.
